(** * FileFinder: a shallow embedding of [FileFinder.py] and its properties

    The development follows the source file function by function:
    [normalize_ext_list], [format_size], [ensure_parent_dir],
    [process_file], [find_large_files], [display_large_files] and the
    [try] block of [main] (scan, report, optional deletion).

    Conventions.
    - A Python [str] is a [string] whose characters are the code points
      below 256; [str.lower], [str.strip] and the JSON encoders are the
      Python ones on that range.
    - A Python [int] is a [Z]; [None]-or-value arguments are [option]s and
      the truthiness tests of the source ([if limit], [if output_file],
      [if include_types and ...]) are written out.
    - The operating system is an interface ([OS]); the console, the log and
      the sequence of system calls made are fields of the program state,
      threaded by a small state-and-exception monad.
    - The thread pool is run under an explicit schedule: a list of choices
      that says which of the in-flight probes completes next.
    - A log record is kept by call site and arguments, not as formatted
      text; the progress bar of [tqdm] is not part of the model. *)

From Stdlib Require Import String Ascii List ZArith Lia Bool Arith.
From Stdlib Require Import Permutation Sorted.
Import ListNotations.

Local Open Scope string_scope.
Local Open Scope Z_scope.

(** ** Python strings *)

Definition code (c : ascii) : Z := Z.of_nat (nat_of_ascii c).

Definition chr (n : Z) : ascii := ascii_of_nat (Z.to_nat n).

(** [str.lower] on one character: A-Z, and the Latin-1 capitals
    U+00C0..U+00DE without the multiplication sign U+00D7. *)
Definition lower_char (c : ascii) : ascii :=
  let n := code c in
  if ((65 <=? n) && (n <=? 90)) || ((192 <=? n) && (n <=? 222) && negb (n =? 215))
  then chr (n + 32) else c.

Fixpoint lower (s : string) : string :=
  match s with
  | EmptyString => EmptyString
  | String c r => String (lower_char c) (lower r)
  end.

(** [str.isspace] on one character: TAB..CR, FS..US, space, NEL, NBSP. *)
Definition isspace (c : ascii) : bool :=
  let n := code c in
  ((9 <=? n) && (n <=? 13)) || ((28 <=? n) && (n <=? 32)) || (n =? 133) || (n =? 160).

Fixpoint lstrip (s : string) : string :=
  match s with
  | EmptyString => EmptyString
  | String c r => if isspace c then lstrip r else s
  end.

Definition string_rev (s : string) : string :=
  string_of_list_ascii (rev (list_ascii_of_string s)).

Definition rstrip (s : string) : string := string_rev (lstrip (string_rev s)).

(** [s.strip()] *)
Definition strip (s : string) : string := rstrip (lstrip s).

(** [s.startswith(p)] *)
Definition startswith (p s : string) : bool := String.prefix p s.

(** Truth value of a [str]: the empty string is false. *)
Definition str_truthy (s : string) : bool :=
  match s with EmptyString => false | _ => true end.

(** Truth value of a list: the empty list is false. *)
Definition list_truthy {A} (l : list A) : bool :=
  match l with [] => false | _ => true end.

(** Truth value of [None]-or-list. *)
Definition opt_list_truthy {A} (o : option (list A)) : bool :=
  match o with Some l => list_truthy l | None => false end.

(** [x in l] for a list of strings. *)
Definition str_in (x : string) (l : list string) : bool :=
  existsb (String.eqb x) l.

(** [s.rfind(c)] for a one-character [c]: the last index of [c], or -1. *)
Fixpoint rfind_from (c : ascii) (s : string) (i : Z) (last : Z) : Z :=
  match s with
  | EmptyString => last
  | String d r => rfind_from c r (i + 1) (if Ascii.eqb d c then i else last)
  end.

Definition rfind (c : ascii) (s : string) : Z := rfind_from c s 0 (-1).

(** [p[i:j]] for [0 <= i]. *)
Definition slice (p : string) (i j : Z) : string :=
  substring (Z.to_nat i) (Z.to_nat (j - i)) p.

(** [p[i:]] for [0 <= i]. *)
Definition slice_from (p : string) (i : Z) : string :=
  substring (Z.to_nat i) (String.length p) p.

Fixpoint all_dots (s : string) : bool :=
  match s with
  | EmptyString => true
  | String c r => Ascii.eqb c "." && all_dots r
  end.

(** [os.path.splitext(p)[1]] (posixpath: separator [/], no alternative
    separator). The extension starts at the last dot, provided that dot
    comes after the last separator and some character between the two is
    not a dot (the loop that skips leading dots). *)
Definition splitext_ext (p : string) : string :=
  let sepIndex := rfind "/" p in
  let dotIndex := rfind "." p in
  if sepIndex <? dotIndex
  then if all_dots (slice p (sepIndex + 1) dotIndex)
       then EmptyString
       else slice_from p dotIndex
  else EmptyString.

Fixpoint endswith_char (c : ascii) (s : string) : bool :=
  match s with
  | EmptyString => false
  | String d EmptyString => Ascii.eqb d c
  | String _ r => endswith_char c r
  end.

(** [os.path.join(a, b)] (posixpath). *)
Definition path_join (a b : string) : string :=
  if startswith "/" b then b
  else if negb (str_truthy a) || endswith_char "/" a then a ++ b
  else a ++ "/" ++ b.

(** ** normalize_ext_list *)

(** The loop of [normalize_ext_list]: empty entries and entries that are
    blank after [strip] are skipped; the others are lower-cased and given
    a leading dot. *)
Fixpoint normalize_loop (exts : list string) : list string :=
  match exts with
  | [] => []
  | ext :: rest =>
      if negb (str_truthy ext) then normalize_loop rest
      else
        let e := lower (strip ext) in
        if negb (str_truthy e) then normalize_loop rest
        else (if negb (startswith "." e) then "." ++ e else e) :: normalize_loop rest
  end.

Definition normalize_ext_list (exts : option (list string)) : option (list string) :=
  if negb (opt_list_truthy exts) then None
  else
    match exts with
    | None => None
    | Some l =>
        let norm := normalize_loop l in
        if list_truthy norm then Some norm else None
    end.

(** ** The configured lists, entry by entry

    What the loop of lines 21-29 makes of one entry of a configured list:
    nothing of a blank one, else its text without the blanks around it and
    in lower case, with a dot put in front unless it has one. *)
Definition entry_ext (entry : string) : option string :=
  let e := lower (strip entry) in
  if str_truthy e then Some (if startswith "." e then e else "." ++ e) else None.

(** No filter is configured: there is no list, or no entry of it names an
    extension. *)
Definition filter_absent (exts : option (list string)) : bool :=
  match exts with
  | None => true
  | Some l =>
      forallb (fun entry => match entry_ext entry with
                            | Some _ => false
                            | None => true
                            end) l
  end.

(** An entry of the configured list names the extension [ext]. *)
Definition filter_holds (exts : option (list string)) (ext : string) : bool :=
  match exts with
  | None => false
  | Some l =>
      existsb (fun entry => match entry_ext entry with
                            | Some e => String.eqb ext e
                            | None => false
                            end) l
  end.

(** ** The extension filter of find_large_files (lines 83-87) *)

(** [true] when the file is kept. The include test comes first; the exclude
    test is reached only by a file the include test did not drop. *)
Definition passes_filters (include_types exclude_types : option (list string))
    (ext : string) : bool :=
  if opt_list_truthy include_types
     && negb (match include_types with Some l => str_in ext l | None => false end)
  then false
  else if opt_list_truthy exclude_types
          && (match exclude_types with Some l => str_in ext l | None => false end)
  then false
  else true.

(** ** The operating system and the program state *)

(** The system calls the program makes, as functions of the state of the
    world [W]. A call that can fail returns [false] beside the new world
    where Python raises [OSError]. *)
Class OS (W : Type) := {
  (** [os.path.isdir] *)
  isdir : W -> string -> bool;
  (** [os.walk]: the [(root, files)] components it yields, in its order *)
  walk : W -> string -> list (string * list string);
  (** [os.path.getsize]; [None] when it raises [OSError] *)
  getsize : W -> string -> option Z;
  (** [os.cpu_count()] *)
  cpu_count : W -> option nat;
  (** [os.path.dirname(os.path.abspath(path))] *)
  parent_of : W -> string -> string;
  (** [os.path.exists] *)
  path_exists : W -> string -> bool;
  (** [os.makedirs(parent, exist_ok=True)] *)
  makedirs : W -> string -> W * bool;
  (** [open(path, "w")] followed by writing the text and closing *)
  write_text : W -> string -> string -> W * bool;
  (** [os.remove] *)
  remove : W -> string -> W * bool
}.

Inductive exn := OSError | ValueError | EOFError.

(** The records handed to [logging], by call site. *)
Inductive log_record :=
| WarnSkippingPath (directory : string)
| InfoTotalCandidates (total_files : Z)
| ErrorAccessingFile (file_path : string)
| InfoNoFilesFound
| InfoResultsSaved (output_file : string)
| ErrorSaveFailed (output_file : string)
| InfoSummary (count : Z) (total_bytes : Z)
| InfoDeletionCancelled
| ErrorDeleteFailed (file_path : string)
| InfoDeletionComplete (deleted failed : Z)
| ExceptionUnexpected (e : exn)
| InfoScanningDirectories (directories_to_scan : list string) (size_threshold_mb : Z)
| InfoFilters (include exclude : string).

(** The state-changing or probing system calls, as they were made. *)
Inductive os_call :=
| CallGetsize (file_path : string)
| CallMakedirs (parent : string) (ok : bool)
| CallWrite (output_file : string) (text : string) (ok : bool)
| CallRemove (file_path : string) (ok : bool).

Record state (W : Type) := mkState {
  world : W;
  stdout : string;
  stdin : list string;
  log : list log_record;
  calls : list os_call
}.

Arguments mkState {W}.
Arguments world {W}.
Arguments stdout {W}.
Arguments stdin {W}.
Arguments log {W}.
Arguments calls {W}.

(** How a call ends: it returns, it raises, or it never returns. *)
Inductive outcome (A : Type) :=
| Returned (a : A)
| Raised (e : exn)
| Blocked.

Arguments Returned {A}.
Arguments Raised {A}.
Arguments Blocked {A}.

Definition M (W A : Type) : Type := state W -> outcome A * state W.

Definition ret {W A} (a : A) : M W A := fun s => (Returned a, s).

Definition bind {W A B} (m : M W A) (k : A -> M W B) : M W B :=
  fun s =>
    match m s with
    | (Returned a, s') => k a s'
    | (Raised e, s') => (Raised e, s')
    | (Blocked, s') => (Blocked, s')
    end.

Definition raise {W A} (e : exn) : M W A := fun s => (Raised e, s).

Definition blocked {W A} : M W A := fun s => (Blocked, s).

(** [try: m except Exception as e: h e] *)
Definition try_except {W A} (m : M W A) (h : exn -> M W A) : M W A :=
  fun s =>
    match m s with
    | (Raised e, s') => h e s'
    | r => r
    end.

Declare Scope monad_scope.
Delimit Scope monad_scope with monad.
Notation "x <- m ;; k" := (bind m (fun x => k))
  (at level 61, m at next level, right associativity) : monad_scope.
Notation "m ;;; k" := (bind m (fun _ => k))
  (at level 61, right associativity) : monad_scope.
Local Open Scope monad_scope.

Definition get_world {W} : M W W := fun s => (Returned (world s), s).

Definition logging {W} (r : log_record) : M W unit :=
  fun s => (Returned tt, mkState (world s) (stdout s) (stdin s) (log s ++ [r])%list (calls s)).

Definition newline : string := String (chr 10) EmptyString.

(** [print(text)] *)
Definition print {W} (text : string) : M W unit :=
  fun s => (Returned tt,
            mkState (world s) (stdout s ++ text ++ newline) (stdin s) (log s) (calls s)).

(** [input(prompt)]: the prompt goes to standard output without a newline;
    at end of input [EOFError] is raised. *)
Definition input {W} (prompt : string) : M W string :=
  fun s =>
    let s' := mkState (world s) (stdout s ++ prompt) (tl (stdin s)) (log s) (calls s) in
    match stdin s with
    | line :: _ => (Returned line, s')
    | [] => (Raised EOFError, s')
    end.

Definition record_call {W} (w' : W) (c : os_call) : M W unit :=
  fun s => (Returned tt, mkState w' (stdout s) (stdin s) (log s) (calls s ++ [c])%list).

Section Scan.
Context {W : Type} {os : OS W}.

Definition os_getsize (file_path : string) : M W (option Z) :=
  w <- get_world ;;
  record_call w (CallGetsize file_path) ;;;
  ret (getsize w file_path).

Definition os_makedirs (parent : string) : M W unit :=
  w <- get_world ;;
  let '(w', ok) := makedirs w parent in
  record_call w' (CallMakedirs parent ok) ;;;
  if ok then ret tt else raise OSError.

Definition os_write (output_file text : string) : M W unit :=
  w <- get_world ;;
  let '(w', ok) := write_text w output_file text in
  record_call w' (CallWrite output_file text ok) ;;;
  if ok then ret tt else raise OSError.

Definition os_remove (file_path : string) : M W unit :=
  w <- get_world ;;
  let '(w', ok) := remove w file_path in
  record_call w' (CallRemove file_path ok) ;;;
  if ok then ret tt else raise OSError.

(** ** ensure_parent_dir *)

Definition ensure_parent_dir (path : string) : M W unit :=
  w <- get_world ;;
  let parent := parent_of w path in
  if str_truthy parent && negb (path_exists w parent)
  then os_makedirs parent
  else ret tt.

(** ** process_file *)

Definition process_file (file_path : string) (size_threshold : Z)
  : M W (option (string * Z)) :=
  try_except
    (r <- os_getsize file_path ;;
     match r with
     | None => raise OSError
     | Some file_size =>
         if size_threshold <? file_size
         then ret (Some (file_path, file_size))
         else ret None
     end)
    (fun e =>
       match e with
       | OSError => logging (ErrorAccessingFile file_path) ;;; ret None
       | _ => raise e
       end).

(** ** find_large_files: enumeration (lines 77-88) *)

Fixpoint scan_files (include_types exclude_types : option (list string))
    (root : string) (files : list string) : list string :=
  match files with
  | [] => []
  | name :: rest =>
      let ext := lower (splitext_ext name) in
      if passes_filters include_types exclude_types ext
      then path_join root name :: scan_files include_types exclude_types root rest
      else scan_files include_types exclude_types root rest
  end.

Fixpoint scan_walk (include_types exclude_types : option (list string))
    (entries : list (string * list string)) : list string :=
  match entries with
  | [] => []
  | (root, files) :: rest =>
      (scan_files include_types exclude_types root files
       ++ scan_walk include_types exclude_types rest)%list
  end.

Fixpoint scan_directories (include_types exclude_types : option (list string))
    (directories : list string) : M W (list string) :=
  match directories with
  | [] => ret []
  | directory :: rest =>
      w <- get_world ;;
      if negb (isdir w directory)
      then logging (WarnSkippingPath directory) ;;;
           scan_directories include_types exclude_types rest
      else
        let found := scan_walk include_types exclude_types (walk w directory) in
        more <- scan_directories include_types exclude_types rest ;;
        ret (found ++ more)%list
  end.

(** ** find_large_files: the thread pool (lines 95-104) *)

(** [ThreadPoolExecutor(max_workers=workers)]: the default size,
    [min(32, (os.cpu_count() or 1) + 4)], and the refusal of a size that is
    not positive ([ValueError]). *)
Definition default_max_workers (w : W) : nat :=
  Nat.min 32 ((match cpu_count w with Some (S n) => S n | _ => 1%nat end) + 4).

Definition executor_init (workers : option Z) : M W nat :=
  match workers with
  | None => w <- get_world ;; ret (default_max_workers w)
  | Some n => if n <=? 0 then raise ValueError else ret (Z.to_nat n)
  end.

Fixpoint remove_nth {A} (k : nat) (l : list A) : list A :=
  match l, k with
  | [], _ => []
  | _ :: r, O => r
  | x :: r, S k' => x :: remove_nth k' r
  end.

(** The pool at work. [pending] holds the submitted probes that have not
    completed, in submission order, each with its index. Workers take
    probes in that order, so the probes in flight are the first
    [max_workers] of [pending]; the head of [sched] picks which of them
    completes next (the first one when [sched] has run out). A probe takes
    effect when it completes. The result is the list of completed probes
    with their results, in completion order. With [steps] the number of
    pending probes and a pool of at least one worker the choice [k] is
    always an index of [pending] and every probe completes
    ([pool_run_spec]). *)
Fixpoint pool_run (max_workers : nat) (size_threshold : Z) (steps : nat)
    (pending : list (nat * string)) (sched : list nat)
  : M W (list (nat * option (string * Z))) :=
  match steps with
  | O => ret []
  | S steps' =>
      let k := (hd 0%nat sched mod Nat.min max_workers (length pending))%nat in
      match nth_error pending k with
      | None => ret []
      | Some (i, fp) =>
          r <- process_file fp size_threshold ;;
          rest <- pool_run max_workers size_threshold steps'
                    (remove_nth k pending) (tl sched) ;;
          ret ((i, r) :: rest)
      end
  end.

Fixpoint future_result {A} (i : nat) (done : list (nat * A)) : option A :=
  match done with
  | [] => None
  | (j, r) :: rest => if Nat.eqb i j then Some r else future_result i rest
  end.

(** The consumer of [executor.map]: the results of the futures in
    submission order; a future that never completes blocks it. *)
Fixpoint await_results {A} (done : list (nat * A)) (indices : list nat)
  : M W (list A) :=
  match indices with
  | [] => ret []
  | i :: rest =>
      match future_result i done with
      | None => blocked
      | Some r => rs <- await_results done rest ;; ret (r :: rs)
      end
  end.

Definition enumerate {A} (l : list A) : list (nat * A) :=
  combine (seq 0 (length l)) l.

(** [executor.map(lambda fp: process_file(fp, size_threshold), file_paths)]
    consumed to the end. *)
Definition executor_map (max_workers : nat) (size_threshold : Z)
    (file_paths : list string) (sched : list nat)
  : M W (list (option (string * Z))) :=
  done <- pool_run max_workers size_threshold (length file_paths)
            (enumerate file_paths) sched ;;
  await_results done (seq 0 (length file_paths)).

(** [if result: large_files.append(result)]: a pair is true, [None] is not. *)
Fixpoint collect_results (results : list (option (string * Z))) : list (string * Z) :=
  match results with
  | [] => []
  | Some r :: rest => r :: collect_results rest
  | None :: rest => collect_results rest
  end.

(** ** find_large_files: the sort (line 106) *)

(** [list.sort(key=lambda x: x[1], reverse=True)]. Python's sort is stable,
    also with [reverse=True]: entries with equal keys keep their order. An
    entry is put in front of the first entry whose size is not larger. *)
Fixpoint insert_desc (x : string * Z) (l : list (string * Z)) : list (string * Z) :=
  match l with
  | [] => [x]
  | y :: r => if snd x <? snd y then y :: insert_desc x r else x :: l
  end.

Fixpoint sort_by_size_desc (l : list (string * Z)) : list (string * Z) :=
  match l with
  | [] => []
  | x :: r => insert_desc x (sort_by_size_desc r)
  end.

(** ** find_large_files *)

Definition find_large_files (directories : list string) (size_threshold : Z)
    (include_types exclude_types : option (list string)) (workers : option Z)
    (sched : list nat) : M W (list (string * Z)) :=
  let include_types := normalize_ext_list include_types in
  let exclude_types := normalize_ext_list exclude_types in
  file_paths <- scan_directories include_types exclude_types directories ;;
  let total_files := Z.of_nat (length file_paths) in
  logging (InfoTotalCandidates total_files) ;;;
  if total_files =? 0 then ret []
  else
    max_workers <- executor_init workers ;;
    results <- executor_map max_workers size_threshold file_paths sched ;;
    ret (sort_by_size_desc (collect_results results)).

End Scan.

(** ** Numbers as text *)

Definition digit_char (d : Z) : ascii := chr (48 + d).

Fixpoint digits_loop (fuel : nat) (n : Z) (acc : string) : string :=
  match fuel with
  | O => acc
  | S fuel' =>
      let acc' := String (digit_char (n mod 10)) acc in
      if n <? 10 then acc' else digits_loop fuel' (n / 10) acc'
  end.

(** Decimal digits of [n >= 0]. *)
Definition digits (n : Z) : string :=
  digits_loop (S (Z.to_nat (Z.log2 n))) n EmptyString.

(** [str(n)] for an [int]. *)
Definition str_of_int (n : Z) : string :=
  if n <? 0 then "-" ++ digits (- n) else digits n.

(** The nearest integer to [a / b] for [b > 0], ties to even. *)
Definition round_half_even (a b : Z) : Z :=
  let q := a / b in
  let r := a mod b in
  if 2 * r <? b then q
  else if b <? 2 * r then q + 1
  else if Z.even q then q else q + 1.

(** [f"{x:.2f}"] for the float [x = num / den]. *)
Definition format_2f (num den : Z) : string :=
  let h := round_half_even (num * 100) den in
  let a := Z.abs h in
  (if h <? 0 then "-" else "")
  ++ digits (a / 100) ++ "."
  ++ String (digit_char (a / 10 mod 10)) (String (digit_char (a mod 10)) EmptyString).

(** ** format_size *)

Definition units : list string := ["B"; "KB"; "MB"; "GB"; "TB"].

(** [float(num_bytes)] for an [int]: the nearest double, ties to even, as
    the integer it is equal to. An [int] of at most 53 bits is kept as it
    is; of a longer one the 53 leading bits are kept, rounded by the bits
    that are dropped. *)
Definition float_of_int (n : Z) : Z :=
  let a := Z.abs n in
  let e := Z.log2 a - 52 in
  if e <=? 0 then n
  else Z.sgn n * (round_half_even a (2 ^ e) * 2 ^ e).

(** Where [float(num_bytes)] raises [OverflowError] instead: the nearest
    double would be [2^1024]. No size of a file and no sum of such sizes is
    that large; [format_size] below is the code for the other counts. *)
Definition float_overflows (n : Z) : bool :=
  2 ^ 1024 - 2 ^ 970 <=? Z.abs n.

(** The loop of [format_size]. The float [size] is the fraction
    [num / den], [den] a power of 1024: a division of a double by 1024 is
    exact, and so is the text [format_2f] gives for the fraction. *)
Fixpoint format_size_loop (num den : Z) (us : list string) : string :=
  match us with
  | [] => EmptyString
  | unit :: rest =>
      if (num <? 1024 * den) || String.eqb unit (last units EmptyString)
      then format_2f num den ++ " " ++ unit
      else format_size_loop num (den * 1024) rest
  end.

Definition format_size (num_bytes : Z) : string :=
  let size := float_of_int num_bytes in
  format_size_loop size 1 units.

(** ** Renderings *)

Definition dquote : string := String (chr 34) EmptyString.

Definition cr : string := String (chr 13) EmptyString.

Definition backslash : string := String (chr 92) EmptyString.

Fixpoint join (sep : string) (l : list string) : string :=
  match l with
  | [] => EmptyString
  | [x] => x
  | x :: r => x ++ sep ++ join sep r
  end.

Definition hex_digit (d : Z) : ascii :=
  if d <? 10 then chr (48 + d) else chr (87 + d).

(** [\uXXXX] for a code point below 256. *)
Definition json_u_escape (n : Z) : string :=
  backslash ++ "u00" ++ String (hex_digit (n / 16)) (String (hex_digit (n mod 16)) EmptyString).

(** The escapes both JSON encoders share ([json.encoder.ESCAPE_DCT]): the
    quote, the backslash and the control characters. *)
Definition json_escape_control (c : ascii) : string :=
  let n := code c in
  if n =? 34 then backslash ++ dquote
  else if n =? 92 then backslash ++ backslash
  else if n =? 8 then backslash ++ "b"
  else if n =? 12 then backslash ++ "f"
  else if n =? 10 then backslash ++ "n"
  else if n =? 13 then backslash ++ "r"
  else if n =? 9 then backslash ++ "t"
  else json_u_escape n.

(** [ensure_ascii=True]: everything outside space..tilde is escaped. *)
Definition json_char_ascii (c : ascii) : string :=
  let n := code c in
  if (n =? 34) || (n =? 92) || (n <? 32) || (126 <? n)
  then json_escape_control c
  else String c EmptyString.

(** [ensure_ascii=False]: only quote, backslash and controls are escaped. *)
Definition json_char_raw (c : ascii) : string :=
  let n := code c in
  if (n =? 34) || (n =? 92) || (n <? 32)
  then json_escape_control c
  else String c EmptyString.

Fixpoint concat_map (f : ascii -> string) (s : string) : string :=
  match s with
  | EmptyString => EmptyString
  | String c r => f c ++ concat_map f r
  end.

Definition json_str (ensure_ascii : bool) (s : string) : string :=
  dquote ++ concat_map (if ensure_ascii then json_char_ascii else json_char_raw) s ++ dquote.

(** One [{"file_path": ..., "size_bytes": ..., "size_human": ...}] at
    nesting depth one of [indent=2]. *)
Definition json_record (ensure_ascii : bool) (r : string * Z) : string :=
  let '(fp, fs) := r in
  "{" ++ newline
  ++ "    " ++ json_str ensure_ascii "file_path" ++ ": " ++ json_str ensure_ascii fp
  ++ "," ++ newline
  ++ "    " ++ json_str ensure_ascii "size_bytes" ++ ": " ++ str_of_int fs
  ++ "," ++ newline
  ++ "    " ++ json_str ensure_ascii "size_human" ++ ": "
  ++ json_str ensure_ascii (format_size fs) ++ newline
  ++ "  }".

(** [json.dumps(output_data, indent=2, ensure_ascii=...)] of the record list. *)
Definition json_dumps (ensure_ascii : bool) (used_files : list (string * Z)) : string :=
  match used_files with
  | [] => "[]"
  | _ => "[" ++ newline ++ "  "
         ++ join ("," ++ newline ++ "  ") (map (json_record ensure_ascii) used_files)
         ++ newline ++ "]"
  end.

(** The line [print(f"{fp},{fs},{format_size(fs)}")] prints, without its
    newline. *)
Definition csv_display_row (r : string * Z) : string :=
  let '(fp, fs) := r in fp ++ "," ++ str_of_int fs ++ "," ++ format_size fs.

Definition csv_header : string := "file_path,size_bytes,size_human".

Definition csv_special (c : ascii) : bool :=
  let n := code c in (n =? 44) || (n =? 34) || (n =? 13) || (n =? 10).

Fixpoint csv_needs_quotes (s : string) : bool :=
  match s with
  | EmptyString => false
  | String c r => csv_special c || csv_needs_quotes r
  end.

Definition csv_double_quote (c : ascii) : string :=
  if code c =? 34 then dquote ++ dquote else String c EmptyString.

(** One field as [csv.writer] writes it (excel dialect, [QUOTE_MINIMAL]): a
    field with a comma, a quote, a CR or an LF is put in quotes, its quotes
    doubled. *)
Definition csv_field (s : string) : string :=
  if csv_needs_quotes s
  then dquote ++ concat_map csv_double_quote s ++ dquote
  else s.

(** [writer.writerow(fields)]: the fields joined by commas, then CR LF. *)
Definition csv_writerow (fields : list string) : string :=
  join "," (map csv_field fields) ++ cr ++ newline.

Fixpoint concat_strings (l : list string) : string :=
  match l with
  | [] => EmptyString
  | x :: r => x ++ concat_strings r
  end.

(** What lines 159-163 write to the file. *)
Definition csv_file_text (used_files : list (string * Z)) : string :=
  csv_writerow ["file_path"; "size_bytes"; "size_human"]
  ++ concat_strings
       (map (fun r : string * Z =>
               let '(fp, fs) := r in csv_writerow [fp; str_of_int fs; format_size fs])
            used_files).

(** [[(fp, format_size(fs)) for fp, fs in used_files]] *)
Definition table_data (used_files : list (string * Z)) : list (string * string) :=
  map (fun r : string * Z => let '(fp, fs) := r in (fp, format_size fs)) used_files.

Definition table_headers : list string := ["File Path"; "Size"].

(** ** display_large_files *)

(** [l[:n]]: a negative [n] counts from the end. *)
Definition slice_to {A} (l : list A) (n : Z) : list A :=
  if n <? 0
  then firstn (Z.to_nat (Z.of_nat (length l) + n)) l
  else firstn (Z.to_nat n) l.

(** Truth value of [None]-or-int: [None] and [0] are false. *)
Definition opt_int_truthy (o : option Z) : bool :=
  match o with Some n => negb (n =? 0) | None => false end.

(** Truth value of [None]-or-str. *)
Definition opt_str_truthy (o : option string) : bool :=
  match o with Some s => str_truthy s | None => false end.

(** Line 119: [large_files[:limit] if limit else list(large_files)] *)
Definition apply_limit {A} (large_files : list A) (limit : option Z) : list A :=
  if opt_int_truthy limit
  then match limit with Some n => slice_to large_files n | None => large_files end
  else large_files.

(** [output_format == lit] *)
Definition format_is (output_format : option string) (lit : string) : bool :=
  match output_format with Some f => String.eqb f lit | None => false end.

Fixpoint sum_sizes (used_files : list (string * Z)) : Z :=
  match used_files with
  | [] => 0
  | (_, sz) :: rest => sz + sum_sizes rest
  end.

(** The format the report is saved in: [(output_format or "table").lower()]. *)
Definition saved_format (output_format : option string) : string :=
  lower (match output_format with
         | Some f => if str_truthy f then f else "table"
         | None => "table"
         end).

Section Report.
Context {W : Type} {os : OS W}.

(** [tabulate(table_data, headers=..., tablefmt="grid")] of the tabulate
    package, which is not part of the program. *)
Variable tabulate : list (string * string) -> list string -> string.

Fixpoint print_rows (used_files : list (string * Z)) : M W unit :=
  match used_files with
  | [] => ret tt
  | r :: rest => print (csv_display_row r) ;;; print_rows rest
  end.

(** Lines 121-135: the rendering on standard output. *)
Definition render_stdout (output_format : option string)
    (used_files : list (string * Z)) : M W unit :=
  if format_is output_format "json" then
    print (json_dumps true used_files)
  else if format_is output_format "csv" then
    print csv_header ;;;
    print_rows used_files
  else
    print (newline ++ "Large files found:") ;;;
    print (tabulate (table_data used_files) table_headers).

(** Lines 141-167: the text written to the output file, by [fmt]. *)
Definition file_text (fmt : string) (used_files : list (string * Z)) : string :=
  if String.eqb fmt "json" then json_dumps false used_files
  else if String.eqb fmt "csv" then csv_file_text used_files
  else tabulate (table_data used_files) table_headers.

(** Lines 137-170. [ensure_parent_dir] is called before the [try]. *)
Definition save_results (output_file : string) (output_format : option string)
    (used_files : list (string * Z)) : M W unit :=
  ensure_parent_dir output_file ;;;
  let fmt := saved_format output_format in
  try_except
    (os_write output_file (file_text fmt used_files) ;;;
     logging (InfoResultsSaved output_file))
    (fun e =>
       match e with
       | OSError => logging (ErrorSaveFailed output_file)
       | _ => raise e
       end).

Definition display_large_files (large_files : list (string * Z))
    (output_file : option string) (limit : option Z) (output_format : option string)
  : M W (list (string * Z)) :=
  if negb (list_truthy large_files) then
    logging InfoNoFilesFound ;;;
    ret []
  else
    let used_files := apply_limit large_files limit in
    render_stdout output_format used_files ;;;
    (if opt_str_truthy output_file
     then match output_file with
          | Some f => save_results f output_format used_files
          | None => ret tt
          end
     else ret tt) ;;;
    logging (InfoSummary (Z.of_nat (length used_files)) (sum_sizes used_files)) ;;;
    ret used_files.

(** ** The deletion loop of main (lines 355-363) *)

Fixpoint delete_loop (used_files : list (string * Z)) (deleted failed : Z)
  : M W (Z * Z) :=
  match used_files with
  | [] => ret (deleted, failed)
  | (file_path, _) :: rest =>
      counts <- try_except
                  (os_remove file_path ;;;
                   ret (deleted + 1, failed))
                  (fun e =>
                     match e with
                     | OSError =>
                         logging (ErrorDeleteFailed file_path) ;;;
                         ret (deleted, failed + 1)
                     | _ => raise e
                     end) ;;
      delete_loop rest (fst counts) (snd counts)
  end.

Definition delete_files (used_files : list (string * Z)) : M W unit :=
  counts <- delete_loop used_files 0 0 ;;
  logging (InfoDeletionComplete (fst counts) (snd counts)).

(** ** The try block of main (lines 334-365) *)

Record arguments := mkArgs {
  arg_include : option (list string);
  arg_exclude : option (list string);
  arg_workers : option Z;
  arg_output : option string;
  arg_limit : option Z;
  arg_format : option string;
  arg_delete : bool;
  arg_yes : bool
}.

Definition main_try (directories_to_scan : list string) (size_threshold : Z)
    (args : arguments) (sched : list nat) : M W unit :=
  try_except
    (large_files <- find_large_files directories_to_scan size_threshold
                      (arg_include args) (arg_exclude args) (arg_workers args) sched ;;
     used_files <- display_large_files large_files (arg_output args)
                     (arg_limit args) (arg_format args) ;;
     if arg_delete args && list_truthy used_files then
       if negb (arg_yes args) then
         let total_bytes := sum_sizes used_files in
         print (newline ++ "About to delete "
                ++ str_of_int (Z.of_nat (length used_files))
                ++ " files totaling " ++ format_size total_bytes ++ ".") ;;;
         answer <- input "Proceed? (y/N): " ;;
         let confirm := lower (strip answer) in
         if negb (str_in confirm ["y"; "yes"])
         then logging InfoDeletionCancelled
         else delete_files used_files
       else delete_files used_files
     else ret tt)
    (fun e => logging (ExceptionUnexpected e)).

End Report.

(** Lines 345-363 of [main], the part of the [try] block after the report:
    the same steps as in [main_try], named to state what they do. *)
Definition deletion_phase {W : Type} {os : OS W} (args : arguments)
    (used_files : list (string * Z)) : M W unit :=
  if arg_delete args && list_truthy used_files then
    if negb (arg_yes args) then
      let total_bytes := sum_sizes used_files in
      print (newline ++ "About to delete "
             ++ str_of_int (Z.of_nat (length used_files))
             ++ " files totaling " ++ format_size total_bytes ++ ".") ;;;
      answer <- input "Proceed? (y/N): " ;;
      let confirm := lower (strip answer) in
      if negb (str_in confirm ["y"; "yes"])
      then logging InfoDeletionCancelled
      else delete_files used_files
    else delete_files used_files
  else ret tt.

(** The answer to the prompt is a go: [y] or [yes], in any case, blanks
    around it aside. *)
Definition is_go (answer : string) : bool :=
  str_in (lower (strip answer)) ["y"; "yes"].

(** ** main before the try block (lines 254-332)

    What [argparse] and [configparser] hand over is the input here: the
    namespace [args], the [delete] entry of the configuration file and the
    length of [sys.argv]. *)

(** [s.split(sep)] for a one-character separator: there is always at
    least one piece. *)
Fixpoint split_on (sep : ascii) (s : string) : list string :=
  match s with
  | EmptyString => [EmptyString]
  | String c r =>
      if Ascii.eqb c sep then EmptyString :: split_on sep r
      else match split_on sep r with
           | [] => [String c EmptyString]
           | piece :: pieces => String c piece :: pieces
           end
  end.

(** [s.split()]: the words between runs of blanks; [word] is the word
    being read. *)
Fixpoint split_words (word : string) (s : string) : list string :=
  match s with
  | EmptyString => if str_truthy word then [word] else []
  | String c r =>
      if isspace c
      then if str_truthy word then word :: split_words EmptyString r
           else split_words EmptyString r
      else split_words (word ++ String c EmptyString) r
  end.

Definition split_ws (s : string) : list string := split_words EmptyString s.

(** The value of [args.include] and [args.exclude]: [None], a string (from
    the configuration file) or a list (from the command line). *)
Inductive ext_arg :=
| ExtNone
| ExtString (s : string)
| ExtList (l : list string).

Record namespace := mkNamespace {
  ns_directory : string;
  ns_size_threshold : Z;
  ns_output : option string;
  ns_exclude : ext_arg;
  ns_limit : option Z;
  ns_include : ext_arg;
  ns_delete : bool;
  ns_yes : bool;
  ns_format : option string;
  ns_workers : option Z;
  ns_mode : option string;
  ns_all_types : bool;
  ns_no_exclude : bool
}.

(** Lines 255-258: a string is split at the commas and each piece
    stripped; a list and [None] stay as they are. *)
Definition ext_list (a : ext_arg) : option (list string) :=
  match a with
  | ExtNone => None
  | ExtString s => Some (map strip (split_on "," s))
  | ExtList l => Some l
  end.

(** [args] from line 263 on, when [include] and [exclude] are lists. *)
Record settings := mkSettings {
  set_directory : string;
  set_size_threshold : Z;
  set_output : option string;
  set_exclude : option (list string);
  set_limit : option Z;
  set_include : option (list string);
  set_delete : bool;
  set_yes : bool;
  set_format : option string;
  set_workers : option Z;
  set_mode : option string;
  set_all_types : bool;
  set_no_exclude : bool
}.

Section Setup.
Context {W : Type} {os : OS W}.

(** [os.getcwd()] *)
Variable getcwd : W -> string.

(** [os.path.abspath] *)
Variable abspath : W -> string -> string.

(** [int(text)] of a [str]; [None] where it raises [ValueError]. *)
Variable int_of_str : string -> option Z.

(** [int(text)] *)
Definition to_int (text : string) : M W Z :=
  match int_of_str text with
  | Some n => ret n
  | None => raise ValueError
  end.

(** [input(prompt) or os.getcwd()] *)
Definition ask_directory : M W string :=
  answer <- input "Directories (comma-separated) [default: current directory]: " ;;
  w <- get_world ;;
  ret (if str_truthy answer then answer else getcwd w).

(** [int(input(prompt) or 100)] *)
Definition ask_size_threshold : M W Z :=
  answer <- input "Minimum size in MB [default: 100]: " ;;
  if str_truthy answer then to_int answer else ret 100.

(** [lim = input(prompt).strip()] and [int(lim) if lim else None] *)
Definition ask_limit : M W (option Z) :=
  answer <- input "Limit results (optional): " ;;
  let lim := strip answer in
  if str_truthy lim then n <- to_int lim ;; ret (Some n) else ret None.

(** [text.split() if text else None] *)
Definition words_or_none (text : string) : option (list string) :=
  if str_truthy text then Some (split_ws text) else None.

(** Lines 266-278: the mode, asked for when [args.mode] is not set. *)
Definition choose_mode (args : settings) : M W string :=
  if negb (opt_str_truthy (set_mode args)) then
    answer <- input "Choose mode: [Q]uick, [A]dvanced, or [C]onfig? [Q]: " ;;
    let choice := lower (strip answer) in
    if str_in choice ["a"; "advanced"] then ret "advanced"
    else if str_in choice ["c"; "config"] then ret "config"
    else ret "quick"
  else
    ret (match set_mode args with Some m => m | None => EmptyString end).

(** Lines 282-293 *)
Definition quick_mode (args : settings) : M W settings :=
  print "Quick mode: minimal prompts." ;;;
  directory <- ask_directory ;;
  size_threshold <- ask_size_threshold ;;
  limit <- ask_limit ;;
  ret (mkSettings directory size_threshold (set_output args) (set_exclude args)
         limit (set_include args) (set_delete args) (set_yes args)
         (set_format args) (set_workers args) (set_mode args)
         (set_all_types args) (set_no_exclude args)).

(** Lines 294-313 *)
Definition advanced_mode (args : settings) : M W settings :=
  print "Advanced mode: customize all options." ;;;
  directory <- ask_directory ;;
  size_threshold <- ask_size_threshold ;;
  output_input <- input "Output file (optional): " ;;
  let output := if str_truthy output_input then Some output_input else None in
  exclude_input <- input "Exclude types (e.g., .txt .log) (optional): " ;;
  let exclude := words_or_none exclude_input in
  include_input <- input "Include types (e.g., .mp4 .pdf) (optional): " ;;
  let include := words_or_none include_input in
  limit <- ask_limit ;;
  delete_answer <- input "Delete listed files? (y/N): " ;;
  let delete := str_in (lower (strip delete_answer)) ["y"; "yes"] in
  format_answer <- input "Format: table/json/csv [table]: " ;;
  let fmt := lower (strip format_answer) in
  let format := if str_in fmt ["table"; "json"; "csv"] then fmt else "table" in
  ret (mkSettings directory size_threshold output exclude limit include delete
         (set_yes args) (Some format) (set_workers args) (set_mode args)
         (set_all_types args) (set_no_exclude args)).

(** Lines 265-313: the questions asked when the program is started
    without arguments. *)
Definition interactive (argc : nat) (args : settings) : M W settings :=
  if Nat.eqb argc 1 then
    mode <- choose_mode args ;;
    if String.eqb mode "config" then
      print "Using configuration file settings." ;;;
      ret args
    else if String.eqb mode "quick" then quick_mode args
    else advanced_mode args
  else ret args.

(** Lines 254-262: the lists of extensions, and the [delete] entry of the
    configuration file [config_delete], which counts when the flag is not
    given. *)
Definition parsed_settings (config_delete : bool) (args : namespace) : settings :=
  let exclude := ext_list (ns_exclude args) in
  let include := ext_list (ns_include args) in
  let delete := if negb (ns_delete args) then config_delete else ns_delete args in
  mkSettings (ns_directory args) (ns_size_threshold args)
    (ns_output args) exclude (ns_limit args) include delete
    (ns_yes args) (ns_format args) (ns_workers args) (ns_mode args)
    (ns_all_types args) (ns_no_exclude args).

(** Lines 315-322: the directories, the threshold in bytes and the
    filters after the override flags. *)
Definition scan_arguments (w : W) (args : settings)
  : list string * Z * arguments :=
  let directories_to_scan :=
    map (fun d => abspath w (strip d)) (split_on "," (set_directory args)) in
  let size_threshold := set_size_threshold args * 1024 * 1024 in
  let include := if set_all_types args then None else set_include args in
  let exclude := if set_no_exclude args then None else set_exclude args in
  (directories_to_scan, size_threshold,
   mkArgs include exclude (set_workers args) (set_output args)
     (set_limit args) (set_format args) (set_delete args) (set_yes args)).

(** Lines 254-322: from the parsed arguments to the arguments of the scan,
    the report and the deletion. [config_delete] is the [delete] entry of
    the configuration file, [argc] is [len(sys.argv)]. All of this runs
    before the [try] block: what is raised here leaves [main]. *)
Definition main_setup (argc : nat) (config_delete : bool) (args : namespace)
  : M W (list string * Z * arguments) :=
  args <- interactive argc (parsed_settings config_delete args) ;;
  w <- get_world ;;
  ret (scan_arguments w args).

(** [", ".join(exts) if exts else none] *)
Definition filter_text (exts : option (list string)) (none : string) : string :=
  if opt_list_truthy exts
  then match exts with Some l => join ", " l | None => none end
  else none.

(** Lines 254-332: all of [main] between the parsing of the arguments and
    the [try] block, that is the steps of [main_setup] and the two
    messages that are logged before the scan. *)
Definition main_before_try (argc : nat) (config_delete : bool) (args : namespace)
  : M W (list string * Z * arguments) :=
  args <- interactive argc (parsed_settings config_delete args) ;;
  w <- get_world ;;
  let '(directories_to_scan, size_threshold, scan_args) := scan_arguments w args in
  logging (InfoScanningDirectories directories_to_scan (set_size_threshold args)) ;;;
  logging (InfoFilters (filter_text (arg_include scan_args) "ALL")
             (filter_text (arg_exclude scan_args) "NONE")) ;;;
  ret (directories_to_scan, size_threshold, scan_args).

(** The mode an answer to the first question selects. *)
Definition chosen_mode (answer : string) : string :=
  let choice := lower (strip answer) in
  if str_in choice ["a"; "advanced"] then "advanced"
  else if str_in choice ["c"; "config"] then "config"
  else "quick".

(** The size an answer gives; [None] where [int] raises. *)
Definition answered_size (answer : string) : option Z :=
  if str_truthy answer then int_of_str answer else Some 100.

(** The limit an answer gives; [None] where [int] raises. *)
Definition answered_limit (answer : string) : option (option Z) :=
  if str_truthy (strip answer) then option_map Some (int_of_str (strip answer))
  else Some None.

(** The format an answer gives. *)
Definition answered_format (answer : string) : string :=
  let fmt := lower (strip answer) in
  if str_in fmt ["table"; "json"; "csv"] then fmt else "table".

End Setup.

(** [s'] is [s] after the answers before [rest] were read: only the
    console changed. *)
Definition answers_read {W} (s s' : state W) (rest : list string) : Prop :=
  world s' = world s /\ stdin s' = rest /\ log s' = log s /\ calls s' = calls s.

(** The characters of a filter string that name no extension. *)
Definition blank_or_comma (c : ascii) : bool := isspace c || Ascii.eqb c ",".

(** ** A grid renderer and an in-memory system, to run the program on
    concrete inputs *)

Fixpoint repeat_string (s : string) (n : nat) : string :=
  match n with
  | O => EmptyString
  | S n' => s ++ repeat_string s n'
  end.

Definition pad_right (s : string) (width : nat) : string :=
  s ++ repeat_string " " (width - String.length s).

Definition column_width (cells : list string) : nat :=
  fold_right Nat.max 0%nat (map String.length cells).

Definition grid_rule (fill : string) (w1 w2 : nat) : string :=
  "+" ++ repeat_string fill (w1 + 2) ++ "+" ++ repeat_string fill (w2 + 2) ++ "+".

Definition grid_row (w1 w2 : nat) (a b : string) : string :=
  "| " ++ pad_right a w1 ++ " | " ++ pad_right b w2 ++ " |".

(** A two-column grid in the layout of tabulate's [grid] format for
    left-aligned text cells. *)
Definition grid (rows : list (string * string)) (headers : list string) : string :=
  let h1 := nth 0 headers EmptyString in
  let h2 := nth 1 headers EmptyString in
  let w1 := column_width (h1 :: map fst rows) in
  let w2 := column_width (h2 :: map snd rows) in
  join newline
    (grid_rule "-" w1 w2 :: grid_row w1 w2 h1 h2 :: grid_rule "=" w1 w2
     :: flat_map (fun r : string * string =>
                    [grid_row w1 w2 (fst r) (snd r); grid_rule "-" w1 w2]) rows).

Fixpoint assoc {A} (k : string) (l : list (string * A)) : option A :=
  match l with
  | [] => None
  | (k', v) :: r => if String.eqb k k' then Some v else assoc k r
  end.

Fixpoint unassoc {A} (k : string) (l : list (string * A)) : list (string * A) :=
  match l with
  | [] => []
  | (k', v) :: r => if String.eqb k k' then unassoc k r else (k', v) :: unassoc k r
  end.

(** A small file system: the listing [os.walk] gives for each root, the
    size of each file, the directories that exist, the paths under which
    nothing can be created, and the text of the files written. *)
Record memfs := mkMemfs {
  mem_walk : list (string * list (string * list string));
  mem_sizes : list (string * Z);
  mem_dirs : list string;
  mem_readonly : list string;
  mem_texts : list (string * string)
}.

Definition memfs_parent (path : string) : string :=
  let i := rfind "/" path in
  if i <? 0 then "/cwd" else if i =? 0 then "/" else slice path 0 i.

#[export] Instance memfs_os : OS memfs := {
  isdir fs d := str_in d (mem_dirs fs);
  walk fs d := match assoc d (mem_walk fs) with Some l => l | None => [] end;
  getsize fs p := assoc p (mem_sizes fs);
  cpu_count fs := Some 4%nat;
  parent_of fs p := memfs_parent p;
  path_exists fs p :=
    str_in p (mem_dirs fs) || match assoc p (mem_sizes fs) with Some _ => true | None => false end;
  makedirs fs p :=
    if str_in p (mem_readonly fs) then (fs, false)
    else (mkMemfs (mem_walk fs) (mem_sizes fs) (p :: mem_dirs fs)
            (mem_readonly fs) (mem_texts fs), true);
  write_text fs p text :=
    if str_in (memfs_parent p) (mem_dirs fs) && negb (str_in p (mem_readonly fs))
    then (mkMemfs (mem_walk fs) (mem_sizes fs) (mem_dirs fs) (mem_readonly fs)
            ((p, text) :: unassoc p (mem_texts fs)), true)
    else (fs, false);
  remove fs p :=
    match assoc p (mem_sizes fs) with
    | Some _ =>
        if str_in p (mem_readonly fs) then (fs, false)
        else (mkMemfs (mem_walk fs) (unassoc p (mem_sizes fs)) (mem_dirs fs)
                (mem_readonly fs) (mem_texts fs), true)
    | None => (fs, false)
    end
}.

Definition initial (fs : memfs) (console_input : list string) : state memfs :=
  mkState fs EmptyString console_input [] [].

(** A directory [/d] with four files and a subdirectory with one; [/out]
    exists, nothing can be created at [/ro] and below, and the file
    [/out/locked.txt] cannot be written. *)
Definition demo_fs : memfs :=
  mkMemfs
    [("/d", [("/d", ["a.bin"; "b.txt"; "c.bin"; "e,f.bin"]); ("/d/sub", ["x.BIN"])])]
    [("/d/a.bin", 50); ("/d/b.txt", 200); ("/d/c.bin", 150);
     ("/d/sub/x.BIN", 150); ("/d/e,f.bin", 300)]
    ["/d"; "/d/sub"; "/out"]
    ["/ro"; "/ro/sub"; "/out/locked.txt"]
    [].

Definition demo_state : state memfs := initial demo_fs [].

Definition demo_files : list (string * Z) :=
  [("/d/e,f.bin", 300); ("/d/b.txt", 200); ("/d/c.bin", 150); ("/d/sub/x.BIN", 150)].

Definition demo_probes : list os_call :=
  [CallGetsize "/d/a.bin"; CallGetsize "/d/b.txt"; CallGetsize "/d/c.bin";
   CallGetsize "/d/e,f.bin"; CallGetsize "/d/sub/x.BIN"].

(** The state after the scan of [/d] with threshold 100 and the default pool. *)
Definition demo_scanned : state memfs :=
  Eval vm_compute in snd (find_large_files ["/d"] 100 None None None [] demo_state).

(** Stand-ins for [os.getcwd], [os.path.abspath] and [int] on the small
    file system: the working directory is [/cwd], a relative path is put
    under it, and a number is an optional sign and decimal digits, blanks
    around them aside. *)
Definition demo_getcwd (fs : memfs) : string := "/cwd".

Definition demo_abspath (fs : memfs) (p : string) : string :=
  if str_truthy p then path_join "/cwd" p else "/cwd".

Fixpoint demo_digits (acc : Z) (s : string) : option Z :=
  match s with
  | EmptyString => Some acc
  | String c r =>
      let d := code c - 48 in
      if (0 <=? d) && (d <=? 9) then demo_digits (acc * 10 + d) r else None
  end.

Definition demo_int (text : string) : option Z :=
  match strip text with
  | EmptyString => None
  | String "-" (String c r) => option_map Z.opp (demo_digits 0 (String c r))
  | String "+" (String c r) => demo_digits 0 (String c r)
  | String "-" EmptyString => None
  | String "+" EmptyString => None
  | digits => demo_digits 0 digits
  end.

(** The namespace when the configuration file sets nothing and no
    argument is given. *)
Definition demo_namespace : namespace :=
  mkNamespace "/cwd" 100 None ExtNone None ExtNone false false (Some "table")
    None None false false.

(** Delete what was found without asking, saving the report at [output]. *)
Definition demo_args (output : option string) (format : string) : arguments :=
  mkArgs None None None output None (Some format) true true.

(** ** What the scan computes, without the bookkeeping

    The functions below read the result of the enumeration and of one
    probe off the world; [scan_directories_spec] and [process_file_spec]
    show that the program computes exactly these. *)

Section Views.
Context {W : Type} {os : OS W}.

Fixpoint candidate_paths (w : W) (include_types exclude_types : option (list string))
    (directories : list string) : list string :=
  match directories with
  | [] => []
  | directory :: rest =>
      if isdir w directory
      then (scan_walk include_types exclude_types (walk w directory)
            ++ candidate_paths w include_types exclude_types rest)%list
      else candidate_paths w include_types exclude_types rest
  end.

Definition probe (w : W) (size_threshold : Z) (file_path : string)
  : option (string * Z) :=
  match getsize w file_path with
  | Some file_size =>
      if size_threshold <? file_size then Some (file_path, file_size) else None
  | None => None
  end.

Definition qualifying (w : W) (size_threshold : Z) (file_paths : list string)
  : list (string * Z) :=
  collect_results (map (probe w size_threshold) file_paths).

Definition has_size (w : W) (sz : Z) (file_path : string) : bool :=
  match getsize w file_path with
  | Some file_size => file_size =? sz
  | None => false
  end.

(** One submitted probe, completed. *)
Definition probed (w : W) (size_threshold : Z) (task : nat * string)
  : nat * option (string * Z) :=
  (fst task, probe w size_threshold (snd task)).

(** [os.remove] applied to [paths] one after the other, from the world
    [w]: the world that is left, and whether each removal succeeded. *)
Fixpoint remove_each (w : W) (paths : list string) : W * list bool :=
  match paths with
  | [] => (w, [])
  | file_path :: rest =>
      let '(w', ok) := remove w file_path in
      let '(w'', oks) := remove_each w' rest in
      (w'', ok :: oks)
  end.

End Views.

(** The text [render_stdout] adds to standard output. *)
Definition stdout_text (tabulate : list (string * string) -> list string -> string)
    (output_format : option string) (used_files : list (string * Z)) : string :=
  if format_is output_format "json" then
    json_dumps true used_files ++ newline
  else if format_is output_format "csv" then
    csv_header ++ newline
    ++ concat_strings (map (fun r => csv_display_row r ++ newline) used_files)
  else
    newline ++ "Large files found:" ++ newline
    ++ tabulate (table_data used_files) table_headers ++ newline.

(** [s] with [text] added to standard output. *)
Definition printed {W} (s : state W) (text : string) : state W :=
  mkState (world s) (stdout s ++ text) (stdin s) (log s) (calls s).

(** [s] with [records] added to the log. *)
Definition logged {W} (s : state W) (records : list log_record) : state W :=
  mkState (world s) (stdout s) (stdin s) (log s ++ records) (calls s).

(** The removals attempted on [paths] with outcomes [oks], as system calls. *)
Definition removals (paths : list string) (oks : list bool) : list os_call :=
  map (fun po : string * bool => CallRemove (fst po) (snd po)) (combine paths oks).

(** The log records of the removals that failed. *)
Definition removal_errors (paths : list string) (oks : list bool) : list log_record :=
  map (fun po : string * bool => ErrorDeleteFailed (fst po))
    (filter (fun po : string * bool => negb (snd po)) (combine paths oks)).

Definition count (b : bool) (oks : list bool) : Z :=
  Z.of_nat (count_occ Bool.bool_dec oks b).

(** A pool size [ThreadPoolExecutor] accepts: none given, or a positive one. *)
Definition valid_workers (workers : option Z) : Prop :=
  match workers with None => True | Some n => 0 < n end.

(** The states [s] and [s'] differ at most in the log. *)
Definition only_logged {W} (s s' : state W) (records : list log_record) : Prop :=
  world s' = world s /\ stdout s' = stdout s /\ stdin s' = stdin s
  /\ calls s' = calls s /\ log s' = (log s ++ records)%list.

(** The states [s] and [s'] differ at most in the log and in the probes made. *)
Definition only_probed {W} (s s' : state W) (probes : list string) : Prop :=
  world s' = world s /\ stdout s' = stdout s /\ stdin s' = stdin s
  /\ calls s' = (calls s ++ map CallGetsize probes)%list.

Fixpoint all_chars (f : ascii -> bool) (s : string) : bool :=
  match s with
  | EmptyString => true
  | String c r => f c && all_chars f r
  end.

(** Characters that are the same in every rendering: printable ASCII
    without the quote, the comma and the backslash. *)
Definition plain_char (c : ascii) : bool :=
  let n := code c in
  (32 <=? n) && (n <=? 126) && negb (n =? 34) && negb (n =? 44) && negb (n =? 92).

(** Characters the two JSON encoders write alike: those up to the tilde. *)
Definition upto_tilde (c : ascii) : bool := code c <=? 126.

(** The lines of the CSV rendering, without their terminators. *)
Definition csv_lines (used_files : list (string * Z)) : list string :=
  csv_header :: map csv_display_row used_files.

(** The order the sort establishes: a later entry is not larger. *)
Definition size_desc (a b : string * Z) : Prop := snd b <= snd a.

(** Entries of the size [sz]. *)
Definition size_is (sz : Z) (r : string * Z) : bool := snd r =? sz.


(** A string [strip] and [lower] leave as it is. *)
Definition is_normal (e : string) : Prop :=
  lstrip e = e /\ rstrip e = e /\ lower e = e.

(** * Properties *)

(** ** The sort *)

Lemma insert_desc_perm (x : string * Z) (l : list (string * Z)) :
  Permutation (insert_desc x l) (x :: l).
Proof.
  induction l as [|y r IH]; simpl.
  - apply Permutation_refl.
  - destruct (snd x <? snd y).
    + apply perm_trans with (y :: x :: r).
      * now apply perm_skip.
      * apply perm_swap.
    + apply Permutation_refl.
Qed.

Lemma sort_by_size_desc_perm (l : list (string * Z)) :
  Permutation (sort_by_size_desc l) l.
Proof.
  induction l as [|x r IH]; simpl.
  - constructor.
  - eapply perm_trans; [apply insert_desc_perm|]. now apply perm_skip.
Qed.

Lemma insert_desc_sorted (x : string * Z) (l : list (string * Z)) :
  StronglySorted size_desc l -> StronglySorted size_desc (insert_desc x l).
Proof.
  induction l as [|y r IH]; intros Hs; simpl.
  - repeat constructor.
  - inversion Hs as [|? ? Hr Hy]; subst.
    destruct (snd x <? snd y) eqn:E.
    + apply Z.ltb_lt in E. constructor; [now apply IH|].
      eapply Permutation_Forall; [apply Permutation_sym, insert_desc_perm|].
      constructor; [unfold size_desc; lia | assumption].
    + apply Z.ltb_ge in E. constructor; [assumption|].
      constructor; [exact E|].
      eapply Forall_impl; [|exact Hy].
      intros z Hz. unfold size_desc in *. lia.
Qed.

Lemma sort_by_size_desc_sorted (l : list (string * Z)) :
  StronglySorted size_desc (sort_by_size_desc l).
Proof.
  induction l as [|x r IH]; simpl.
  - constructor.
  - now apply insert_desc_sorted.
Qed.

Lemma insert_desc_filter (sz : Z) (x : string * Z) (l : list (string * Z)) :
  filter (size_is sz) (insert_desc x l) = filter (size_is sz) (x :: l).
Proof.
  induction l as [|y r IH]; [reflexivity|].
  simpl insert_desc. destruct (snd x <? snd y) eqn:E; [|reflexivity].
  apply Z.ltb_lt in E. simpl in *. rewrite IH.
  unfold size_is.
  destruct (snd x =? sz) eqn:Ex; destruct (snd y =? sz) eqn:Ey; try reflexivity.
  apply Z.eqb_eq in Ex, Ey. lia.
Qed.

Lemma sort_by_size_desc_stable (sz : Z) (l : list (string * Z)) :
  filter (size_is sz) (sort_by_size_desc l) = filter (size_is sz) l.
Proof.
  induction l as [|x r IH]; [reflexivity|].
  simpl sort_by_size_desc. rewrite insert_desc_filter. simpl. now rewrite IH.
Qed.

Lemma strongly_sorted_nth (l : list (string * Z)) (d : string * Z) :
  StronglySorted size_desc l ->
  forall i j, (i < j < length l)%nat -> snd (nth j l d) <= snd (nth i l d).
Proof.
  induction 1 as [|x r Hs IH Hx]; intros i j Hij; simpl in Hij; [lia|].
  destruct j as [|j]; [lia|]. destruct i as [|i]; simpl.
  - rewrite Forall_forall in Hx. apply (Hx (nth j r d)). apply nth_In. lia.
  - apply IH. lia.
Qed.

(** ** The scan *)

Ltac run := unfold bind, ret, raise, get_world, logging, record_call, try_except; simpl.

Section ScanFacts.
Context {W : Type} {os : OS W}.

Lemma only_logged_refl (s : state W) : only_logged s s [].
Proof. unfold only_logged. rewrite app_nil_r. auto. Qed.

Lemma only_probed_refl (s : state W) : only_probed s s [].
Proof. unfold only_probed. simpl. rewrite app_nil_r. auto. Qed.

Lemma scan_directories_spec (inc exc : option (list string))
    (directories : list string) (s : state W) :
  exists s',
    scan_directories inc exc directories s
    = (Returned (candidate_paths (world s) inc exc directories), s')
    /\ only_logged s s'
         (map WarnSkippingPath
            (filter (fun d => negb (isdir (world s) d)) directories)).
Proof.
  revert s. induction directories as [|d rest IH]; intros s; simpl.
  - exists s. split; [reflexivity | apply only_logged_refl].
  - run. destruct (isdir (world s) d) eqn:E; simpl.
    + destruct (IH s) as (s' & Hrun & Hframe). rewrite Hrun.
      exists s'. split; [reflexivity | assumption].
    + set (s1 := mkState (world s) (stdout s) (stdin s)
                   (log s ++ [WarnSkippingPath d]) (calls s)).
      destruct (IH s1) as (s' & Hrun & Hframe). rewrite Hrun.
      exists s'. split; [reflexivity|].
      destruct Hframe as (Hw & Ho & Hi & Hc & Hl). simpl in *.
      repeat split; try assumption.
      rewrite Hl, <- app_assoc. reflexivity.
Qed.

Lemma process_file_spec (file_path : string) (size_threshold : Z) (s : state W) :
  exists s',
    process_file file_path size_threshold s
    = (Returned (probe (world s) size_threshold file_path), s')
    /\ only_probed s s' [file_path].
Proof.
  unfold process_file, os_getsize, probe. run.
  destruct (getsize (world s) file_path) as [sz|]; simpl.
  - destruct (size_threshold <? sz); eexists; (split; [reflexivity|]);
      unfold only_probed; simpl; auto.
  - eexists; split; [reflexivity|]. unfold only_probed; simpl; auto.
Qed.

Lemma executor_init_spec (workers : option Z) (s : state W) :
  valid_workers workers ->
  exists max_workers,
    (1 <= max_workers)%nat /\ executor_init workers s = (Returned max_workers, s).
Proof.
  destruct workers as [n|]; simpl; intros Hv.
  - exists (Z.to_nat n). split; [lia|].
    destruct (n <=? 0) eqn:E; [apply Z.leb_le in E; lia | reflexivity].
  - exists (default_max_workers (world s)). split; [|reflexivity].
    unfold default_max_workers. destruct (cpu_count (world s)) as [[|c]|]; lia.
Qed.

Lemma executor_init_refuses (n : Z) (s : state W) :
  n <= 0 -> executor_init (Some n) s = (Raised ValueError, s).
Proof.
  intros Hn. simpl. destruct (n <=? 0) eqn:E; [reflexivity|].
  apply Z.leb_gt in E. lia.
Qed.

Lemma remove_nth_perm {A} (k : nat) (l : list A) (x : A) :
  nth_error l k = Some x -> Permutation l (x :: remove_nth k l).
Proof.
  revert k. induction l as [|y r IH]; intros [|k] H; simpl in *; try discriminate.
  - injection H as ->. apply Permutation_refl.
  - apply perm_trans with (y :: x :: remove_nth k r).
    + apply perm_skip. now apply IH.
    + apply perm_swap.
Qed.

Lemma remove_nth_length {A} (k : nat) (l : list A) (x : A) :
  nth_error l k = Some x -> length l = S (length (remove_nth k l)).
Proof.
  intros H. apply remove_nth_perm in H. apply Permutation_length in H. exact H.
Qed.

(** Whatever the schedule, the pool completes every pending probe, once. *)
Lemma pool_run_spec (max_workers : nat) (size_threshold : Z) (steps : nat) :
  (1 <= max_workers)%nat ->
  forall (pending : list (nat * string)) (sched : list nat) (s : state W),
    steps = length pending ->
    exists done order s',
      pool_run max_workers size_threshold steps pending sched s = (Returned done, s')
      /\ Permutation done (map (probed (world s) size_threshold) pending)
      /\ Permutation order (map snd pending)
      /\ only_probed s s' order.
Proof.
  intros Hmw. induction steps as [|n IH]; intros pending sched s Hlen.
  - destruct pending; [|discriminate]. simpl.
    exists [], [], s. repeat split; try constructor. apply only_probed_refl.
  - simpl.
    set (k := (hd 0%nat sched mod Nat.min max_workers (length pending))%nat).
    assert (Hk : (k < length pending)%nat).
    { unfold k.
      assert (Nat.min max_workers (length pending) <> 0%nat) by lia.
      pose proof (Nat.mod_upper_bound (hd 0%nat sched) _ H). lia. }
    destruct (nth_error pending k) as [[i fp]|] eqn:En;
      [|apply nth_error_None in En; lia].
    run.
    destruct (process_file_spec fp size_threshold s) as (s1 & Hp & Hf1).
    rewrite Hp.
    pose proof (remove_nth_length _ _ _ En) as Hl.
    destruct (IH (remove_nth k pending) (tl sched) s1) as (done & order & s' & Hr & Hd & Ho & Hf);
      [lia|].
    rewrite Hr.
    destruct Hf1 as (Hw1 & Ho1 & Hi1 & Hc1).
    destruct Hf as (Hw & Hso & Hsi & Hc).
    exists ((i, probe (world s) size_threshold fp) :: done), (fp :: order), s'.
    split; [reflexivity|]. split; [|split].
    + apply perm_trans
        with (map (probed (world s) size_threshold) ((i, fp) :: remove_nth k pending)).
      * simpl. unfold probed at 1. simpl. apply perm_skip. rewrite <- Hw1. exact Hd.
      * apply Permutation_map, Permutation_sym, remove_nth_perm. exact En.
    + apply perm_trans with (map snd ((i, fp) :: remove_nth k pending)).
      * simpl. now apply perm_skip.
      * apply Permutation_map, Permutation_sym, remove_nth_perm. exact En.
    + unfold only_probed. repeat split; try congruence.
      rewrite Hc, Hc1. simpl. rewrite <- app_assoc. reflexivity.
Qed.

Lemma future_result_in {A} (done : list (nat * A)) (i : nat) (r : A) :
  NoDup (map fst done) -> In (i, r) done -> future_result i done = Some r.
Proof.
  induction done as [|[j x] rest IH]; simpl; intros Hnd Hin; [contradiction|].
  inversion Hnd as [|? ? Hnot Hnd']; subst.
  destruct Hin as [Heq|Hin].
  - injection Heq as -> ->. now rewrite Nat.eqb_refl.
  - destruct (Nat.eqb_spec i j) as [->|Hne].
    + exfalso. apply Hnot. change j with (fst (j, r)). now apply in_map.
    + now apply IH.
Qed.

Lemma await_results_spec {A B} (f : B -> A) (done : list (nat * A))
    (l : list B) (a : nat) (s : state W) :
  (forall i x, In (i, x) (combine (seq a (length l)) l) ->
               future_result i done = Some (f x)) ->
  await_results done (seq a (length l)) s = (Returned (map f l), s).
Proof.
  revert a. induction l as [|x r IH]; intros a H; simpl; [reflexivity|].
  rewrite (H a x) by (simpl; auto). run.
  rewrite IH; [reflexivity|].
  intros i y Hin. apply H. simpl. auto.
Qed.

Lemma map_fst_combine_seq {B} (l : list B) (a : nat) :
  map fst (combine (seq a (length l)) l) = seq a (length l).
Proof.
  revert a. induction l as [|x r IH]; intros a; simpl; [reflexivity|].
  now rewrite IH.
Qed.

Lemma map_snd_combine_seq {B} (l : list B) (a : nat) :
  map snd (combine (seq a (length l)) l) = l.
Proof.
  revert a. induction l as [|x r IH]; intros a; simpl; [reflexivity|].
  now rewrite IH.
Qed.

(** [executor.map] yields the probe of every path, in the order of the
    paths, whatever the pool size and the schedule; each path is probed
    once. *)
Lemma executor_map_spec (max_workers : nat) (size_threshold : Z)
    (file_paths : list string) (sched : list nat) (s : state W) :
  (1 <= max_workers)%nat ->
  exists order s',
    executor_map max_workers size_threshold file_paths sched s
    = (Returned (map (probe (world s) size_threshold) file_paths), s')
    /\ Permutation order file_paths
    /\ only_probed s s' order.
Proof.
  intros Hmw. unfold executor_map, enumerate.
  destruct (pool_run_spec max_workers size_threshold (length file_paths) Hmw
              (combine (seq 0 (length file_paths)) file_paths) sched s)
    as (done & order & s' & Hr & Hd & Ho & Hf).
  { rewrite length_combine, length_seq. lia. }
  unfold bind. rewrite Hr.
  exists order, s'. split; [|split].
  - apply await_results_spec.
    intros i x Hin. apply future_result_in.
    + eapply Permutation_NoDup.
      * apply Permutation_map, Permutation_sym, Hd.
      * rewrite map_map. simpl.
        change (fun x0 : nat * string => fst x0) with (@fst nat string).
        rewrite map_fst_combine_seq. apply seq_NoDup.
    + eapply Permutation_in; [apply Permutation_sym, Hd|].
      change (i, probe (world s) size_threshold x)
        with (probed (world s) size_threshold (i, x)).
      now apply in_map.
  - rewrite map_snd_combine_seq in Ho. exact Ho.
  - exact Hf.
Qed.

(** With an accepted pool size, [find_large_files] returns the qualifying
    candidates, sorted; it probes each candidate once and changes nothing
    but the log. *)
Lemma find_large_files_spec (directories : list string) (size_threshold : Z)
    (include_types exclude_types : option (list string)) (workers : option Z)
    (sched : list nat) (s : state W) :
  valid_workers workers ->
  let file_paths :=
    candidate_paths (world s) (normalize_ext_list include_types)
      (normalize_ext_list exclude_types) directories in
  exists order s',
    find_large_files directories size_threshold include_types exclude_types
      workers sched s
    = (Returned (sort_by_size_desc (qualifying (world s) size_threshold file_paths)), s')
    /\ Permutation order file_paths
    /\ only_probed s s' order.
Proof.
  intros Hv file_paths. unfold find_large_files.
  destruct (scan_directories_spec (normalize_ext_list include_types)
              (normalize_ext_list exclude_types) directories s)
    as (s1 & Hscan & Hw1 & Ho1 & Hi1 & Hc1 & Hl1).
  unfold bind at 1. rewrite Hscan. fold file_paths.
  unfold bind at 1. simpl.
  set (s2 := mkState (world s1) (stdout s1) (stdin s1)
               (log s1 ++ [InfoTotalCandidates (Z.of_nat (length file_paths))])
               (calls s1)).
  destruct (Z.of_nat (length file_paths) =? 0) eqn:E.
  - apply Z.eqb_eq in E. destruct file_paths; [|simpl in E; lia].
    exists [], s2. split; [reflexivity|]. split; [constructor|].
    unfold only_probed. simpl. rewrite app_nil_r. auto.
  - destruct (executor_init_spec workers s2 Hv) as (mw & Hmw & Hinit).
    unfold bind at 1. rewrite Hinit.
    destruct (executor_map_spec mw size_threshold file_paths sched s2 Hmw)
      as (order & s' & Hmap & Hperm & Hw & Ho & Hi & Hc).
    unfold bind. rewrite Hmap. simpl in *.
    exists order, s'. split; [|split].
    + unfold qualifying. rewrite Hw1. reflexivity.
    + exact Hperm.
    + unfold only_probed. repeat split; congruence.
Qed.

(** A pool size that is not positive is refused once there is a candidate:
    nothing is probed. *)
Lemma find_large_files_refused (directories : list string) (size_threshold : Z)
    (include_types exclude_types : option (list string)) (n : Z)
    (sched : list nat) (s : state W) :
  n <= 0 ->
  candidate_paths (world s) (normalize_ext_list include_types)
    (normalize_ext_list exclude_types) directories <> [] ->
  exists s',
    find_large_files directories size_threshold include_types exclude_types
      (Some n) sched s = (Raised ValueError, s')
    /\ calls s' = calls s.
Proof.
  intros Hn Hne. unfold find_large_files.
  destruct (scan_directories_spec (normalize_ext_list include_types)
              (normalize_ext_list exclude_types) directories s)
    as (s1 & Hscan & Hw1 & Ho1 & Hi1 & Hc1 & Hl1).
  unfold bind at 1. rewrite Hscan.
  unfold bind at 1. simpl.
  destruct (candidate_paths (world s) (normalize_ext_list include_types)
              (normalize_ext_list exclude_types) directories) as [|p l];
    [contradiction|].
  simpl. unfold bind.
  destruct (n <=? 0) eqn:E; [|apply Z.leb_gt in E; lia].
  simpl. eexists. split; [reflexivity|]. simpl. exact Hc1.
Qed.

End ScanFacts.

(** ** The extension filter *)

Lemma str_in_In (x : string) (l : list string) : str_in x l = true <-> In x l.
Proof.
  unfold str_in. rewrite existsb_exists. split.
  - intros (y & Hin & Heq). apply String.eqb_eq in Heq. now subst.
  - intros Hin. exists x. split; [assumption | apply String.eqb_refl].
Qed.

Lemma normalize_ext_list_some (exts : option (list string)) (l : list string) :
  normalize_ext_list exts = Some l -> list_truthy l = true.
Proof.
  unfold normalize_ext_list. destruct exts as [e|]; simpl; [|discriminate].
  destruct (list_truthy e); simpl; [|discriminate].
  destruct (list_truthy (normalize_loop e)) eqn:E; [|discriminate].
  intros H. injection H as <-. exact E.
Qed.

(** The test of line 22 is covered by the test of line 25: an empty entry
    is blank. *)
Lemma entry_blank (entry : string) (A : Type) (x y : A) :
  (if negb (str_truthy entry) then x
   else if negb (str_truthy (lower (strip entry))) then x else y)
  = if negb (str_truthy (lower (strip entry))) then x else y.
Proof. destruct entry; reflexivity. Qed.

(** The normalized list holds what the entries of the configured list
    name, and is [None] exactly when they name nothing. *)
Lemma normalize_loop_holds (l : list string) (ext : string) :
  In ext (normalize_loop l) <-> filter_holds (Some l) ext = true.
Proof.
  unfold filter_holds. induction l as [|entry rest IH]; [simpl; split; easy|].
  cbn [normalize_loop existsb]. rewrite orb_true_iff, <- IH. unfold entry_ext.
  cbv zeta. rewrite (entry_blank entry).
  destruct (str_truthy (lower (strip entry))); cbn [negb].
  - destruct (startswith "." (lower (strip entry))); cbn [negb In];
      rewrite String.eqb_eq; split; intros [H|H]; auto.
  - split; [auto | intros [H|H]; [discriminate | exact H]].
Qed.

Lemma normalize_loop_absent (l : list string) :
  normalize_loop l = [] <-> filter_absent (Some l) = true.
Proof.
  unfold filter_absent. induction l as [|entry rest IH]; [simpl; tauto|].
  cbn [normalize_loop forallb]. rewrite andb_true_iff, <- IH. unfold entry_ext.
  cbv zeta. rewrite (entry_blank entry).
  destruct (str_truthy (lower (strip entry))); cbn [negb].
  - split; [discriminate | intros [H _]; discriminate].
  - tauto.
Qed.

Lemma normalize_ext_list_absent (exts : option (list string)) :
  normalize_ext_list exts = None <-> filter_absent exts = true.
Proof.
  destruct exts as [l|]; [|simpl; tauto].
  rewrite <- normalize_loop_absent. unfold normalize_ext_list.
  cbn [opt_list_truthy].
  destruct l as [|x l]; [simpl; tauto|]. cbn [list_truthy negb].
  destruct (normalize_loop (x :: l)); simpl; split; congruence.
Qed.

Lemma normalize_ext_list_holds (exts : option (list string)) (l : list string)
    (ext : string) :
  normalize_ext_list exts = Some l ->
  (In ext l <-> filter_holds exts ext = true).
Proof.
  destruct exts as [raw|]; [|discriminate].
  intros H. rewrite <- normalize_loop_holds. unfold normalize_ext_list in H.
  cbn [opt_list_truthy] in H.
  destruct (list_truthy raw); cbn [negb] in H; [|discriminate].
  destruct (list_truthy (normalize_loop raw)); [|discriminate].
  injection H as <-. tauto.
Qed.

Lemma passes_filters_iff (include_types exclude_types : option (list string))
    (ext : string) :
  (forall l, include_types = Some l -> list_truthy l = true) ->
  (forall l, exclude_types = Some l -> list_truthy l = true) ->
  passes_filters include_types exclude_types ext = true <->
  (include_types = None \/ exists l, include_types = Some l /\ In ext l)
  /\ (exclude_types = None \/ exists l, exclude_types = Some l /\ ~ In ext l).
Proof.
  intros Hi He. unfold passes_filters.
  destruct include_types as [li|]; destruct exclude_types as [le|]; simpl;
    try rewrite (Hi li eq_refl); try rewrite (He le eq_refl); simpl.
  - destruct (str_in ext li) eqn:Ei; destruct (str_in ext le) eqn:Ee; simpl;
      split; try discriminate; try (intros _; split; right).
    + intros (_ & [H|(l & H & Hn)]); [discriminate|].
      injection H as <-. exfalso. apply Hn. now apply str_in_In.
    + exists li. split; [reflexivity | now apply str_in_In].
    + exists le. split; [reflexivity|]. rewrite <- str_in_In. congruence.
    + intros ([H|(l & H & Hin)] & _); [discriminate|].
      injection H as <-. apply str_in_In in Hin. congruence.
    + intros ([H|(l & H & Hin)] & _); [discriminate|].
      injection H as <-. apply str_in_In in Hin. congruence.
  - destruct (str_in ext li) eqn:Ei; simpl; split; try discriminate.
    + intros _. split; [right | now left].
      exists li. split; [reflexivity | now apply str_in_In].
    + reflexivity.
    + intros ([H|(l & H & Hin)] & _); [discriminate|].
      injection H as <-. apply str_in_In in Hin. congruence.
  - destruct (str_in ext le) eqn:Ee; simpl; split; try discriminate.
    + intros (_ & [H|(l & H & Hn)]); [discriminate|].
      injection H as <-. exfalso. apply Hn. now apply str_in_In.
    + intros _. split; [now left | right].
      exists le. split; [reflexivity|]. rewrite <- str_in_In. congruence.
    + reflexivity.
  - split; [intros _; split; now left | reflexivity].
Qed.

Lemma include_rejects (include_types exclude_types : option (list string))
    (ext : string) (l : list string) :
  include_types = Some l -> list_truthy l = true -> ~ In ext l ->
  passes_filters include_types exclude_types ext = false.
Proof.
  intros -> Ht Hn. unfold passes_filters. simpl. rewrite Ht.
  destruct (str_in ext l) eqn:E; [|reflexivity].
  exfalso. apply Hn. now apply str_in_In.
Qed.

Section Enumeration.
Context {W : Type} {os : OS W}.

Lemma scan_files_in (inc exc : option (list string)) (root : string)
    (files : list string) (p : string) :
  In p (scan_files inc exc root files) <->
  exists name, In name files /\ p = path_join root name
               /\ passes_filters inc exc (lower (splitext_ext name)) = true.
Proof.
  induction files as [|n rest IH]; simpl.
  - split; [contradiction | intros (? & [] & _)].
  - destruct (passes_filters inc exc (lower (splitext_ext n))) eqn:E; simpl;
      rewrite IH; split.
    + intros [<-|(name & Hin & Hp & Hf)].
      * exists n. auto.
      * exists name. auto.
    + intros (name & [<-|Hin] & Hp & Hf); [now left|].
      right. exists name. auto.
    + intros (name & Hin & Hp & Hf). exists name. auto.
    + intros (name & [<-|Hin] & Hp & Hf); [congruence|].
      exists name. auto.
Qed.

Lemma scan_walk_in (inc exc : option (list string))
    (entries : list (string * list string)) (p : string) :
  In p (scan_walk inc exc entries) <->
  exists root files name,
    In (root, files) entries /\ In name files /\ p = path_join root name
    /\ passes_filters inc exc (lower (splitext_ext name)) = true.
Proof.
  induction entries as [|[r fs] rest IH]; simpl.
  - split; [contradiction | intros (? & ? & ? & [] & _)].
  - rewrite in_app_iff, IH, scan_files_in. split.
    + intros [(name & Hin & Hp & Hf)|(root & files & name & He & Hin & Hp & Hf)].
      * exists r, fs, name. auto.
      * exists root, files, name. auto.
    + intros (root & files & name & [Heq|He] & Hin & Hp & Hf).
      * injection Heq as <- <-. left. exists name. auto.
      * right. exists root, files, name. auto.
Qed.

Lemma candidate_paths_in (w : W) (inc exc : option (list string))
    (directories : list string) (p : string) :
  In p (candidate_paths w inc exc directories) <->
  exists directory root files name,
    In directory directories /\ isdir w directory = true
    /\ In (root, files) (walk w directory) /\ In name files
    /\ p = path_join root name
    /\ passes_filters inc exc (lower (splitext_ext name)) = true.
Proof.
  induction directories as [|d rest IH]; simpl.
  - split; [contradiction | intros (? & ? & ? & ? & [] & _)].
  - destruct (isdir w d) eqn:E.
    + rewrite in_app_iff, IH, scan_walk_in. split.
      * intros [(root & files & name & H)|(d' & root & files & name & Hd & H)].
        -- exists d, root, files, name. tauto.
        -- exists d', root, files, name. tauto.
      * intros (d' & root & files & name & [<-|Hd] & H).
        -- left. exists root, files, name. tauto.
        -- right. exists d', root, files, name. tauto.
    + rewrite IH. split.
      * intros (d' & root & files & name & Hd & H).
        exists d', root, files, name. tauto.
      * intros (d' & root & files & name & [<-|Hd] & Hdir & H); [congruence|].
        exists d', root, files, name. tauto.
Qed.

(** C2. A file is a candidate, and is probed, exactly when it lies under a
    scanned directory and (no include filter is configured or an entry of
    the include list names its lower-cased extension) and (no exclude
    filter is configured or no entry of the exclude list names it). A
    filter is not configured when the list is missing or empty or holds
    blank entries only, and an entry names an extension whatever its case,
    the blanks around it and whether it is written with its dot. A file the
    include filter drops is dropped whatever the exclude list is, the
    include test being made first. *)
Theorem candidate_iff_include_and_not_exclude
    (include exclude : option (list string)) (directories : list string)
    (size_threshold : Z) (s : state W) :
  let include_types := normalize_ext_list include in
  let exclude_types := normalize_ext_list exclude in
  let kept (ext : string) :=
    (filter_absent include = true \/ filter_holds include ext = true)
    /\ (filter_absent exclude = true \/ filter_holds exclude ext = false) in
  (forall ext, passes_filters include_types exclude_types ext = true <-> kept ext)
  /\ (forall ext other,
        filter_absent include = false -> filter_holds include ext = false ->
        passes_filters include_types other ext = false)
  /\ exists file_paths s1,
       scan_directories include_types exclude_types directories s
       = (Returned file_paths, s1)
       /\ (forall p, In p file_paths <->
             exists directory root files name,
               In directory directories /\ isdir (world s) directory = true
               /\ In (root, files) (walk (world s) directory) /\ In name files
               /\ p = path_join root name
               /\ kept (lower (splitext_ext name)))
       /\ (forall workers sched, valid_workers workers ->
             exists order s',
               find_large_files directories size_threshold include exclude
                 workers sched s
               = (Returned (sort_by_size_desc
                              (qualifying (world s) size_threshold file_paths)), s')
               /\ Permutation order file_paths
               /\ calls s' = (calls s ++ map CallGetsize order)%list).
Proof.
  intros include_types exclude_types kept.
  assert (Hside : forall exts ext,
             (normalize_ext_list exts = None
              \/ exists l, normalize_ext_list exts = Some l /\ In ext l)
             <-> (filter_absent exts = true \/ filter_holds exts ext = true)).
  { intros exts ext. rewrite <- normalize_ext_list_absent.
    destruct (normalize_ext_list exts) as [l|] eqn:E; [|tauto].
    rewrite <- (normalize_ext_list_holds exts l ext E). split.
    - intros [H|(l' & H & Hin)]; [discriminate|]. injection H as <-. now right.
    - intros [H|H]; [discriminate|]. right. eauto. }
  assert (Hout : forall exts ext,
             (normalize_ext_list exts = None
              \/ exists l, normalize_ext_list exts = Some l /\ ~ In ext l)
             <-> (filter_absent exts = true \/ filter_holds exts ext = false)).
  { intros exts ext. rewrite <- normalize_ext_list_absent.
    destruct (normalize_ext_list exts) as [l|] eqn:E; [|tauto].
    pose proof (normalize_ext_list_holds exts l ext E) as Hh. split.
    - intros [H|(l' & H & Hin)]; [discriminate|]. injection H as <-. right.
      destruct (filter_holds exts ext); [exfalso; apply Hin, Hh|]; reflexivity.
    - intros [H|H]; [discriminate|]. right. exists l. split; [reflexivity|].
      rewrite Hh, H. discriminate. }
  assert (Hk : forall ext,
             passes_filters include_types exclude_types ext = true <-> kept ext).
  { intros ext. unfold kept. rewrite <- Hside, <- Hout.
    apply passes_filters_iff; apply normalize_ext_list_some. }
  split; [exact Hk|]. split.
  - intros ext other Ha Hh.
    destruct (normalize_ext_list include) as [l|] eqn:E.
    + apply (include_rejects _ _ _ l eq_refl).
      * now apply (normalize_ext_list_some include).
      * rewrite (normalize_ext_list_holds include l ext E), Hh. discriminate.
    + apply normalize_ext_list_absent in E. congruence.
  - destruct (scan_directories_spec include_types exclude_types directories s)
      as (s1 & Hscan & _).
    eexists. exists s1. split; [exact Hscan|]. split.
    + intros p. rewrite candidate_paths_in. split;
        intros (d & root & files & name & Hd & Hdir & Hw & Hn & Hp & Hf);
        exists d, root, files, name; repeat split; try assumption;
        now apply Hk.
    + intros workers sched Hv.
      destruct (find_large_files_spec directories size_threshold include exclude
                  workers sched s Hv) as (order & s' & Hrun & Hperm & Hf).
      exists order, s'. split; [exact Hrun|]. split; [exact Hperm|].
      apply Hf.
Qed.

End Enumeration.

(** ** The result of find_large_files *)

Section Results.
Context {W : Type} {os : OS W}.

Lemma workers_valid_or_not (workers : option Z) :
  valid_workers workers \/ exists n, workers = Some n /\ n <= 0.
Proof.
  destruct workers as [n|]; simpl; [|now left].
  destruct (Z_lt_le_dec 0 n); [now left | right; eauto].
Qed.

(** Whenever [find_large_files] returns, it returns the qualifying
    candidates, sorted. *)
Lemma find_large_files_returned (directories : list string) (size_threshold : Z)
    (include_types exclude_types : option (list string)) (workers : option Z)
    (sched : list nat) (s s' : state W) (files : list (string * Z)) :
  find_large_files directories size_threshold include_types exclude_types
    workers sched s = (Returned files, s') ->
  files = sort_by_size_desc
            (qualifying (world s) size_threshold
               (candidate_paths (world s) (normalize_ext_list include_types)
                  (normalize_ext_list exclude_types) directories)).
Proof.
  intros Hrun.
  destruct (workers_valid_or_not workers) as [Hv|(n & -> & Hn)].
  - destruct (find_large_files_spec directories size_threshold include_types
                exclude_types workers sched s Hv) as (order & s2 & Hspec & _).
    congruence.
  - destruct (candidate_paths (world s) (normalize_ext_list include_types)
                (normalize_ext_list exclude_types) directories) as [|p l] eqn:E.
    + unfold find_large_files in Hrun.
      destruct (scan_directories_spec (normalize_ext_list include_types)
                  (normalize_ext_list exclude_types) directories s)
        as (s1 & Hscan & _).
      unfold bind at 1 in Hrun. rewrite Hscan, E in Hrun.
      simpl in Hrun. unfold bind in Hrun. simpl in Hrun.
      injection Hrun as <- _. reflexivity.
    + destruct (find_large_files_refused directories size_threshold include_types
                  exclude_types n sched s Hn) as (s2 & Hr & _); [congruence|].
      congruence.
Qed.

Lemma qualifying_in (w : W) (size_threshold : Z) (file_paths : list string)
    (p : string) (sz : Z) :
  In (p, sz) (qualifying w size_threshold file_paths) <->
  In p file_paths /\ getsize w p = Some sz /\ size_threshold < sz.
Proof.
  unfold qualifying. induction file_paths as [|fp rest IH]; simpl.
  - tauto.
  - unfold probe at 1. destruct (getsize w fp) as [z|] eqn:Eg.
    + destruct (size_threshold <? z) eqn:El; simpl; rewrite IH.
      * apply Z.ltb_lt in El. split.
        -- intros [Heq|H]; [injection Heq as -> ->; auto | tauto].
        -- intros ([->|Hin] & Hg & Hl); [left; congruence | tauto].
      * apply Z.ltb_ge in El. split; [tauto|].
        intros ([->|Hin] & Hg & Hl); [|tauto].
        rewrite Eg in Hg. injection Hg as ->. lia.
    + rewrite IH. split; [tauto|].
      intros ([->|Hin] & Hg & Hl); [congruence | tauto].
Qed.

Lemma qualifying_of_size (w : W) (size_threshold sz : Z) (file_paths : list string) :
  size_threshold < sz ->
  map fst (filter (size_is sz) (qualifying w size_threshold file_paths))
  = filter (has_size w sz) file_paths.
Proof.
  intros Hsz. unfold qualifying.
  induction file_paths as [|fp rest IH]; simpl; [reflexivity|].
  unfold probe at 1, has_size at 1.
  destruct (getsize w fp) as [z|]; [|exact IH].
  destruct (size_threshold <? z) eqn:El; simpl.
  - unfold size_is at 1. simpl. destruct (z =? sz); simpl; now rewrite IH.
  - destruct (z =? sz) eqn:Ez; [|exact IH].
    apply Z.eqb_eq in Ez. apply Z.ltb_ge in El. lia.
Qed.

(** C1. Every (path, size) pair [find_large_files] returns has
    size > threshold, the size being the one the file system reports for
    the path: a file of size at most the threshold, the threshold itself
    included, is never in the result. *)
Theorem find_large_files_above_threshold (directories : list string)
    (size_threshold : Z) (include_types exclude_types : option (list string))
    (workers : option Z) (sched : list nat) (s s' : state W)
    (files : list (string * Z)) (p : string) (sz : Z) :
  find_large_files directories size_threshold include_types exclude_types
    workers sched s = (Returned files, s') ->
  In (p, sz) files ->
  size_threshold < sz /\ getsize (world s) p = Some sz.
Proof.
  intros Hrun Hin. apply find_large_files_returned in Hrun. subst files.
  eapply Permutation_in in Hin; [|apply sort_by_size_desc_perm].
  apply qualifying_in in Hin. tauto.
Qed.

(** C3. The list [find_large_files] returns is sorted by size, descending:
    for indices i < j, size[i] >= size[j]. *)
Theorem find_large_files_sorted_descending (directories : list string)
    (size_threshold : Z) (include_types exclude_types : option (list string))
    (workers : option Z) (sched : list nat) (s s' : state W)
    (files : list (string * Z)) (i j : nat) (d : string * Z) :
  find_large_files directories size_threshold include_types exclude_types
    workers sched s = (Returned files, s') ->
  (i < j < length files)%nat ->
  snd (nth i files d) >= snd (nth j files d).
Proof.
  intros Hrun Hij. apply find_large_files_returned in Hrun. subst files.
  apply Z.le_ge. apply strongly_sorted_nth; [|exact Hij].
  apply sort_by_size_desc_sorted.
Qed.

(** C5, amended. For every pool size the executor accepts (none given, or
    a positive one) and every schedule, [find_large_files] returns the same
    list, and it probes every candidate exactly once. *)
Theorem find_large_files_same_for_all_workers (directories : list string)
    (size_threshold : Z) (include_types exclude_types : option (list string))
    (workers1 workers2 : option Z) (sched1 sched2 : list nat) (s : state W) :
  valid_workers workers1 -> valid_workers workers2 ->
  exists files order1 order2 s1 s2,
    find_large_files directories size_threshold include_types exclude_types
      workers1 sched1 s = (Returned files, s1)
    /\ find_large_files directories size_threshold include_types exclude_types
         workers2 sched2 s = (Returned files, s2)
    /\ calls s1 = (calls s ++ map CallGetsize order1)%list
    /\ calls s2 = (calls s ++ map CallGetsize order2)%list
    /\ Permutation order1
         (candidate_paths (world s) (normalize_ext_list include_types)
            (normalize_ext_list exclude_types) directories)
    /\ Permutation order2
         (candidate_paths (world s) (normalize_ext_list include_types)
            (normalize_ext_list exclude_types) directories).
Proof.
  intros H1 H2.
  destruct (find_large_files_spec directories size_threshold include_types
              exclude_types workers1 sched1 s H1) as (o1 & s1 & Hr1 & Hp1 & Hf1).
  destruct (find_large_files_spec directories size_threshold include_types
              exclude_types workers2 sched2 s H2) as (o2 & s2 & Hr2 & Hp2 & Hf2).
  eexists. exists o1, o2, s1, s2.
  split; [exact Hr1|]. split; [exact Hr2|].
  split; [apply Hf1|]. split; [apply Hf2|]. split; assumption.
Qed.

(** C10. In the result of [find_large_files] the entries of one size stand
    in the order in which the candidates were enumerated: for each size,
    the paths of that size in the result are the candidates of that size,
    in enumeration order. *)
Theorem find_large_files_ties_in_enumeration_order (directories : list string)
    (size_threshold : Z) (include_types exclude_types : option (list string))
    (workers : option Z) (sched : list nat) (s s' : state W)
    (files : list (string * Z)) (sz : Z) :
  find_large_files directories size_threshold include_types exclude_types
    workers sched s = (Returned files, s') ->
  size_threshold < sz ->
  map fst (filter (size_is sz) files)
  = filter (has_size (world s) sz)
      (candidate_paths (world s) (normalize_ext_list include_types)
         (normalize_ext_list exclude_types) directories).
Proof.
  intros Hrun Hsz. apply find_large_files_returned in Hrun. subst files.
  rewrite sort_by_size_desc_stable. now apply qualifying_of_size.
Qed.

Lemma candidate_paths_existing (w : W) (inc exc : option (list string))
    (directories : list string) :
  candidate_paths w inc exc (filter (isdir w) directories)
  = candidate_paths w inc exc directories.
Proof.
  induction directories as [|d rest IH]; simpl; [reflexivity|].
  destruct (isdir w d) eqn:E; simpl; [rewrite E|]; now rewrite IH.
Qed.

(** A root that is not an existing directory is skipped with a warning;
    the scan goes on with the other roots and finds what a scan of the
    existing roots alone finds. *)
Theorem missing_directory_is_skipped (inc exc : option (list string))
    (directories : list string) (s : state W) :
  exists s',
    scan_directories inc exc directories s
    = (Returned (candidate_paths (world s) inc exc
                   (filter (isdir (world s)) directories)), s')
    /\ log s' = (log s ++ map WarnSkippingPath
                            (filter (fun d => negb (isdir (world s) d)) directories))%list
    /\ calls s' = calls s /\ world s' = world s.
Proof.
  destruct (scan_directories_spec inc exc directories s)
    as (s' & Hrun & Hw & _ & _ & Hc & Hl).
  exists s'. rewrite candidate_paths_existing. auto.
Qed.

(** A candidate whose size cannot be read is logged and dropped; the probe
    returns, it does not raise. *)
Theorem unreadable_candidate_is_dropped (file_path : string) (size_threshold : Z)
    (s : state W) :
  getsize (world s) file_path = None ->
  process_file file_path size_threshold s
  = (Returned None,
     mkState (world s) (stdout s) (stdin s)
       (log s ++ [ErrorAccessingFile file_path])
       (calls s ++ [CallGetsize file_path])).
Proof.
  intros H. unfold process_file, os_getsize. run. rewrite H. reflexivity.
Qed.

End Results.

(** ** The report *)

Lemma append_assoc (a b c : string) : ((a ++ b) ++ c = a ++ b ++ c)%string.
Proof. induction a as [|x a IH]; simpl; [reflexivity | now rewrite IH]. Qed.

Lemma append_nil_r (a : string) : (a ++ "" = a)%string.
Proof. induction a as [|x a IH]; simpl; [reflexivity | now rewrite IH]. Qed.

Lemma slice_to_positive {A} (l : list A) (n : Z) :
  0 < n ->
  slice_to l n = firstn (Z.to_nat n) l
  /\ Z.of_nat (length (slice_to l n)) = Z.min n (Z.of_nat (length l)).
Proof.
  intros Hn. unfold slice_to.
  destruct (n <? 0) eqn:E; [apply Z.ltb_lt in E; lia|].
  split; [reflexivity|]. rewrite length_firstn. lia.
Qed.

Section ReportFacts.
Context {W : Type} {os : OS W}.
Variable tabulate : list (string * string) -> list string -> string.

Lemma printed_printed (s : state W) (a b : string) :
  printed (printed s a) b = printed s (a ++ b).
Proof. unfold printed. simpl. now rewrite append_assoc. Qed.

Lemma print_spec (text : string) (s : state W) :
  print text s = (Returned tt, printed s (text ++ newline)).
Proof. reflexivity. Qed.

Lemma print_rows_spec (used_files : list (string * Z)) (s : state W) (shown : string) :
  print_rows used_files (printed s shown)
  = (Returned tt,
     printed s (shown ++ concat_strings
                           (map (fun r => csv_display_row r ++ newline) used_files))).
Proof.
  revert shown. induction used_files as [|r rest IH]; intros shown; simpl.
  - now rewrite append_nil_r.
  - unfold bind. rewrite print_spec, printed_printed, IH.
    now rewrite !append_assoc.
Qed.

Lemma render_stdout_spec (output_format : option string)
    (used_files : list (string * Z)) (s : state W) :
  render_stdout tabulate output_format used_files s
  = (Returned tt, printed s (stdout_text tabulate output_format used_files)).
Proof.
  unfold render_stdout, stdout_text.
  destruct (format_is output_format "json"); [reflexivity|].
  destruct (format_is output_format "csv").
  - unfold bind. rewrite print_spec, print_rows_spec. now rewrite append_assoc.
  - unfold bind. rewrite !print_spec, printed_printed. now rewrite !append_assoc.
Qed.

(** [ensure_parent_dir] either returns, having at most created the parent,
    or raises [OSError] out of [os.makedirs]. *)
Lemma ensure_parent_dir_cases (path : string) (s : state W) :
  let parent := parent_of (world s) path in
  (exists s2,
     ensure_parent_dir path s = (Returned tt, s2)
     /\ stdout s2 = stdout s /\ stdin s2 = stdin s /\ log s2 = log s
     /\ (calls s2 = calls s
         \/ calls s2 = (calls s ++ [CallMakedirs parent true])%list))
  \/ (exists s2,
        ensure_parent_dir path s = (Raised OSError, s2)
        /\ str_truthy parent = true /\ path_exists (world s) parent = false
        /\ snd (makedirs (world s) parent) = false
        /\ stdout s2 = stdout s /\ stdin s2 = stdin s /\ log s2 = log s
        /\ calls s2 = (calls s ++ [CallMakedirs parent false])%list).
Proof.
  intros parent. unfold ensure_parent_dir, os_makedirs. run. fold parent.
  destruct (str_truthy parent) eqn:Et; simpl.
  - destruct (path_exists (world s) parent) eqn:Ee; simpl.
    + left. exists s. auto 10.
    + destruct (makedirs (world s) parent) as [w' ok] eqn:Em. simpl.
      destruct ok; simpl.
      * left. eexists. split; [reflexivity|]. simpl. auto 10.
      * right. eexists. split; [reflexivity|]. simpl. auto 10.
  - left. exists s. auto 10.
Qed.

(** [save_results] after the parent directory is ensured: the text is
    written, and a failure of the write is logged. *)
Lemma save_results_written (output_file : string) (output_format : option string)
    (used_files : list (string * Z)) (s s2 : state W) :
  ensure_parent_dir output_file s = (Returned tt, s2) ->
  let text := file_text tabulate (saved_format output_format) used_files in
  let ok := snd (write_text (world s2) output_file text) in
  save_results tabulate output_file output_format used_files s
  = (Returned tt,
     mkState (fst (write_text (world s2) output_file text)) (stdout s2) (stdin s2)
       (log s2 ++ [if ok then InfoResultsSaved output_file
                   else ErrorSaveFailed output_file])
       (calls s2 ++ [CallWrite output_file text ok])).
Proof.
  intros He text ok. unfold save_results. unfold bind at 1. rewrite He.
  unfold os_write. run. fold (saved_format output_format). fold text.
  unfold ok. destruct (write_text (world s2) output_file text) as [w3 b].
  simpl. destruct b; reflexivity.
Qed.

Lemma save_results_raised (output_file : string) (output_format : option string)
    (used_files : list (string * Z)) (s s2 : state W) (e : exn) :
  ensure_parent_dir output_file s = (Raised e, s2) ->
  save_results tabulate output_file output_format used_files s = (Raised e, s2).
Proof.
  intros He. unfold save_results. unfold bind at 1. now rewrite He.
Qed.

(** [display_large_files] on a list that is not empty, step by step. *)
Lemma display_large_files_unfold (large_files : list (string * Z))
    (output_file : option string) (limit : option Z)
    (output_format : option string) (s : state W) :
  large_files <> [] ->
  let used_files := apply_limit large_files limit in
  let s1 := printed s (stdout_text tabulate output_format used_files) in
  let summary :=
    InfoSummary (Z.of_nat (length used_files)) (sum_sizes used_files) in
  display_large_files tabulate large_files output_file limit output_format s
  = match output_file with
    | Some f =>
        if str_truthy f then
          match save_results tabulate f output_format used_files s1 with
          | (Returned _, s2) => (Returned used_files, logged s2 [summary])
          | (Raised e, s2) => (Raised e, s2)
          | (Blocked, s2) => (Blocked, s2)
          end
        else (Returned used_files, logged s1 [summary])
    | None => (Returned used_files, logged s1 [summary])
    end.
Proof.
  intros Hne used_files s1 summary. unfold display_large_files.
  destruct large_files as [|x l]; [contradiction|].
  change (negb (list_truthy (x :: l))) with false. cbv iota.
  fold used_files. unfold bind at 1. rewrite render_stdout_spec. fold s1.
  destruct output_file as [f|]; simpl; [|reflexivity].
  destruct (str_truthy f); [|reflexivity].
  unfold bind at 1.
  destruct (save_results tabulate f output_format used_files s1) as [[[]|e|] s2];
    reflexivity.
Qed.

(** C7. On an empty result set [display_large_files] returns the empty
    list and only logs the notice: nothing is printed, no system call is
    made, so no file is written, whatever output path was given. *)
Theorem display_large_files_empty (output_file : option string) (limit : option Z)
    (output_format : option string) (s : state W) :
  display_large_files tabulate [] output_file limit output_format s
  = (Returned [], logged s [InfoNoFilesFound])
  /\ world (logged s [InfoNoFilesFound]) = world s
  /\ stdout (logged s [InfoNoFilesFound]) = stdout s
  /\ calls (logged s [InfoNoFilesFound]) = calls s
  /\ log (logged s [InfoNoFilesFound]) = (log s ++ [InfoNoFilesFound])%list.
Proof. repeat split. Qed.

(** The three ways [display_large_files] can go on a list that is not
    empty: nothing to save; the parent directory cannot be made and
    [OSError] leaves the function; the text is written, or the write fails
    and that is logged. *)
Lemma display_large_files_cases (large_files : list (string * Z))
    (output_file : option string) (limit : option Z)
    (output_format : option string) (s : state W) :
  large_files <> [] ->
  let used_files := apply_limit large_files limit in
  let s1 := printed s (stdout_text tabulate output_format used_files) in
  let summary :=
    InfoSummary (Z.of_nat (length used_files)) (sum_sizes used_files) in
  let run :=
    display_large_files tabulate large_files output_file limit output_format s in
  (opt_str_truthy output_file = false
   /\ run = (Returned used_files, logged s1 [summary]))
  \/ (exists f s2,
        output_file = Some f /\ str_truthy f = true
        /\ ensure_parent_dir f s1 = (Raised OSError, s2)
        /\ run = (Raised OSError, s2)
        /\ stdout s2 = stdout s1 /\ log s2 = log s1
        /\ calls s2
           = (calls s1 ++ [CallMakedirs (parent_of (world s) f) false])%list)
  \/ (exists f s2,
        output_file = Some f /\ str_truthy f = true
        /\ ensure_parent_dir f s1 = (Returned tt, s2)
        /\ stdout s2 = stdout s1 /\ log s2 = log s1
        /\ (calls s2 = calls s1
            \/ calls s2
               = (calls s1 ++ [CallMakedirs (parent_of (world s) f) true])%list)
        /\ let text := file_text tabulate (saved_format output_format) used_files in
           let ok := snd (write_text (world s2) f text) in
           run
           = (Returned used_files,
              mkState (fst (write_text (world s2) f text)) (stdout s2) (stdin s2)
                (log s2 ++ [if ok then InfoResultsSaved f else ErrorSaveFailed f;
                            summary])
                (calls s2 ++ [CallWrite f text ok]))).
Proof.
  intros Hne used_files s1 summary run. unfold run.
  rewrite (display_large_files_unfold _ _ _ _ _ Hne). fold used_files s1 summary.
  destruct output_file as [f|]; [|left; split; reflexivity].
  simpl opt_str_truthy. destruct (str_truthy f) eqn:Et; [|left; split; reflexivity].
  right.
  destruct (ensure_parent_dir_cases f s1)
    as [(s2 & He & Ho & Hi & Hl & Hc)|(s2 & He & _ & _ & _ & Ho & Hi & Hl & Hc)].
  - right. exists f, s2. repeat split; try assumption.
    rewrite (save_results_written _ _ _ _ _ He). unfold logged. simpl.
    rewrite <- app_assoc. reflexivity.
  - left. exists f, s2. repeat split; try assumption.
    now rewrite (save_results_raised _ _ _ _ _ _ He).
Qed.

(** What line 119 does with a limit N >= 0. For N >= 1 the list
    [display_large_files] shows and returns is the first N entries of the
    list it is given, of length min(N, total); for N = 0 the test
    [if limit] fails and the whole list is shown and returned. *)
Theorem display_large_files_limit (large_files : list (string * Z))
    (output_file : option string) (N : Z) (output_format : option string)
    (s : state W) :
  0 <= N ->
  let used_files := if N =? 0 then large_files else firstn (Z.to_nat N) large_files in
  (0 < N -> Z.of_nat (length used_files) = Z.min N (Z.of_nat (length large_files)))
  /\ (forall r s',
        display_large_files tabulate large_files output_file (Some N)
          output_format s = (Returned r, s') ->
        r = used_files)
  /\ (exists s',
        display_large_files tabulate large_files None (Some N) output_format s
        = (Returned used_files, s'))
  /\ (large_files <> [] ->
      forall o s',
        display_large_files tabulate large_files output_file (Some N)
          output_format s = (o, s') ->
        stdout s' = (stdout s ++ stdout_text tabulate output_format used_files)%string).
Proof.
  intros HN used_files.
  assert (Hused : apply_limit large_files (Some N) = used_files).
  { unfold apply_limit, used_files. simpl.
    destruct (N =? 0) eqn:E; simpl; [reflexivity|].
    apply Z.eqb_neq in E. apply slice_to_positive. lia. }
  assert (Hempty : large_files = [] -> used_files = []).
  { intros ->. unfold used_files. destruct (N =? 0); [reflexivity|].
    apply firstn_nil. }
  assert (Hd : large_files = [] \/ large_files <> []).
  { destruct large_files; [now left | right; discriminate]. }
  split; [|split; [|split]].
  - intros Hpos. unfold used_files.
    destruct (N =? 0) eqn:E; [apply Z.eqb_eq in E; lia|].
    rewrite length_firstn. lia.
  - intros r s' Hrun.
    destruct Hd as [He|Hne].
    + rewrite (Hempty He). rewrite He in Hrun.
      injection Hrun as <- _. reflexivity.
    + destruct (display_large_files_cases large_files output_file (Some N)
                  output_format s Hne)
        as [(_ & H)|[(f & s2 & _ & _ & _ & H & _)|(f & s2 & _ & _ & _ & _ & _ & _ & H)]];
        cbv zeta in H; rewrite H in Hrun; try rewrite Hused in Hrun; congruence.
  - destruct Hd as [He|Hne].
    + rewrite (Hempty He). rewrite He. eexists. reflexivity.
    + rewrite (display_large_files_unfold _ _ _ _ _ Hne), Hused.
      eexists. reflexivity.
  - intros Hne o s' Hrun.
    destruct (display_large_files_cases large_files output_file (Some N)
                output_format s Hne)
      as [(_ & H)|[(f & s2 & _ & _ & _ & H & Ho & _)|(f & s2 & _ & _ & _ & Ho & _ & _ & H)]];
      cbv zeta in H; rewrite H in Hrun; try rewrite Hused in *;
      injection Hrun as _ <-; simpl; try rewrite Ho; reflexivity.
Qed.

End ReportFacts.

(** ** The deletion loop *)

Section DeleteFacts.
Context {W : Type} {os : OS W}.

Lemma count_cons_same (b : bool) (oks : list bool) :
  count b (b :: oks) = 1 + count b oks.
Proof.
  unfold count. cbn [count_occ].
  destruct (Bool.bool_dec b b); [rewrite Nat2Z.inj_succ; lia | congruence].
Qed.

Lemma count_cons_other (b c : bool) (oks : list bool) :
  c <> b -> count b (c :: oks) = count b oks.
Proof.
  intros H. unfold count. cbn [count_occ].
  destruct (Bool.bool_dec c b); [congruence | reflexivity].
Qed.

Lemma count_total (oks : list bool) :
  count true oks + count false oks = Z.of_nat (length oks).
Proof.
  induction oks as [|[|] r IH].
  - reflexivity.
  - rewrite count_cons_same, (count_cons_other false true) by discriminate.
    simpl length. lia.
  - rewrite count_cons_same, (count_cons_other true false) by discriminate.
    simpl length. lia.
Qed.

Lemma count_all_true (oks : list bool) :
  Forall (fun ok => ok = true) oks -> count false oks = 0.
Proof.
  induction 1 as [|ok r Hok _ IH]; [reflexivity|].
  subst ok. now rewrite count_cons_other by discriminate.
Qed.

(** The loop attempts the removal of every file, in order, each once, and
    counts the outcomes; a failure is logged and the loop goes on. *)
Lemma delete_loop_spec (used_files : list (string * Z)) :
  forall (deleted failed : Z) (s : state W),
  exists oks s',
    delete_loop used_files deleted failed s
    = (Returned (deleted + count true oks, failed + count false oks), s')
    /\ length oks = length used_files
    /\ stdout s' = stdout s /\ stdin s' = stdin s
    /\ calls s' = (calls s ++ removals (map fst used_files) oks)%list
    /\ log s' = (log s ++ removal_errors (map fst used_files) oks)%list.
Proof.
  induction used_files as [|[p sz] rest IH]; intros deleted failed s.
  - exists [], s. simpl. unfold count, removals, removal_errors. simpl.
    rewrite !Z.add_0_r, !app_nil_r. auto 10.
  - simpl. unfold os_remove. run.
    destruct (remove (world s) p) as [w' ok]. destruct ok; simpl.
    + match goal with |- context [delete_loop rest _ _ ?s1] =>
        destruct (IH (deleted + 1) failed s1) as (oks & s' & Hr & Hl & Ho & Hi & Hc & Hg)
      end.
      exists (true :: oks), s'. rewrite Hr. simpl in *.
      rewrite count_cons_same, (count_cons_other false true) by discriminate.
      split; [rewrite Z.add_assoc; reflexivity|].
      split; [now rewrite Hl|]. split; [assumption|]. split; [assumption|].
      split.
      * rewrite Hc, <- app_assoc. reflexivity.
      * rewrite Hg. reflexivity.
    + match goal with |- context [delete_loop rest _ _ ?s1] =>
        destruct (IH deleted (failed + 1) s1) as (oks & s' & Hr & Hl & Ho & Hi & Hc & Hg)
      end.
      exists (false :: oks), s'. rewrite Hr. simpl in *.
      rewrite count_cons_same, (count_cons_other true false) by discriminate.
      split; [rewrite Z.add_assoc; reflexivity|].
      split; [now rewrite Hl|]. split; [assumption|]. split; [assumption|].
      split.
      * rewrite Hc, <- app_assoc. reflexivity.
      * rewrite Hg, <- app_assoc. reflexivity.
Qed.

Lemma remove_each_length (w : W) (paths : list string) :
  length (snd (remove_each w paths)) = length paths.
Proof.
  revert w. induction paths as [|p rest IH]; intros w; [reflexivity|].
  cbn [remove_each]. destruct (remove w p) as [w' ok].
  specialize (IH w'). destruct (remove_each w' rest) as [w'' oks].
  simpl in *. now rewrite IH.
Qed.

(** The loop calls [os.remove] on every file, in order, each once, on the
    world the removals before it have left; it counts the outcomes and logs
    each failure. *)
Lemma delete_loop_run (used_files : list (string * Z)) :
  forall (deleted failed : Z) (s : state W),
    let paths := map fst used_files in
    let oks := snd (remove_each (world s) paths) in
    delete_loop used_files deleted failed s
    = (Returned (deleted + count true oks, failed + count false oks),
       mkState (fst (remove_each (world s) paths)) (stdout s) (stdin s)
         (log s ++ removal_errors paths oks) (calls s ++ removals paths oks)).
Proof.
  induction used_files as [|[p sz] rest IH]; intros deleted failed s.
  - destruct s. simpl. unfold count, removals, removal_errors. simpl.
    rewrite !Z.add_0_r, !app_nil_r. reflexivity.
  - cbv zeta. cbn [delete_loop map fst remove_each]. unfold os_remove. run.
    destruct (remove (world s) p) as [w' ok].
    destruct ok; cbn [fst snd];
      match goal with |- context [delete_loop rest ?d ?f ?s1] =>
        rewrite (IH d f s1)
      end; cbv zeta; cbn [world stdout stdin log calls];
      destruct (remove_each w' (map fst rest)) as [w'' oks]; cbn [fst snd].
    + rewrite count_cons_same, (count_cons_other false true) by discriminate.
      unfold removals, removal_errors. cbn [combine map filter snd fst negb].
      rewrite <- !app_assoc, Z.add_assoc. reflexivity.
    + rewrite count_cons_same, (count_cons_other true false) by discriminate.
      unfold removals, removal_errors. cbn [combine map filter snd fst negb].
      rewrite <- !app_assoc, Z.add_assoc. reflexivity.
Qed.

(** C9. Given the go, the deleter calls [os.remove] on each of the K
    files once, in order, whatever the outcome of the others, each on the
    file system the removals before it have left. The run ends in that file
    system, with one log record per failure and the report of the numbers
    of removals that succeeded and failed: K and 0 when every removal
    succeeds, K-1 and 1 when exactly one fails. *)
Theorem delete_files_counts (used_files : list (string * Z)) (s : state W) :
  let paths := map fst used_files in
  let oks := snd (remove_each (world s) paths) in
  let K := Z.of_nat (length used_files) in
  let deleted := count true oks in
  let failed := count false oks in
  delete_files used_files s
  = (Returned tt,
     mkState (fst (remove_each (world s) paths)) (stdout s) (stdin s)
       (log s ++ removal_errors paths oks ++ [InfoDeletionComplete deleted failed])
       (calls s ++ removals paths oks))
  /\ length oks = length used_files
  /\ deleted + failed = K
  /\ (Forall (fun ok => ok = true) oks -> deleted = K /\ failed = 0)
  /\ (failed = 1 -> deleted = K - 1).
Proof.
  intros paths oks K deleted failed.
  assert (Hl : length oks = length used_files).
  { unfold oks, paths. now rewrite remove_each_length, length_map. }
  pose proof (count_total oks) as Ht. rewrite Hl in Ht.
  split.
  { unfold delete_files, bind. rewrite delete_loop_run. cbv zeta.
    fold paths. fold oks. unfold logging. cbn [fst snd world stdout stdin log calls].
    rewrite <- app_assoc. reflexivity. }
  split; [exact Hl|]. split; [exact Ht|]. split.
  - intros Hall. apply count_all_true in Hall. fold failed in Hall. lia.
  - lia.
Qed.

End DeleteFacts.

(** ** The renderings compared *)

Lemma code_chr (n : Z) : 0 <= n < 256 -> code (chr n) = n.
Proof.
  intros H. unfold code, chr. rewrite nat_ascii_embedding; lia.
Qed.

Lemma all_chars_app (f : ascii -> bool) (a b : string) :
  all_chars f (a ++ b) = all_chars f a && all_chars f b.
Proof.
  induction a as [|c a IH]; simpl; [reflexivity|].
  now rewrite IH, andb_assoc.
Qed.

Lemma all_chars_impl (f g : ascii -> bool) (s : string) :
  (forall c, f c = true -> g c = true) ->
  all_chars f s = true -> all_chars g s = true.
Proof.
  intros H. induction s as [|c s IH]; simpl; [reflexivity|].
  rewrite !andb_true_iff. intros [Hc Hs]. auto.
Qed.

Lemma digit_char_plain (d : Z) : 0 <= d < 10 -> plain_char (digit_char d) = true.
Proof.
  intros H. unfold plain_char, digit_char. rewrite code_chr by lia.
  assert (Hd : d = 0 \/ d = 1 \/ d = 2 \/ d = 3 \/ d = 4
               \/ d = 5 \/ d = 6 \/ d = 7 \/ d = 8 \/ d = 9) by lia.
  repeat (destruct Hd as [->|Hd]; [reflexivity|]). now subst.
Qed.

Lemma digits_loop_plain (fuel : nat) :
  forall (n : Z) (acc : string),
    all_chars plain_char acc = true ->
    all_chars plain_char (digits_loop fuel n acc) = true.
Proof.
  induction fuel as [|fuel IH]; intros n acc Hacc; simpl; [assumption|].
  assert (Hd : all_chars plain_char (String (digit_char (n mod 10)) acc) = true).
  { simpl. rewrite Hacc, digit_char_plain; [reflexivity|].
    apply Z.mod_pos_bound. lia. }
  destruct (n <? 10); [exact Hd | now apply IH].
Qed.

Lemma digits_plain (n : Z) : all_chars plain_char (digits n) = true.
Proof. unfold digits. now apply digits_loop_plain. Qed.

Lemma str_of_int_plain (n : Z) : all_chars plain_char (str_of_int n) = true.
Proof.
  unfold str_of_int. destruct (n <? 0); [|apply digits_plain].
  rewrite all_chars_app, digits_plain. reflexivity.
Qed.

Lemma format_2f_plain (num den : Z) : all_chars plain_char (format_2f num den) = true.
Proof.
  unfold format_2f. rewrite !all_chars_app, digits_plain. simpl.
  rewrite !digit_char_plain by (apply Z.mod_pos_bound; lia).
  destruct (round_half_even (num * 100) den <? 0); reflexivity.
Qed.

Lemma format_size_loop_plain (us : list string) :
  Forall (fun u => all_chars plain_char u = true) us ->
  forall num den, all_chars plain_char (format_size_loop num den us) = true.
Proof.
  induction 1 as [|u rest Hu _ IH]; intros num den; [reflexivity|].
  cbn [format_size_loop].
  destruct ((num <? 1024 * den) || (u =? last units "")%string); [|apply IH].
  rewrite !all_chars_app, format_2f_plain, Hu. reflexivity.
Qed.

Lemma format_size_plain (n : Z) : all_chars plain_char (format_size n) = true.
Proof.
  unfold format_size. apply format_size_loop_plain.
  unfold units. repeat constructor.
Qed.

Lemma plain_upto_tilde (c : ascii) : plain_char c = true -> upto_tilde c = true.
Proof.
  unfold plain_char, upto_tilde. rewrite !andb_true_iff. tauto.
Qed.

Lemma plain_not_special (c : ascii) : plain_char c = true -> csv_special c = false.
Proof.
  unfold plain_char, csv_special.
  rewrite !andb_true_iff, !negb_true_iff, !orb_false_iff, !Z.leb_le, !Z.eqb_neq.
  lia.
Qed.

Lemma plain_needs_no_quotes (s : string) :
  all_chars plain_char s = true -> csv_needs_quotes s = false.
Proof.
  induction s as [|c s IH]; simpl; [reflexivity|].
  rewrite andb_true_iff. intros [Hc Hs].
  now rewrite (plain_not_special c Hc), IH.
Qed.

Lemma json_char_same (c : ascii) :
  upto_tilde c = true -> json_char_ascii c = json_char_raw c.
Proof.
  unfold upto_tilde, json_char_ascii, json_char_raw. intros H.
  apply Z.leb_le in H.
  destruct (126 <? code c) eqn:E; [apply Z.ltb_lt in E; lia|].
  now rewrite orb_false_r.
Qed.

Lemma json_str_same (s : string) :
  all_chars upto_tilde s = true -> json_str true s = json_str false s.
Proof.
  intros H. unfold json_str. f_equal. f_equal.
  induction s as [|c s IH]; simpl in *; [reflexivity|].
  apply andb_true_iff in H. destruct H as [Hc Hs].
  now rewrite (json_char_same c Hc), IH.
Qed.

Lemma json_dumps_same (used_files : list (string * Z)) :
  Forall (fun r => all_chars upto_tilde (fst r) = true) used_files ->
  json_dumps true used_files = json_dumps false used_files.
Proof.
  intros H.
  assert (Hmap : map (json_record true) used_files
                 = map (json_record false) used_files).
  { induction H as [|[fp fs] rest Hfp _ IH]; [reflexivity|].
    cbn [map]. rewrite IH. f_equal.
    unfold json_record. cbv beta iota. cbn [fst] in Hfp.
    rewrite (json_str_same fp Hfp).
    rewrite (json_str_same (format_size fs))
      by (eapply all_chars_impl; [apply plain_upto_tilde | apply format_size_plain]).
    reflexivity. }
  unfold json_dumps. rewrite Hmap. reflexivity.
Qed.

Lemma csv_field_plain (s : string) : csv_needs_quotes s = false -> csv_field s = s.
Proof. intros H. unfold csv_field. now rewrite H. Qed.

Lemma csv_file_text_lines (used_files : list (string * Z)) :
  Forall (fun r => csv_needs_quotes (fst r) = false) used_files ->
  csv_file_text used_files
  = concat_strings (map (fun l => l ++ cr ++ newline) (csv_lines used_files)).
Proof.
  intros H.
  assert (Hrows :
            concat_strings
              (map (fun r : string * Z =>
                      let '(fp, fs) := r in
                      csv_writerow [fp; str_of_int fs; format_size fs]) used_files)
            = concat_strings
                (map (fun l => l ++ cr ++ newline) (map csv_display_row used_files))).
  { induction H as [|[fp fs] rest Hfp _ IH]; [reflexivity|].
    cbn [map concat_strings]. rewrite IH. f_equal.
    unfold csv_writerow, csv_display_row. cbn [map join]. cbn [fst] in Hfp.
    rewrite (csv_field_plain fp Hfp).
    rewrite (csv_field_plain (str_of_int fs))
      by apply plain_needs_no_quotes, str_of_int_plain.
    rewrite (csv_field_plain (format_size fs))
      by apply plain_needs_no_quotes, format_size_plain.
    reflexivity. }
  unfold csv_file_text, csv_lines. rewrite Hrows. reflexivity.
Qed.

Lemma csv_stdout_text_lines (used_files : list (string * Z)) :
  csv_header ++ newline
  ++ concat_strings (map (fun r => csv_display_row r ++ newline) used_files)
  = concat_strings (map (fun l => l ++ newline) (csv_lines used_files)).
Proof.
  unfold csv_lines. cbn [map concat_strings].
  rewrite append_assoc, map_map. reflexivity.
Qed.

Section SavedReport.
Context {W : Type} {os : OS W}.
Variable tabulate : list (string * string) -> list string -> string.

Lemma saved_format_known (fmt : string) :
  In fmt ["table"; "json"; "csv"] -> saved_format (Some fmt) = fmt.
Proof.
  intros [<-|[<-|[<-|[]]]]; reflexivity.
Qed.

(** C6, amended. When an output path is supplied and the result set is not
    empty, the file is written from the same list in the same format as the
    rendering on standard output, but the two texts are not always the
    same. table: the file is the grid, standard output has the line
    "Large files found:" before it. json: the two agree when no path has a
    character above the tilde, which standard output escapes and the file
    keeps. csv: the file has the lines of standard output, ended by CR LF,
    when no path has a comma, a quote, a CR or an LF; such a path is
    quoted in the file and not on standard output. *)
Theorem saved_report_and_stdout (large_files : list (string * Z))
    (output_file : string) (limit : option Z) (fmt : string) (s : state W) :
  large_files <> [] ->
  str_truthy output_file = true ->
  In fmt ["table"; "json"; "csv"] ->
  let used_files := apply_limit large_files limit in
  let saved := file_text tabulate fmt used_files in
  let shown := stdout_text tabulate (Some fmt) used_files in
  (exists o s',
     display_large_files tabulate large_files (Some output_file) limit (Some fmt) s
     = (o, s')
     /\ stdout s' = (stdout s ++ shown)%string
     /\ (o = Returned used_files \/ o = Raised OSError)
     /\ (o = Returned used_files ->
         exists pre ok, calls s' = (pre ++ [CallWrite output_file saved ok])%list)
     /\ (forall p text ok,
           In (CallWrite p text ok) (calls s') ->
           In (CallWrite p text ok) (calls s) \/ (p = output_file /\ text = saved)))
  /\ (fmt = "table" ->
      shown = newline ++ "Large files found:" ++ newline ++ saved ++ newline)
  /\ (fmt = "json" ->
      Forall (fun r => all_chars upto_tilde (fst r) = true) used_files ->
      shown = saved ++ newline)
  /\ (fmt = "csv" ->
      Forall (fun r => csv_needs_quotes (fst r) = false) used_files ->
      shown = concat_strings (map (fun l => l ++ newline) (csv_lines used_files))
      /\ saved = concat_strings (map (fun l => l ++ cr ++ newline) (csv_lines used_files))).
Proof.
  intros Hne Hout Hfmt used_files saved shown.
  split; [|split; [|split]].
  - destruct (display_large_files_cases tabulate large_files (Some output_file)
                limit (Some fmt) s Hne)
      as [(Hno & _)|[(f & s2 & Hf & _ & _ & Hrun & Ho & _ & Hc)
                    |(f & s2 & Hf & _ & _ & Ho & _ & Hc & Hrun)]].
    + simpl in Hno. congruence.
    + injection Hf as <-. exists (Raised OSError), s2.
      split; [exact Hrun|]. split; [rewrite Ho; reflexivity|].
      split; [now right|]. split; [discriminate|].
      intros p text ok Hin. rewrite Hc in Hin. simpl in Hin.
      apply in_app_or in Hin. destruct Hin as [Hin|[Hin|[]]];
        [now left | discriminate].
    + injection Hf as <-. cbv zeta in Hrun.
      rewrite (saved_format_known fmt Hfmt) in Hrun. fold used_files saved in Hrun.
      eexists. eexists. split; [exact Hrun|]. simpl.
      split; [rewrite Ho; reflexivity|]. split; [now left|].
      split; [intros _; eauto|].
      intros p text ok Hin. apply in_app_or in Hin.
      destruct Hin as [Hin|[Hin|[]]].
      * left. destruct Hc as [Hc|Hc]; rewrite Hc in Hin; simpl in Hin;
          [exact Hin|].
        apply in_app_or in Hin. destruct Hin as [Hin|[Hin|[]]];
          [exact Hin | discriminate].
      * right. injection Hin as <- <- _. auto.
  - intros ->. reflexivity.
  - intros -> Hpaths. unfold shown, saved, stdout_text, file_text. simpl.
    now rewrite (json_dumps_same used_files Hpaths).
  - intros -> Hpaths. split.
    + unfold shown, stdout_text. simpl format_is. cbv iota.
      apply csv_stdout_text_lines.
    + unfold saved, file_text. simpl String.eqb. cbv iota.
      now apply csv_file_text_lines.
Qed.

End SavedReport.

(** ** Failures while saving the report *)

Section SaveFailures.
Context {W : Type} {os : OS W}.
Variable tabulate : list (string * string) -> list string -> string.

(** A write that fails is logged; the summary follows and the list is
    returned, so the caller goes on to the deletion. *)
Lemma write_failure_is_logged (large_files : list (string * Z))
    (output_file : string) (limit : option Z) (output_format : option string)
    (s s2 : state W) :
  large_files <> [] ->
  str_truthy output_file = true ->
  let used_files := apply_limit large_files limit in
  let s1 := printed s (stdout_text tabulate output_format used_files) in
  let text := file_text tabulate (saved_format output_format) used_files in
  ensure_parent_dir output_file s1 = (Returned tt, s2) ->
  snd (write_text (world s2) output_file text) = false ->
  exists s',
    display_large_files tabulate large_files (Some output_file) limit
      output_format s = (Returned used_files, s')
    /\ stdout s' = stdout s1
    /\ log s' = (log s ++ [ErrorSaveFailed output_file;
                           InfoSummary (Z.of_nat (length used_files))
                             (sum_sizes used_files)])%list.
Proof.
  intros Hne Hout used_files s1 text He Hw.
  destruct (display_large_files_cases tabulate large_files (Some output_file)
              limit output_format s Hne)
    as [(Hno & _)|[(f & s3 & Hf & _ & He' & _)
                  |(f & s3 & Hf & _ & He' & Ho & Hl & _ & Hrun)]].
  - simpl in Hno. congruence.
  - injection Hf as <-. fold used_files s1 in He'. congruence.
  - injection Hf as <-. fold used_files s1 in He'.
    assert (s3 = s2) by congruence. subst s3.
    cbv zeta in Hrun. fold used_files text in Hrun. rewrite Hw in Hrun.
    eexists. split; [exact Hrun|]. simpl. rewrite Hl. auto.
Qed.

(** A parent directory that cannot be made: [OSError] leaves
    [display_large_files] after the rendering on standard output; no
    summary is logged and nothing is returned. *)
Lemma makedirs_failure_escapes (large_files : list (string * Z))
    (output_file : string) (limit : option Z) (output_format : option string)
    (s : state W) :
  large_files <> [] ->
  str_truthy output_file = true ->
  let parent := parent_of (world s) output_file in
  str_truthy parent = true ->
  path_exists (world s) parent = false ->
  snd (makedirs (world s) parent) = false ->
  exists s',
    display_large_files tabulate large_files (Some output_file) limit
      output_format s = (Raised OSError, s')
    /\ log s' = log s
    /\ calls s' = (calls s ++ [CallMakedirs parent false])%list.
Proof.
  intros Hne Hout parent Hp Hx Hm.
  destruct (display_large_files_cases tabulate large_files (Some output_file)
              limit output_format s Hne)
    as [(Hno & _)|[(f & s2 & Hf & _ & _ & Hrun & _ & Hl & Hc)
                  |(f & s2 & Hf & _ & He & _)]].
  - simpl in Hno. congruence.
  - injection Hf as <-. exists s2. auto.
  - injection Hf as <-. exfalso. revert He.
    unfold ensure_parent_dir, os_makedirs. run. fold parent.
    rewrite Hp, Hx. simpl.
    destruct (makedirs (world s) parent) as [w' ok]. simpl in Hm. subst ok.
    simpl. discriminate.
Qed.

End SaveFailures.

(** * The program on concrete inputs *)

Example lower_ex : lower "A.Mp4" = "a.mp4".
Proof. reflexivity. Qed.

Example strip_ex : strip "  .Log  " = ".Log".
Proof. reflexivity. Qed.

Example splitext_ex1 : splitext_ext "movie.tar.GZ" = ".GZ".
Proof. reflexivity. Qed.

Example splitext_ex2 : splitext_ext ".bashrc" = "".
Proof. reflexivity. Qed.

Example splitext_ex3 : splitext_ext "..a.b" = ".b".
Proof. reflexivity. Qed.

Example normalize_ex :
  normalize_ext_list (Some ["MP4"; " "; ""; ".Pdf "]) = Some [".mp4"; ".pdf"].
Proof. reflexivity. Qed.

Example normalize_blank : normalize_ext_list (Some [" "; ""]) = None.
Proof. reflexivity. Qed.

Example format_size_1536 : format_size 1536 = "1.50 KB".
Proof. reflexivity. Qed.

Example format_size_big : format_size (2048 * 1024 * 1024 * 1024 * 1024) = "2048.00 TB".
Proof. reflexivity. Qed.

(** A count of 54 bits is rounded to a double first: the exact quotient
    would be shown as 8192.09. *)
Example format_size_rounded :
  float_of_int 9007292713229353 = 9007292713229352
  /\ format_size 9007292713229353 = "8192.08 TB"
  /\ format_2f 9007292713229353 (1024 ^ 4) = "8192.09".
Proof. vm_compute. repeat split. Qed.

(** The values the specification lists for [format_size]. *)
Example format_size_values :
  format_size 0 = "0.00 B" /\ format_size 1023 = "1023.00 B"
  /\ format_size 1024 = "1.00 KB" /\ format_size (1024 * 1024) = "1.00 MB".
Proof. repeat split. Qed.

Example json_dumps_ex :
  json_dumps true [("/d/a.bin", 2048)]
  = "[" ++ newline
    ++ "  {" ++ newline
    ++ "    " ++ dquote ++ "file_path" ++ dquote ++ ": " ++ dquote ++ "/d/a.bin" ++ dquote ++ "," ++ newline
    ++ "    " ++ dquote ++ "size_bytes" ++ dquote ++ ": 2048," ++ newline
    ++ "    " ++ dquote ++ "size_human" ++ dquote ++ ": " ++ dquote ++ "2.00 KB" ++ dquote ++ newline
    ++ "  }" ++ newline
    ++ "]".
Proof. reflexivity. Qed.

Example csv_field_ex : csv_field "a,b" = dquote ++ "a,b" ++ dquote.
Proof. reflexivity. Qed.

Example str_of_int_ex : str_of_int 104857600 = "104857600".
Proof. reflexivity. Qed.

Example grid_ex :
  grid [("/d/b.txt", "200.00 B")] table_headers
  = join newline
      ["+-----------+----------+";
       "| File Path | Size     |";
       "+===========+==========+";
       "| /d/b.txt  | 200.00 B |";
       "+-----------+----------+"].
Proof. reflexivity. Qed.

(** The scan of [/d] with threshold 100: the file of 50 bytes is left out,
    the others come largest first, the two of 150 bytes in the order of
    enumeration; each of the five candidates is probed once. *)
Example demo_scan :
  find_large_files ["/d"] 100 None None None [] demo_state
  = (Returned demo_files, demo_scanned)
  /\ calls demo_scanned = demo_probes
  /\ log demo_scanned = [InfoTotalCandidates 5].
Proof. vm_compute. repeat split. Qed.

(** Another pool size and schedule: the same list, the probes in another order. *)
Example demo_scan_scheduled :
  let r := find_large_files ["/d"] 100 None None (Some 3) [2; 1; 5; 0]%nat demo_state in
  fst r = Returned demo_files
  /\ calls (snd r)
     = [CallGetsize "/d/c.bin"; CallGetsize "/d/b.txt"; CallGetsize "/d/sub/x.BIN";
        CallGetsize "/d/a.bin"; CallGetsize "/d/e,f.bin"].
Proof. vm_compute. repeat split. Qed.

(** The write of the report fails: that is logged, and the summary and the
    deletion follow. *)
Example demo_write_failure :
  let s' := snd (main_try grid ["/d"] 100
                   (demo_args (Some "/out/locked.txt") "csv") [] demo_state) in
  log s' = [InfoTotalCandidates 5; ErrorSaveFailed "/out/locked.txt";
            InfoSummary 4 800; InfoDeletionComplete 4 0]
  /\ calls s'
     = (demo_probes
        ++ [CallWrite "/out/locked.txt" (csv_file_text demo_files) false;
            CallRemove "/d/e,f.bin" true; CallRemove "/d/b.txt" true;
            CallRemove "/d/c.bin" true; CallRemove "/d/sub/x.BIN" true])%list.
Proof. vm_compute. repeat split. Qed.

(** C8. The parent directory of the output file cannot be made: the
    rendering is on standard output, but [OSError] leaves
    [display_large_files]; the run logs an unexpected error, no summary is
    logged and no file is removed, although deletion was asked for. *)
Theorem main_try_makedirs_failure :
  let s' := snd (main_try grid ["/d"] 100
                   (demo_args (Some "/ro/sub/r.csv") "csv") [] demo_state) in
  log s' = [InfoTotalCandidates 5; ExceptionUnexpected OSError]
  /\ calls s' = (demo_probes ++ [CallMakedirs "/ro/sub" false])%list
  /\ stdout s' = stdout_text grid (Some "csv") demo_files.
Proof. vm_compute. repeat split. Qed.

(** C4. With the limit 0 the list of four is displayed and returned
    whole, where the first min(0, 4) = 0 entries are due: line 119 tests
    [if limit], and 0 is false like [None]. The limit 1 is applied. The
    limit 0 is what [--limit 0] and the answer [0] to the limit question
    give ([None] is what no answer gives); with the deletion on, all four
    files are then removed. *)
Theorem display_large_files_limit_zero :
  let limited (N : Z) :=
    fst (display_large_files grid demo_files None (Some N) (Some "csv") demo_state) in
  let run :=
    main_try grid ["/d"] 100
      (mkArgs None None None None (Some 0) (Some "csv") true true) [] demo_state in
  limited 0 = Returned demo_files
  /\ Z.of_nat (length demo_files) <> Z.min 0 (Z.of_nat (length demo_files))
  /\ limited 1 = Returned [("/d/e,f.bin", 300)]
  /\ answered_limit demo_int "0" = Some (Some 0)
  /\ answered_limit demo_int "" = Some None
  /\ calls (snd run)
     = (demo_probes
        ++ [CallRemove "/d/e,f.bin" true; CallRemove "/d/b.txt" true;
            CallRemove "/d/c.bin" true; CallRemove "/d/sub/x.BIN" true])%list
  /\ mem_sizes (world (snd run)) = [("/d/a.bin", 50)].
Proof.
  vm_compute. repeat split. discriminate.
Qed.

(** The two messages logged before the scan, with the filters as they
    are after the override flags. *)
Example main_before_try_messages :
  log (snd (main_before_try demo_getcwd demo_abspath demo_int 3 false
              (mkNamespace "/d, sub" 100 None (ExtString ".tmp, log") (Some 3)
                 (ExtList [".bin"; "TXT"]) false true (Some "csv") None None
                 true false)
              demo_state))
  = [InfoScanningDirectories ["/d"; "/cwd/sub"] 100;
     InfoFilters "ALL" ".tmp, log"].
Proof. vm_compute. reflexivity. Qed.

(** One of three targets is gone at delete time: the two others are
    removed, one failure is logged and counted. *)
Example delete_files_one_absent :
  let s' :=
    snd (delete_files [("/d/a.bin", 50); ("/d/gone.bin", 1); ("/d/c.bin", 150)]
           demo_state) in
  log s' = [ErrorDeleteFailed "/d/gone.bin"; InfoDeletionComplete 2 1]
  /\ calls s' = [CallRemove "/d/a.bin" true; CallRemove "/d/gone.bin" false;
                 CallRemove "/d/c.bin" true]
  /\ mem_sizes (world s')
     = [("/d/b.txt", 200); ("/d/sub/x.BIN", 150); ("/d/e,f.bin", 300)].
Proof. vm_compute. repeat split. Qed.

(** C5, as stated, fails at workers = 0: the executor refuses the pool
    size and nothing is returned, where the default pool returns the list. *)
Lemma find_large_files_workers_zero :
  fst (find_large_files ["/d"] 100 None None (Some 0) [] demo_state)
  = Raised ValueError
  /\ fst (find_large_files ["/d"] 100 None None None [] demo_state)
     = Returned demo_files.
Proof. vm_compute. split; reflexivity. Qed.

(** C6, as stated, fails for csv on a path with a comma: the file has the
    path in quotes and lines ended by CR LF, standard output has neither. *)
Lemma saved_csv_differs_from_stdout :
  let s' := snd (display_large_files grid [("/d/e,f.bin", 300)]
                   (Some "/out/r.csv") None (Some "csv") demo_state) in
  let shown := csv_header ++ newline ++ "/d/e,f.bin,300,300.00 B" ++ newline in
  let saved := csv_header ++ cr ++ newline
               ++ dquote ++ "/d/e,f.bin" ++ dquote ++ ",300,300.00 B"
               ++ cr ++ newline in
  stdout s' = shown
  /\ calls s' = [CallWrite "/out/r.csv" saved true]
  /\ saved <> shown.
Proof.
  vm_compute. split; [reflexivity|]. split; [reflexivity | discriminate].
Qed.

(** ** The theorems at concrete inputs *)

Lemma find_large_files_above_threshold_witness :
  100 < 200 /\ getsize (world demo_state) "/d/b.txt" = Some 200.
Proof.
  apply (find_large_files_above_threshold ["/d"] 100 None None None []
           demo_state demo_scanned demo_files "/d/b.txt" 200).
  - vm_compute. reflexivity.
  - simpl. auto.
Defined.

Lemma find_large_files_sorted_descending_witness :
  snd (nth 0 demo_files ("", 0)) >= snd (nth 2 demo_files ("", 0)).
Proof.
  apply (find_large_files_sorted_descending ["/d"] 100 None None None []
           demo_state demo_scanned demo_files 0 2 ("", 0)).
  - vm_compute. reflexivity.
  - simpl. lia.
Defined.

Lemma find_large_files_same_for_all_workers_witness :
  exists files order1 order2 s1 s2,
    find_large_files ["/d"] 100 None None None [] demo_state = (Returned files, s1)
    /\ find_large_files ["/d"] 100 None None (Some 3) [2; 1; 5; 0]%nat demo_state
       = (Returned files, s2)
    /\ calls s1 = (calls demo_state ++ map CallGetsize order1)%list
    /\ calls s2 = (calls demo_state ++ map CallGetsize order2)%list
    /\ Permutation order1
         (candidate_paths (world demo_state) (normalize_ext_list None)
            (normalize_ext_list None) ["/d"])
    /\ Permutation order2
         (candidate_paths (world demo_state) (normalize_ext_list None)
            (normalize_ext_list None) ["/d"]).
Proof.
  apply (find_large_files_same_for_all_workers ["/d"] 100 None None
           None (Some 3) [] [2; 1; 5; 0]%nat demo_state).
  - exact I.
  - simpl. lia.
Defined.

Lemma find_large_files_ties_in_enumeration_order_witness :
  map fst (filter (size_is 150) demo_files)
  = filter (has_size (world demo_state) 150)
      (candidate_paths (world demo_state) (normalize_ext_list None)
         (normalize_ext_list None) ["/d"]).
Proof.
  apply (find_large_files_ties_in_enumeration_order ["/d"] 100 None None None []
           demo_state demo_scanned demo_files 150).
  - vm_compute. reflexivity.
  - lia.
Defined.

Lemma display_large_files_limit_witness :
  let used_files := if 2 =? 0 then demo_files else firstn (Z.to_nat 2) demo_files in
  (0 < 2 -> Z.of_nat (length used_files) = Z.min 2 (Z.of_nat (length demo_files)))
  /\ (forall r s',
        display_large_files grid demo_files (Some "/out/r.csv") (Some 2)
          (Some "csv") demo_state = (Returned r, s') ->
        r = used_files)
  /\ (exists s',
        display_large_files grid demo_files None (Some 2) (Some "csv") demo_state
        = (Returned used_files, s'))
  /\ (demo_files <> [] ->
      forall o s',
        display_large_files grid demo_files (Some "/out/r.csv") (Some 2)
          (Some "csv") demo_state = (o, s') ->
        stdout s' = (stdout demo_state ++ stdout_text grid (Some "csv") used_files)%string).
Proof.
  apply (display_large_files_limit grid demo_files (Some "/out/r.csv") 2
           (Some "csv") demo_state).
  lia.
Defined.

Lemma saved_report_and_stdout_witness :
  let used_files := apply_limit [("/d/b.txt", 200)] None in
  let saved := file_text grid "csv" used_files in
  let shown := stdout_text grid (Some "csv") used_files in
  (exists o s',
     display_large_files grid [("/d/b.txt", 200)] (Some "/out/r.csv") None
       (Some "csv") demo_state = (o, s')
     /\ stdout s' = (stdout demo_state ++ shown)%string
     /\ (o = Returned used_files \/ o = Raised OSError)
     /\ (o = Returned used_files ->
         exists pre ok, calls s' = (pre ++ [CallWrite "/out/r.csv" saved ok])%list)
     /\ (forall p text ok,
           In (CallWrite p text ok) (calls s') ->
           In (CallWrite p text ok) (calls demo_state)
           \/ (p = "/out/r.csv" /\ text = saved)))
  /\ ("csv" = "table" ->
      shown = newline ++ "Large files found:" ++ newline ++ saved ++ newline)
  /\ ("csv" = "json" ->
      Forall (fun r => all_chars upto_tilde (fst r) = true) used_files ->
      shown = saved ++ newline)
  /\ ("csv" = "csv" ->
      Forall (fun r => csv_needs_quotes (fst r) = false) used_files ->
      shown = concat_strings (map (fun l => l ++ newline) (csv_lines used_files))
      /\ saved = concat_strings (map (fun l => l ++ cr ++ newline) (csv_lines used_files))).
Proof.
  apply (saved_report_and_stdout grid [("/d/b.txt", 200)] "/out/r.csv" None "csv"
           demo_state).
  - discriminate.
  - reflexivity.
  - simpl. auto.
Defined.

Lemma unreadable_candidate_is_dropped_witness :
  process_file "/d/gone.bin" 100 demo_state
  = (Returned None,
     mkState (world demo_state) (stdout demo_state) (stdin demo_state)
       (log demo_state ++ [ErrorAccessingFile "/d/gone.bin"])
       (calls demo_state ++ [CallGetsize "/d/gone.bin"])).
Proof.
  apply (unreadable_candidate_is_dropped "/d/gone.bin" 100 demo_state).
  reflexivity.
Defined.

Lemma write_failure_is_logged_witness :
  exists s',
    display_large_files grid demo_files (Some "/out/locked.txt") None
      (Some "json") demo_state
    = (Returned (apply_limit demo_files None), s')
    /\ stdout s'
       = stdout (printed demo_state
                   (stdout_text grid (Some "json") (apply_limit demo_files None)))
    /\ log s'
       = (log demo_state
          ++ [ErrorSaveFailed "/out/locked.txt";
              InfoSummary (Z.of_nat (length (apply_limit demo_files None)))
                (sum_sizes (apply_limit demo_files None))])%list.
Proof.
  apply (write_failure_is_logged grid demo_files "/out/locked.txt" None
           (Some "json") demo_state
           (printed demo_state
              (stdout_text grid (Some "json") (apply_limit demo_files None)))).
  - discriminate.
  - reflexivity.
  - reflexivity.
  - reflexivity.
Defined.

(** * Further properties *)

(** ** The scan as a whole *)

Lemma insert_desc_head (x : string * Z) (l : list (string * Z)) :
  Forall (fun z => snd z <= snd x) l -> insert_desc x l = x :: l.
Proof.
  destruct l as [|y r]; [reflexivity|]. intros H. inversion H; subst. simpl.
  destruct (snd x <? snd y) eqn:E; [apply Z.ltb_lt in E; lia | reflexivity].
Qed.

Lemma filter_insert_desc (P : string * Z -> bool) (x : string * Z)
    (l : list (string * Z)) :
  StronglySorted size_desc l ->
  filter P (insert_desc x l)
  = if P x then insert_desc x (filter P l) else filter P l.
Proof.
  induction 1 as [|y r Hs IH Hy]; simpl.
  - destruct (P x); reflexivity.
  - destruct (snd x <? snd y) eqn:E; simpl.
    + rewrite IH. destruct (P x), (P y); simpl; try rewrite E; reflexivity.
    + apply Z.ltb_ge in E. destruct (P x) eqn:Ex; [|reflexivity].
      symmetry. apply insert_desc_head.
      assert (Hall : Forall (fun z => snd z <= snd x) (y :: r)).
      { constructor; [exact E|]. eapply Forall_impl; [|exact Hy].
        intros z Hz. unfold size_desc in Hz. lia. }
      change (Forall (fun z => snd z <= snd x) (filter P (y :: r))).
      rewrite Forall_forall in *. intros z Hz. apply Hall.
      apply filter_In in Hz. tauto.
Qed.

Lemma filter_sort_by_size_desc (P : string * Z -> bool) (l : list (string * Z)) :
  filter P (sort_by_size_desc l) = sort_by_size_desc (filter P l).
Proof.
  induction l as [|x r IH]; [reflexivity|]. simpl.
  rewrite filter_insert_desc by apply sort_by_size_desc_sorted.
  rewrite IH. destruct (P x); reflexivity.
Qed.

Section WholeScan.
Context {W : Type} {os : OS W}.

Lemma candidate_paths_app (w : W) (inc exc : option (list string))
    (d1 d2 : list string) :
  candidate_paths w inc exc (d1 ++ d2)
  = (candidate_paths w inc exc d1 ++ candidate_paths w inc exc d2)%list.
Proof.
  induction d1 as [|d rest IH]; simpl; [reflexivity|].
  destruct (isdir w d); [rewrite IH, app_assoc|]; auto.
Qed.

Lemma qualifying_app (w : W) (size_threshold : Z) (p1 p2 : list string) :
  qualifying w size_threshold (p1 ++ p2)
  = (qualifying w size_threshold p1 ++ qualifying w size_threshold p2)%list.
Proof.
  unfold qualifying. induction p1 as [|p rest IH]; simpl; [reflexivity|].
  destruct (probe w size_threshold p); simpl; now rewrite IH.
Qed.

Lemma probe_eq (w : W) (size_threshold : Z) (p : string) :
  probe w size_threshold p
  = match getsize w p with
    | Some z => if size_threshold <? z then Some (p, z) else None
    | None => None
    end.
Proof. reflexivity. Qed.

Lemma qualifying_raise (w : W) (low high : Z) (file_paths : list string) :
  low <= high ->
  qualifying w high file_paths
  = filter (fun r => high <? snd r) (qualifying w low file_paths).
Proof.
  intros Hle. unfold qualifying.
  induction file_paths as [|p rest IH]; [reflexivity|].
  cbn [map collect_results]. rewrite !(probe_eq w _ p).
  destruct (getsize w p) as [z|]; [|exact IH].
  destruct (high <? z) eqn:Eh; destruct (low <? z) eqn:El; cbn [filter snd];
    try rewrite Eh; try rewrite IH; try reflexivity.
  apply Z.ltb_lt in Eh. apply Z.ltb_ge in El. lia.
Qed.

Lemma qualifying_count (w : W) (size_threshold : Z) (file_paths : list string)
    (p : string) (sz : Z) :
  getsize w p = Some sz -> size_threshold < sz ->
  count_occ string_dec (map fst (qualifying w size_threshold file_paths)) p
  = count_occ string_dec file_paths p.
Proof.
  intros Hg Hsz. unfold qualifying.
  induction file_paths as [|q rest IH]; [reflexivity|].
  cbn [map collect_results count_occ]. rewrite (probe_eq w _ q).
  destruct (string_dec q p) as [->|Hne].
  - rewrite Hg. destruct (size_threshold <? sz) eqn:E;
      [|apply Z.ltb_ge in E; lia].
    cbn [map fst count_occ]. destruct (string_dec p p); [|congruence].
    now rewrite IH.
  - destruct (getsize w q) as [z|]; [|exact IH].
    destruct (size_threshold <? z); [|exact IH].
    cbn [map fst count_occ]. destruct (string_dec q p); [congruence | exact IH].
Qed.

(** The result of [find_large_files] holds exactly the candidates whose
    size is above the threshold: a pair is in it if and only if its path is
    a candidate of that size, and a path is in it as many times as it was
    enumerated. The sort loses and repeats nothing. *)
Theorem find_large_files_lists_every_large_candidate (directories : list string)
    (size_threshold : Z) (include_types exclude_types : option (list string))
    (workers : option Z) (sched : list nat) (s s' : state W)
    (files : list (string * Z)) :
  find_large_files directories size_threshold include_types exclude_types
    workers sched s = (Returned files, s') ->
  let file_paths :=
    candidate_paths (world s) (normalize_ext_list include_types)
      (normalize_ext_list exclude_types) directories in
  (forall p sz,
     In (p, sz) files <->
     In p file_paths /\ getsize (world s) p = Some sz /\ size_threshold < sz)
  /\ (forall p sz,
        getsize (world s) p = Some sz -> size_threshold < sz ->
        count_occ string_dec (map fst files) p = count_occ string_dec file_paths p).
Proof.
  intros Hrun file_paths. apply find_large_files_returned in Hrun.
  fold file_paths in Hrun. subst files.
  pose proof (sort_by_size_desc_perm (qualifying (world s) size_threshold file_paths))
    as Hperm.
  split.
  - intros p sz. rewrite <- qualifying_in. split; apply Permutation_in;
      [exact Hperm | apply Permutation_sym, Hperm].
  - intros p sz Hg Hsz.
    rewrite <- (qualifying_count _ size_threshold file_paths p sz Hg Hsz).
    apply Permutation_count_occ. now apply Permutation_map.
Qed.

(** With no candidate the executor is never made: [find_large_files]
    returns the empty list for every value of [workers], also one the
    executor would refuse, and probes nothing. *)
Theorem find_large_files_without_candidates (directories : list string)
    (size_threshold : Z) (include_types exclude_types : option (list string))
    (workers : option Z) (sched : list nat) (s : state W) :
  candidate_paths (world s) (normalize_ext_list include_types)
    (normalize_ext_list exclude_types) directories = [] ->
  exists s',
    find_large_files directories size_threshold include_types exclude_types
      workers sched s = (Returned [], s')
    /\ world s' = world s /\ calls s' = calls s /\ stdout s' = stdout s.
Proof.
  intros E. unfold find_large_files.
  destruct (scan_directories_spec (normalize_ext_list include_types)
              (normalize_ext_list exclude_types) directories s)
    as (s1 & Hscan & Hw & Ho & _ & Hc & _).
  unfold bind at 1. rewrite Hscan, E. simpl. unfold bind. simpl.
  eexists. split; [reflexivity|]. simpl. auto.
Qed.

(** Roots add up: the result for the roots [d1 ++ d2] is the results for
    [d1] and for [d2] put together, in some order, so a root given twice
    gives every file under it twice. *)
Theorem find_large_files_roots_add_up (d1 d2 : list string)
    (size_threshold : Z) (include_types exclude_types : option (list string))
    (workers : option Z) (sched sched1 sched2 : list nat) (s : state W) :
  valid_workers workers ->
  exists files files1 files2 s' s1 s2,
    find_large_files (d1 ++ d2) size_threshold include_types exclude_types
      workers sched s = (Returned files, s')
    /\ find_large_files d1 size_threshold include_types exclude_types
         workers sched1 s = (Returned files1, s1)
    /\ find_large_files d2 size_threshold include_types exclude_types
         workers sched2 s = (Returned files2, s2)
    /\ Permutation files (files1 ++ files2).
Proof.
  intros Hv.
  destruct (find_large_files_spec (d1 ++ d2) size_threshold include_types
              exclude_types workers sched s Hv) as (o & s' & Hr & _).
  destruct (find_large_files_spec d1 size_threshold include_types
              exclude_types workers sched1 s Hv) as (o1 & s1 & Hr1 & _).
  destruct (find_large_files_spec d2 size_threshold include_types
              exclude_types workers sched2 s Hv) as (o2 & s2 & Hr2 & _).
  rewrite candidate_paths_app, qualifying_app in Hr.
  do 3 eexists. exists s', s1, s2.
  split; [exact Hr|]. split; [exact Hr1|]. split; [exact Hr2|].
  eapply perm_trans; [apply sort_by_size_desc_perm|].
  apply Permutation_app; apply Permutation_sym, sort_by_size_desc_perm.
Qed.

(** Raising the threshold only takes entries away: the result for the
    higher threshold is the result for the lower one without the entries
    that are not above the higher threshold, in the same order. *)
Theorem find_large_files_raising_threshold (directories : list string)
    (low high : Z) (include_types exclude_types : option (list string))
    (workers : option Z) (sched1 sched2 : list nat) (s s1 s2 : state W)
    (files_low files_high : list (string * Z)) :
  low <= high ->
  find_large_files directories low include_types exclude_types
    workers sched1 s = (Returned files_low, s1) ->
  find_large_files directories high include_types exclude_types
    workers sched2 s = (Returned files_high, s2) ->
  files_high = filter (fun r => high <? snd r) files_low.
Proof.
  intros Hle Hlow Hhigh.
  apply find_large_files_returned in Hlow, Hhigh. subst files_low files_high.
  rewrite filter_sort_by_size_desc, <- (qualifying_raise _ low high) by exact Hle.
  reflexivity.
Qed.

End WholeScan.

(** ** The report as a whole *)

Lemma firstn_min_length {A} (k : nat) (l : list A) :
  firstn (length (firstn k l)) l = firstn k l.
Proof.
  rewrite length_firstn. destruct (Nat.le_gt_cases k (length l)) as [H|H].
  - now rewrite Nat.min_l.
  - rewrite Nat.min_r by lia. now rewrite firstn_all, firstn_all2 by lia.
Qed.

Lemma apply_limit_prefix {A} (l : list A) (limit : option Z) :
  firstn (length (apply_limit l limit)) l = apply_limit l limit.
Proof.
  unfold apply_limit, slice_to.
  destruct (opt_int_truthy limit); [|apply firstn_all].
  destruct limit as [n|]; [|apply firstn_all].
  destruct (n <? 0); apply firstn_min_length.
Qed.

Lemma apply_limit_nil {A} (limit : option Z) : apply_limit (@nil A) limit = [].
Proof.
  unfold apply_limit, slice_to.
  destruct (opt_int_truthy limit); [|reflexivity].
  destruct limit as [n|]; [|reflexivity].
  destruct (n <? 0); apply firstn_nil.
Qed.

Section WholeReport.
Context {W : Type} {os : OS W}.
Variable tabulate : list (string * string) -> list string -> string.

(** What a call of [display_large_files] can do: it returns the limited
    list or [OSError] leaves it; it reads no input; when it is given a list
    that is not empty it prints the rendering of the limited list; the
    system calls it makes are at most one [os.makedirs] on the parent of
    the output file and one write of that file. *)
Lemma display_large_files_frame (large_files : list (string * Z))
    (output_file : option string) (limit : option Z)
    (output_format : option string) (s s' : state W)
    (o : outcome (list (string * Z))) :
  display_large_files tabulate large_files output_file limit output_format s
  = (o, s') ->
  let used_files := apply_limit large_files limit in
  (o = Returned used_files \/ o = Raised OSError)
  /\ stdin s' = stdin s
  /\ (large_files <> [] ->
      stdout s' = (stdout s ++ stdout_text tabulate output_format used_files)%string)
  /\ (o = Returned used_files -> large_files <> [] ->
      exists before,
        log s' = (before ++ [InfoSummary (Z.of_nat (length used_files))
                               (sum_sizes used_files)])%list)
  /\ exists new,
       calls s' = (calls s ++ new)%list
       /\ (opt_str_truthy output_file = false -> new = [] /\ world s' = world s)
       /\ (forall c, In c new ->
             exists f, output_file = Some f
                       /\ ((exists ok, c = CallMakedirs (parent_of (world s) f) ok)
                           \/ (exists ok,
                                 c = CallWrite f
                                       (file_text tabulate (saved_format output_format)
                                          used_files) ok))).
Proof.
  intros Hrun used_files.
  assert (Hd : large_files = [] \/ large_files <> []).
  { destruct large_files; [now left | right; discriminate]. }
  destruct Hd as [He|Hne].
  - unfold used_files. subst large_files. rewrite apply_limit_nil.
    injection Hrun as <- <-. simpl.
    split; [now left|]. split; [reflexivity|]. split; [congruence|].
    split; [congruence|].
    exists []. rewrite app_nil_r. repeat split; auto. intros c [].
  - destruct (display_large_files_cases tabulate large_files output_file limit
                output_format s Hne)
      as [(Hno & H)|[(f & s2 & Hf & Ht & He & H & Ho & Hl & Hc)
                    |(f & s2 & Hf & Ht & He & Ho & Hl & Hc & H)]];
      cbv zeta in H; fold used_files in H |- *; try fold used_files in He;
      rewrite H in Hrun; injection Hrun as <- <-.
    + simpl. split; [now left|]. split; [reflexivity|]. split; [reflexivity|].
      split; [eauto|].
      exists []. rewrite app_nil_r. repeat split; auto. intros c [].
    + destruct (ensure_parent_dir_cases f
                  (printed s (stdout_text tabulate output_format used_files)))
        as [(s3 & He3 & _)|(s3 & He3 & _ & _ & _ & _ & Hi & _)]; [congruence|].
      assert (s3 = s2) by congruence. subst s3. simpl in Hi, Hc, Ho.
      split; [now right|]. split; [exact Hi|]. split; [intros _; exact Ho|].
      split; [discriminate|].
      eexists. split; [exact Hc|]. split.
      * rewrite Hf. simpl. congruence.
      * intros c [<-|[]]. exists f. split; [exact Hf|]. left. eauto.
    + destruct (ensure_parent_dir_cases f
                  (printed s (stdout_text tabulate output_format used_files)))
        as [(s3 & He3 & _ & Hi & _)|(s3 & He3 & _)]; [|congruence].
      assert (s3 = s2) by congruence. subst s3. simpl in Hi, Hc, Ho, Hl |- *.
      split; [now left|]. split; [exact Hi|]. split; [intros _; exact Ho|].
      split.
      { intros _ _.
        match goal with
        | |- exists _, (?a ++ [?x; ?y])%list = _ =>
            exists (a ++ [x])%list; rewrite <- app_assoc; reflexivity
        end. }
      destruct Hc as [Hc|Hc]; rewrite Hc.
      * eexists. split; [reflexivity|]. split.
        -- rewrite Hf. simpl. congruence.
        -- intros c [<-|[]]. exists f. split; [exact Hf|]. right. eauto.
      * eexists. split; [rewrite <- app_assoc; reflexivity|]. split.
        -- rewrite Hf. simpl. congruence.
        -- intros c [<-|[<-|[]]]; exists f; (split; [exact Hf|]);
             [left | right]; eauto.
Qed.

(** The list [display_large_files] returns is always a prefix of the list
    it is given, whatever the limit, and the summary it logs last counts
    and totals the returned list, not the list before the limit. *)
Theorem display_large_files_returns_prefix (large_files : list (string * Z))
    (output_file : option string) (limit : option Z)
    (output_format : option string) (s s' : state W)
    (used_files : list (string * Z)) :
  display_large_files tabulate large_files output_file limit output_format s
  = (Returned used_files, s') ->
  firstn (length used_files) large_files = used_files
  /\ (large_files <> [] ->
      exists before,
        log s' = (before ++ [InfoSummary (Z.of_nat (length used_files))
                               (sum_sizes used_files)])%list).
Proof.
  intros Hrun.
  destruct (display_large_files_frame _ _ _ _ _ _ _ Hrun)
    as ([Ho|Ho] & _ & _ & Hsum & _); [|discriminate].
  injection Ho as ->. split; [apply apply_limit_prefix|].
  intros Hne. now apply Hsum.
Qed.

(** A negative limit is a slice from the end: the last |N| entries are
    left out, and when that leaves nothing an empty report is still
    rendered (and saved), where an empty input gets only the notice. *)
Theorem display_large_files_negative_limit (large_files : list (string * Z))
    (output_file : option string) (N : Z) (output_format : option string)
    (s s' : state W) (o : outcome (list (string * Z))) :
  N < 0 ->
  large_files <> [] ->
  display_large_files tabulate large_files output_file (Some N) output_format s
  = (o, s') ->
  let used_files :=
    firstn (Z.to_nat (Z.of_nat (length large_files) + N)) large_files in
  Z.of_nat (length used_files) = Z.max 0 (Z.of_nat (length large_files) + N)
  /\ (o = Returned used_files \/ o = Raised OSError)
  /\ stdout s' = (stdout s ++ stdout_text tabulate output_format used_files)%string.
Proof.
  intros HN Hne Hrun used_files.
  assert (Hused : apply_limit large_files (Some N) = used_files).
  { unfold apply_limit, slice_to. simpl.
    destruct (N =? 0) eqn:E0; [apply Z.eqb_eq in E0; lia|]. simpl.
    destruct (N <? 0) eqn:E; [reflexivity | apply Z.ltb_ge in E; lia]. }
  destruct (display_large_files_frame _ _ _ _ _ _ _ Hrun)
    as (Ho & _ & Hout & _). rewrite Hused in *.
  split; [|split; [exact Ho | now apply Hout]].
  unfold used_files. rewrite length_firstn. lia.
Qed.

(** The two renderings choose their format differently: standard output
    compares the format as given with "json" and "csv", the file compares
    it in lower case. A format such as "JSON" or "Csv" therefore prints the
    table and saves JSON or CSV. *)
Theorem display_large_files_format_case (large_files : list (string * Z))
    (output_file : string) (limit : option Z) (fmt kind : string)
    (s s' : state W) (o : outcome (list (string * Z))) :
  large_files <> [] ->
  fmt <> "json" -> fmt <> "csv" ->
  lower fmt = kind -> In kind ["json"; "csv"] ->
  display_large_files tabulate large_files (Some output_file) limit (Some fmt) s
  = (o, s') ->
  let used_files := apply_limit large_files limit in
  stdout s'
  = (stdout s ++ newline ++ "Large files found:" ++ newline
     ++ tabulate (table_data used_files) table_headers ++ newline)%string
  /\ forall text ok,
       In (CallWrite output_file text ok) (calls s') ->
       In (CallWrite output_file text ok) (calls s)
       \/ text = (if String.eqb kind "json" then json_dumps false used_files
                  else csv_file_text used_files).
Proof.
  intros Hne Hj Hc Hlow Hkind Hrun used_files.
  destruct (display_large_files_frame _ _ _ _ _ _ _ Hrun)
    as (_ & _ & Hout & _ & new & Hcalls & _ & Hnew).
  fold used_files in Hout, Hnew. split.
  - rewrite (Hout Hne). unfold stdout_text. simpl.
    apply String.eqb_neq in Hj, Hc. now rewrite Hj, Hc.
  - intros text ok Hin. rewrite Hcalls in Hin. apply in_app_or in Hin.
    destruct Hin as [Hin|Hin]; [now left | right].
    destruct (Hnew _ Hin) as (f & Hf & [(b & Heq)|(b & Heq)]); [discriminate|].
    injection Heq as _ -> _.
    assert (Hfmt : saved_format (Some fmt) = kind).
    { unfold saved_format. destruct fmt; [|exact Hlow].
      simpl in Hlow. subst kind. destruct Hkind as [H|[H|[]]]; discriminate. }
    rewrite Hfmt. unfold file_text.
    destruct Hkind as [<-|[<-|[]]]; reflexivity.
Qed.

(** [display_large_files] reads no input, probes and removes no file; the
    only system calls it makes concern the output file (making its parent
    directory, writing it), and without an output path, or with an empty
    one, it makes none and leaves the world as it is. *)
Theorem display_large_files_touches_only_output (large_files : list (string * Z))
    (output_file : option string) (limit : option Z)
    (output_format : option string) (s s' : state W)
    (o : outcome (list (string * Z))) :
  display_large_files tabulate large_files output_file limit output_format s
  = (o, s') ->
  stdin s' = stdin s
  /\ (forall p, In (CallGetsize p) (calls s') -> In (CallGetsize p) (calls s))
  /\ (forall p ok, In (CallRemove p ok) (calls s') -> In (CallRemove p ok) (calls s))
  /\ (forall p text ok,
        In (CallWrite p text ok) (calls s') ->
        In (CallWrite p text ok) (calls s) \/ output_file = Some p)
  /\ (opt_str_truthy output_file = false ->
      calls s' = calls s /\ world s' = world s).
Proof.
  intros Hrun.
  destruct (display_large_files_frame _ _ _ _ _ _ _ Hrun)
    as (_ & Hin & _ & _ & new & Hcalls & Hnone & Hnew).
  split; [exact Hin|]. rewrite Hcalls. repeat split.
  - intros p H. apply in_app_or in H. destruct H as [H|H]; [exact H|].
    destruct (Hnew _ H) as (f & _ & [(b & Heq)|(b & Heq)]); discriminate.
  - intros p ok H. apply in_app_or in H. destruct H as [H|H]; [exact H|].
    destruct (Hnew _ H) as (f & _ & [(b & Heq)|(b & Heq)]); discriminate.
  - intros p text ok H. apply in_app_or in H. destruct H as [H|H]; [now left|].
    destruct (Hnew _ H) as (f & Hf & [(b & Heq)|(b & Heq)]); [discriminate|].
    injection Heq as -> _ _. now right.
  - destruct (Hnone H) as [-> _]. now rewrite app_nil_r.
  - now destruct (Hnone H).
Qed.

End WholeReport.

(** ** The run as a whole *)

Section WholeRun.
Context {W : Type} {os : OS W}.
Variable tabulate : list (string * string) -> list string -> string.

Lemma main_try_eq (directories_to_scan : list string) (size_threshold : Z)
    (args : arguments) (sched : list nat) :
  main_try tabulate directories_to_scan size_threshold args sched
  = try_except
      (large_files <- find_large_files directories_to_scan size_threshold
                        (arg_include args) (arg_exclude args) (arg_workers args)
                        sched ;;
       used_files <- display_large_files tabulate large_files (arg_output args)
                       (arg_limit args) (arg_format args) ;;
       deletion_phase args used_files)
      (fun e => logging (ExceptionUnexpected e)).
Proof. reflexivity. Qed.

(** [find_large_files] returns the sorted qualifying candidates or raises
    [ValueError]; it changes nothing but the log and the record of probes. *)
Lemma find_large_files_frame (directories : list string) (size_threshold : Z)
    (include_types exclude_types : option (list string)) (workers : option Z)
    (sched : list nat) (s s' : state W) (o : outcome (list (string * Z))) :
  find_large_files directories size_threshold include_types exclude_types
    workers sched s = (o, s') ->
  let file_paths :=
    candidate_paths (world s) (normalize_ext_list include_types)
      (normalize_ext_list exclude_types) directories in
  (o = Returned (sort_by_size_desc (qualifying (world s) size_threshold file_paths))
   /\ (valid_workers workers \/ file_paths = [])
   \/ o = Raised ValueError /\ ~ valid_workers workers /\ file_paths <> [])
  /\ exists order,
       (o = Raised ValueError -> order = [])
       /\ (forall p, In p order -> In p file_paths)
       /\ (valid_workers workers -> Permutation order file_paths)
       /\ only_probed s s' order.
Proof.
  intros Hrun file_paths.
  destruct (workers_valid_or_not workers) as [Hv|(n & -> & Hn)].
  - destruct (find_large_files_spec directories size_threshold include_types
                exclude_types workers sched s Hv) as (order & s2 & Hspec & Hp & Hf).
    fold file_paths in Hspec, Hp. rewrite Hspec in Hrun. injection Hrun as <- <-.
    split; [left; auto|]. exists order. split; [discriminate|].
    split; [|split; [intros _; exact Hp | exact Hf]].
    intros p Hin. eapply Permutation_in; eassumption.
  - assert (Hnv : ~ valid_workers (Some n)) by (simpl; lia).
    destruct file_paths as [|p l] eqn:E.
    + unfold find_large_files in Hrun.
      destruct (scan_directories_spec (normalize_ext_list include_types)
                  (normalize_ext_list exclude_types) directories s)
        as (s1 & Hscan & Hw & Ho & Hi & Hc & _).
      unfold bind at 1 in Hrun. rewrite Hscan in Hrun.
      fold file_paths in Hrun. rewrite E in Hrun.
      simpl in Hrun. unfold bind in Hrun. simpl in Hrun.
      injection Hrun as <- <-.
      split; [left; auto|]. exists []. split; [reflexivity|].
      split; [intros ? []|]. split; [intros; contradiction|].
      unfold only_probed. simpl. rewrite app_nil_r. auto.
    + destruct (find_large_files_refused directories size_threshold include_types
                  exclude_types n sched s Hn) as (s2 & Hr & Hc).
      { fold file_paths. rewrite E. discriminate. }
      unfold find_large_files in Hrun, Hr.
      destruct (scan_directories_spec (normalize_ext_list include_types)
                  (normalize_ext_list exclude_types) directories s)
        as (s1 & Hscan & Hw & Ho & Hi & Hc1 & _).
      unfold bind at 1 in Hrun. rewrite Hscan in Hrun.
      fold file_paths in Hrun. rewrite E in Hrun.
      simpl in Hrun. unfold bind in Hrun. simpl in Hrun.
      destruct (n <=? 0) eqn:En; [|apply Z.leb_gt in En; lia].
      simpl in Hrun. injection Hrun as <- <-.
      split; [right; split; [reflexivity|]; split; [exact Hnv | discriminate]|].
      exists []. split; [reflexivity|]. split; [intros ? []|].
      split; [intros; contradiction|].
      unfold only_probed. simpl. rewrite app_nil_r. auto.
Qed.

(** What the deletion phase does, by the flags and the answer. *)
Lemma deletion_phase_cases (args : arguments) (used_files : list (string * Z))
    (s : state W) :
  let go_ahead := arg_delete args && list_truthy used_files in
  let asked :=
    printed
      (printed s ((newline ++ "About to delete "
                   ++ str_of_int (Z.of_nat (length used_files))
                   ++ " files totaling " ++ format_size (sum_sizes used_files)
                   ++ ".") ++ newline))
      "Proceed? (y/N): " in
  deletion_phase args used_files s
  = if go_ahead then
      if arg_yes args then delete_files used_files s
      else match stdin s with
           | [] => (Raised EOFError, asked)
           | answer :: rest =>
               let answered :=
                 mkState (world s) (stdout asked) rest (log s) (calls s) in
               if is_go answer then delete_files used_files answered
               else (Returned tt, logged answered [InfoDeletionCancelled])
           end
    else (Returned tt, s).
Proof.
  intros go_ahead asked. unfold deletion_phase. fold go_ahead.
  destruct go_ahead; [|reflexivity].
  destruct (arg_yes args); cbn [negb]; [reflexivity|].
  unfold bind at 1. rewrite print_spec. unfold bind at 1. unfold input.
  unfold asked, printed. cbn [world stdout stdin log calls].
  destruct (stdin s) as [|answer rest]; [reflexivity|].
  fold (is_go answer). destruct (is_go answer); reflexivity.
Qed.

Lemma delete_files_spec (used_files : list (string * Z)) (s : state W) :
  exists oks s',
    delete_files used_files s = (Returned tt, s')
    /\ length oks = length used_files
    /\ stdin s' = stdin s
    /\ calls s' = (calls s ++ removals (map fst used_files) oks)%list.
Proof.
  destruct (delete_loop_spec used_files 0 0 s)
    as (oks & s1 & Hr & Hl & _ & Hi & Hc & _).
  exists oks. eexists. split.
  { unfold delete_files, bind. rewrite Hr. reflexivity. }
  simpl. auto.
Qed.

Lemma display_large_files_no_output (large_files : list (string * Z))
    (output_file : option string) (limit : option Z)
    (output_format : option string) (s : state W) :
  opt_str_truthy output_file = false ->
  exists s',
    display_large_files tabulate large_files output_file limit output_format s
    = (Returned (apply_limit large_files limit), s').
Proof.
  intros Hno. destruct large_files as [|x l] eqn:E.
  - rewrite apply_limit_nil. eexists. reflexivity.
  - rewrite <- E.
    assert (Hne : large_files <> []) by (rewrite E; discriminate).
    rewrite (display_large_files_unfold tabulate _ _ _ _ _ Hne).
    destruct output_file as [f|]; [|eexists; reflexivity].
    simpl in Hno. rewrite Hno. eexists. reflexivity.
Qed.

Lemma removals_nil (paths : list string) : removals paths [] = [].
Proof. unfold removals. destruct paths; reflexivity. Qed.

(** The outcome and the effects of the deletion phase. *)
Lemma deletion_phase_frame (args : arguments) (used_files : list (string * Z))
    (s s' : state W) (o : outcome unit) :
  deletion_phase args used_files s = (o, s') ->
  let go :=
    arg_delete args
    && (arg_yes args || match stdin s with [] => false | a :: _ => is_go a end) in
  (o = Returned tt \/ o = Raised EOFError)
  /\ exists oks,
       calls s' = (calls s ++ removals (map fst used_files) oks)%list
       /\ (go = true -> o = Returned tt /\ length oks = length used_files)
       /\ (go = false -> oks = []).
Proof.
  rewrite deletion_phase_cases. cbv zeta.
  destruct (arg_delete args); simpl.
  - destruct (list_truthy used_files) eqn:Et; simpl.
    2:{ assert (used_files = []) by (destruct used_files; [reflexivity | discriminate]).
        subst used_files.
        intros H. injection H as <- <-. split; [now left|].
        exists []. rewrite removals_nil, app_nil_r. simpl.
        destruct (arg_yes args || _); repeat split; auto; easy. }
    destruct (arg_yes args); simpl.
    + intros H.
      destruct (delete_files_spec used_files s) as (oks & s2 & Hr & Hl & _ & Hc).
      rewrite Hr in H. injection H as <- <-. split; [now left|].
      exists oks. repeat split; auto; easy.
    + destruct (stdin s) as [|a rest].
      * intros H. injection H as <- <-. split; [now right|].
        exists []. rewrite removals_nil, app_nil_r. simpl.
        repeat split; auto; easy.
      * destruct (is_go a).
        -- intros H.
           match type of H with delete_files _ ?s1 = _ =>
             destruct (delete_files_spec used_files s1)
               as (oks & s2 & Hr & Hl & _ & Hc)
           end.
           rewrite Hr in H. injection H as <- <-. split; [now left|].
           exists oks. simpl in Hc. repeat split; auto; easy.
        -- intros H. injection H as <- <-. split; [now left|].
           exists []. rewrite removals_nil, app_nil_r. simpl.
           repeat split; auto; easy.
  - intros H. injection H as <- <-. split; [now left|].
    exists []. rewrite removals_nil, app_nil_r. simpl.
    repeat split; auto; easy.
Qed.

(** The run, step by step: the outcome of the scan, of the report and of
    the deletion phase, and the system calls each of them adds. *)
Lemma main_try_steps (directories_to_scan : list string) (size_threshold : Z)
    (args : arguments) (sched : list nat) (s s' : state W) (o : outcome unit) :
  main_try tabulate directories_to_scan size_threshold args sched s = (o, s') ->
  let file_paths :=
    candidate_paths (world s) (normalize_ext_list (arg_include args))
      (normalize_ext_list (arg_exclude args)) directories_to_scan in
  let used_files :=
    apply_limit (sort_by_size_desc (qualifying (world s) size_threshold file_paths))
      (arg_limit args) in
  let go :=
    arg_delete args
    && (arg_yes args || match stdin s with [] => false | a :: _ => is_go a end) in
  o = Returned tt
  /\ exists order saving oks,
       calls s' = (calls s ++ map CallGetsize order ++ saving
                   ++ removals (map fst used_files) oks)%list
       /\ (forall p, In p order -> In p file_paths)
       /\ (valid_workers (arg_workers args) -> Permutation order file_paths)
       /\ (forall c, In c saving ->
             (exists p ok, c = CallMakedirs p ok)
             \/ (exists f text ok, arg_output args = Some f /\ c = CallWrite f text ok))
       /\ (opt_str_truthy (arg_output args) = false -> saving = [])
       /\ (go = false -> oks = [])
       /\ (go = true -> valid_workers (arg_workers args) ->
           opt_str_truthy (arg_output args) = false ->
           length oks = length used_files).
Proof.
  intros Hrun file_paths used_files go.
  rewrite main_try_eq in Hrun. unfold try_except in Hrun.
  unfold bind at 1 in Hrun.
  destruct (find_large_files directories_to_scan size_threshold (arg_include args)
              (arg_exclude args) (arg_workers args) sched s) as [o1 s1] eqn:E1.
  destruct (find_large_files_frame _ _ _ _ _ _ _ _ _ E1)
    as (Ho1 & order & Hraised & Hin & Hperm & Hw1 & Hso1 & Hsi1 & Hc1).
  fold file_paths in Ho1, Hin, Hperm.
  destruct Ho1 as [(-> & Hok)|(-> & Hnv & Hne)].
  2:{ injection Hrun as <- <-. split; [reflexivity|].
      exists order, [], []. rewrite removals_nil, !app_nil_r. simpl.
      repeat split; auto; try (intros ? []); try contradiction. }
  unfold bind at 1 in Hrun.
  destruct (display_large_files tabulate
              (sort_by_size_desc (qualifying (world s) size_threshold file_paths))
              (arg_output args) (arg_limit args) (arg_format args) s1)
    as [o2 s2] eqn:E2.
  destruct (display_large_files_frame tabulate _ _ _ _ _ _ _ E2)
    as (Ho2 & Hsi2 & _ & _ & saving & Hc2 & Hnone & Hsaving).
  fold used_files in Ho2, Hsaving.
  assert (Hsave : forall c, In c saving ->
             (exists p ok, c = CallMakedirs p ok)
             \/ (exists f text ok, arg_output args = Some f /\ c = CallWrite f text ok)).
  { intros c Hc. destruct (Hsaving c Hc) as (f & Hf & [[b Hb]|[b Hb]]);
      subst c; [left | right]; eauto. }
  destruct Ho2 as [-> | ->].
  2:{ injection Hrun as <- <-. split; [reflexivity|].
      exists order, saving, []. rewrite removals_nil, app_nil_r. simpl.
      rewrite Hc2, Hc1, <- app_assoc.
      split; [reflexivity|]. repeat split; auto.
      - intros H. now destruct (Hnone H).
      - intros _ _ Hno.
        destruct (display_large_files_no_output
                    (sort_by_size_desc (qualifying (world s) size_threshold file_paths))
                    (arg_output args) (arg_limit args) (arg_format args) s1 Hno)
          as (s3 & H3). congruence. }
  destruct (deletion_phase args used_files s2) as [o3 s3] eqn:E3.
  destruct (deletion_phase_frame _ _ _ _ _ E3)
    as (Ho3 & oks & Hc3 & Hgo & Hnogo).
  rewrite Hsi2, Hsi1 in Hgo, Hnogo. fold go in Hgo, Hnogo.
  assert (Hcalls : calls s3 = (calls s ++ map CallGetsize order ++ saving
                               ++ removals (map fst used_files) oks)%list).
  { rewrite Hc3, Hc2, Hc1, <- !app_assoc. reflexivity. }
  assert (Hrest :
            (forall p, In p order -> In p file_paths)
            /\ (valid_workers (arg_workers args) -> Permutation order file_paths)
            /\ (forall c, In c saving ->
                  (exists p ok, c = CallMakedirs p ok)
                  \/ (exists f text ok,
                        arg_output args = Some f /\ c = CallWrite f text ok))
            /\ (opt_str_truthy (arg_output args) = false -> saving = [])
            /\ (go = false -> oks = [])
            /\ (go = true -> valid_workers (arg_workers args) ->
                opt_str_truthy (arg_output args) = false ->
                length oks = length used_files)).
  { repeat split; auto.
    - intros H. now destruct (Hnone H).
    - intros Hg _ _. now destruct (Hgo Hg). }
  destruct Ho3 as [-> | ->]; injection Hrun as <- <-; (split; [reflexivity|]);
    exists order, saving, oks; (split; [exact Hcalls | exact Hrest]).
Qed.

(** The [try] block of [main] always comes to its end. When the scan,
    the report and the deletion phase come to theirs, nothing is added to
    what they did. When one of them raises, the handler adds the record of
    the unexpected error to the log, after what was done up to there, and
    nothing else. What is raised is [ValueError] from the executor (a pool
    size that is not positive), [OSError] from making the directory of the
    output file, or [EOFError] at the prompt (the input is at its end). The
    consumer of the pool is never left waiting for a result. *)
Theorem main_try_always_returns (directories_to_scan : list string)
    (size_threshold : Z) (args : arguments) (sched : list nat) (s : state W) :
  let body :=
    (large_files <- find_large_files directories_to_scan size_threshold
                      (arg_include args) (arg_exclude args) (arg_workers args)
                      sched ;;
     used_files <- display_large_files tabulate large_files (arg_output args)
                     (arg_limit args) (arg_format args) ;;
     deletion_phase args used_files)%monad in
  match body s with
  | (Returned _, s1) =>
      main_try tabulate directories_to_scan size_threshold args sched s
      = (Returned tt, s1)
  | (Raised e, s1) =>
      main_try tabulate directories_to_scan size_threshold args sched s
      = (Returned tt, logged s1 [ExceptionUnexpected e])
      /\ (e = ValueError /\ ~ valid_workers (arg_workers args)
          \/ e = OSError /\ opt_str_truthy (arg_output args) = true
          \/ e = EOFError /\ arg_delete args = true /\ arg_yes args = false
             /\ stdin s = [])
  | (Blocked, _) => False
  end.
Proof.
  intros body. rewrite main_try_eq. unfold try_except. fold body.
  destruct (body s) as [o s'] eqn:E. unfold body in E.
  unfold bind at 1 in E.
  destruct (find_large_files directories_to_scan size_threshold (arg_include args)
              (arg_exclude args) (arg_workers args) sched s) as [o1 s1] eqn:E1.
  destruct (find_large_files_frame _ _ _ _ _ _ _ _ _ E1)
    as (Ho1 & order & _ & _ & _ & _ & _ & Hsi1 & _).
  destruct Ho1 as [(-> & _)|(-> & Hnv & _)].
  2:{ injection E as <- <-. split; [reflexivity | left; auto]. }
  unfold bind at 1 in E.
  match type of E with
  | context [display_large_files tabulate ?l ?f ?n ?fmt s1] =>
      destruct (display_large_files tabulate l f n fmt s1) as [o2 s2] eqn:E2;
      destruct (display_large_files_frame tabulate l f n fmt s1 s2 o2 E2)
        as (Ho2 & Hsi2 & _);
      pose proof (display_large_files_no_output l f n fmt s1) as Hno
  end.
  destruct Ho2 as [-> | ->].
  2:{ injection E as <- <-. split; [reflexivity|]. right. left.
      split; [reflexivity|].
      destruct (opt_str_truthy (arg_output args)); [reflexivity|].
      destruct (Hno eq_refl) as (s3 & H3). congruence. }
  rewrite deletion_phase_cases in E. cbv zeta in E.
  destruct (arg_delete args && list_truthy _) eqn:Eg.
  2:{ injection E as <- <-. reflexivity. }
  apply andb_true_iff in Eg. destruct Eg as [Hdel _].
  destruct (arg_yes args) eqn:Ey.
  { match type of E with
    | delete_files ?u ?st = _ =>
        destruct (delete_files_spec u st) as (oks & s3 & Hr & _)
    end.
    rewrite Hr in E. injection E as <- <-. reflexivity. }
  destruct (stdin s2) as [|answer rest] eqn:Ein.
  { injection E as <- <-. split; [reflexivity|]. right. right.
    repeat split; auto. congruence. }
  destruct (is_go answer).
  - match type of E with
    | delete_files ?u ?st = _ =>
        destruct (delete_files_spec u st) as (oks & s3 & Hr & _)
    end.
    rewrite Hr in E. injection E as <- <-. reflexivity.
  - injection E as <- <-. reflexivity.
Qed.

(** No file is removed without a go: when the delete flag is not set, or
    when it is set without the yes flag and the answer at the prompt is not
    [y] or [yes] (or there is no answer), the run removes nothing. *)
Theorem main_try_removes_only_on_go (directories_to_scan : list string)
    (size_threshold : Z) (args : arguments) (sched : list nat) (s s' : state W)
    (o : outcome unit) :
  arg_delete args
  && (arg_yes args || match stdin s with [] => false | a :: _ => is_go a end)
  = false ->
  main_try tabulate directories_to_scan size_threshold args sched s = (o, s') ->
  forall p ok, In (CallRemove p ok) (calls s') -> In (CallRemove p ok) (calls s).
Proof.
  intros Hgo Hrun p ok Hin.
  destruct (main_try_steps _ _ _ _ _ _ _ Hrun)
    as (_ & order & saving & oks & Hc & _ & _ & Hsave & _ & Hno & _).
  rewrite (Hno Hgo), removals_nil, app_nil_r in Hc. rewrite Hc in Hin.
  apply in_app_or in Hin. destruct Hin as [Hin|Hin]; [exact Hin|].
  apply in_app_or in Hin. destruct Hin as [Hin|Hin].
  - apply in_map_iff in Hin. destruct Hin as (q & Hq & _). discriminate.
  - destruct (Hsave _ Hin) as [(q & b & Hq)|(f & t & b & _ & Hq)]; discriminate.
Qed.

(** With a go the files removed are the files displayed: after the scan,
    the run attempts the removal of exactly the entries of the sorted
    result that the limit keeps, largest first, each once. (Stated for a
    run that saves no report.) *)
Theorem main_try_removes_the_displayed_files (directories_to_scan : list string)
    (size_threshold : Z) (args : arguments) (sched : list nat) (s : state W) :
  arg_delete args
  && (arg_yes args || match stdin s with [] => false | a :: _ => is_go a end)
  = true ->
  valid_workers (arg_workers args) ->
  opt_str_truthy (arg_output args) = false ->
  let file_paths :=
    candidate_paths (world s) (normalize_ext_list (arg_include args))
      (normalize_ext_list (arg_exclude args)) directories_to_scan in
  let used_files :=
    apply_limit (sort_by_size_desc (qualifying (world s) size_threshold file_paths))
      (arg_limit args) in
  exists order oks s',
    main_try tabulate directories_to_scan size_threshold args sched s
    = (Returned tt, s')
    /\ Permutation order file_paths
    /\ length oks = length used_files
    /\ calls s' = (calls s ++ map CallGetsize order
                   ++ removals (map fst used_files) oks)%list.
Proof.
  intros Hgo Hv Hno file_paths used_files.
  destruct (main_try tabulate directories_to_scan size_threshold args sched s)
    as [o s'] eqn:E.
  destruct (main_try_steps _ _ _ _ _ _ _ E)
    as (-> & order & saving & oks & Hc & _ & Hperm & _ & Hnone & _ & Hlen).
  rewrite (Hnone Hno) in Hc. simpl in Hc.
  exists order, oks, s'. split; [reflexivity|].
  split; [now apply Hperm|]. split; [now apply Hlen | exact Hc].
Qed.

End WholeRun.

(** ** Normalized extensions *)

Lemma lower_char_idem (c : ascii) : lower_char (lower_char c) = lower_char c.
Proof. destruct c as [[] [] [] [] [] [] [] []]; vm_compute; reflexivity. Qed.

Lemma isspace_lower_char (c : ascii) : isspace (lower_char c) = isspace c.
Proof. destruct c as [[] [] [] [] [] [] [] []]; vm_compute; reflexivity. Qed.

Lemma lower_idem (s : string) : lower (lower s) = lower s.
Proof.
  induction s as [|c s IH]; simpl; [reflexivity|].
  now rewrite lower_char_idem, IH.
Qed.

Lemma lower_app (a b : string) : lower (a ++ b) = lower a ++ lower b.
Proof. induction a as [|c a IH]; simpl; [reflexivity | now rewrite IH]. Qed.

Lemma lstrip_lower (s : string) : lstrip (lower s) = lower (lstrip s).
Proof.
  induction s as [|c s IH]; simpl; [reflexivity|].
  rewrite isspace_lower_char. destruct (isspace c); [exact IH | reflexivity].
Qed.

Lemma lstrip_idem (s : string) : lstrip (lstrip s) = lstrip s.
Proof.
  induction s as [|c s IH]; simpl; [reflexivity|].
  destruct (isspace c) eqn:E; [exact IH|]. simpl. now rewrite E.
Qed.

Lemma list_ascii_of_string_app (a b : string) :
  list_ascii_of_string (a ++ b)
  = (list_ascii_of_string a ++ list_ascii_of_string b)%list.
Proof. induction a as [|c a IH]; simpl; [reflexivity | now rewrite IH]. Qed.

Lemma string_of_list_ascii_app (a b : list ascii) :
  string_of_list_ascii (a ++ b) = string_of_list_ascii a ++ string_of_list_ascii b.
Proof. induction a as [|c a IH]; simpl; [reflexivity | now rewrite IH]. Qed.

Lemma string_rev_cons (c : ascii) (s : string) :
  string_rev (String c s) = string_rev s ++ String c "".
Proof.
  unfold string_rev. simpl. now rewrite string_of_list_ascii_app.
Qed.

Lemma string_rev_app (a b : string) :
  string_rev (a ++ b) = string_rev b ++ string_rev a.
Proof.
  unfold string_rev.
  now rewrite list_ascii_of_string_app, rev_app_distr, string_of_list_ascii_app.
Qed.

Lemma string_rev_involutive (s : string) : string_rev (string_rev s) = s.
Proof.
  unfold string_rev.
  now rewrite list_ascii_of_string_of_list_ascii, rev_involutive,
    string_of_list_ascii_of_string.
Qed.

Lemma string_rev_lower (s : string) : string_rev (lower s) = lower (string_rev s).
Proof.
  induction s as [|c s IH]; [reflexivity|].
  simpl lower. now rewrite !string_rev_cons, IH, lower_app.
Qed.

Lemma lstrip_snoc (s : string) (c : ascii) :
  isspace c = false -> lstrip (s ++ String c "") = lstrip s ++ String c "".
Proof.
  intros Hc. induction s as [|d s IH]; simpl; [now rewrite Hc|].
  destruct (isspace d); [exact IH | reflexivity].
Qed.

Lemma rstrip_cons (c : ascii) (s : string) :
  isspace c = false -> rstrip (String c s) = String c (rstrip s).
Proof.
  intros Hc. unfold rstrip.
  rewrite string_rev_cons, lstrip_snoc, string_rev_app by exact Hc.
  reflexivity.
Qed.

Lemma rstrip_idem (s : string) : rstrip (rstrip s) = rstrip s.
Proof. unfold rstrip. now rewrite string_rev_involutive, lstrip_idem. Qed.

Lemma rstrip_lower (s : string) : rstrip (lower s) = lower (rstrip s).
Proof.
  unfold rstrip. now rewrite string_rev_lower, lstrip_lower, string_rev_lower.
Qed.

Lemma lstrip_rstrip (s : string) : lstrip s = s -> lstrip (rstrip s) = rstrip s.
Proof.
  destruct s as [|c s]; [reflexivity|]. simpl.
  destruct (isspace c) eqn:E.
  - intros H. exfalso.
    assert (Hlen : (String.length (lstrip s) <= String.length s)%nat).
    { clear. induction s as [|d s IH]; simpl; [lia|].
      destruct (isspace d); simpl; lia. }
    rewrite H in Hlen. simpl in Hlen. lia.
  - intros _. rewrite rstrip_cons by exact E. simpl. now rewrite E.
Qed.

Lemma strip_lower_normal (s : string) : is_normal (lower (strip s)).
Proof.
  unfold is_normal, strip. repeat split.
  - rewrite lstrip_lower. f_equal. apply lstrip_rstrip, lstrip_idem.
  - rewrite rstrip_lower. f_equal. apply rstrip_idem.
  - apply lower_idem.
Qed.

Lemma dot_normal (e : string) : is_normal e -> is_normal ("." ++ e).
Proof.
  intros (_ & Hr & Hl). unfold is_normal. simpl. repeat split.
  - rewrite rstrip_cons by reflexivity. now rewrite Hr.
  - now rewrite Hl.
Qed.

Lemma normal_fixed (e : string) : is_normal e -> lower (strip e) = e.
Proof. intros (Hl & Hr & Hlow). unfold strip. now rewrite Hl, Hr. Qed.

Lemma startswith_dot (e : string) : startswith "." ("." ++ e) = true.
Proof.
  unfold startswith. simpl.
  destruct (ascii_dec "." "."); [destruct e; reflexivity | congruence].
Qed.

Lemma normalize_loop_entries (exts : list string) (e : string) :
  In e (normalize_loop exts) ->
  startswith "." e = true /\ str_truthy e = true /\ is_normal e.
Proof.
  induction exts as [|ext rest IH]; simpl; [contradiction|].
  destruct (str_truthy ext); simpl; [|exact IH].
  destruct (str_truthy (lower (strip ext))) eqn:Et; simpl; [|exact IH].
  destruct (startswith "." (lower (strip ext))) eqn:Ed; simpl.
  - intros [<-|Hin]; [|now apply IH].
    split; [exact Ed|]. split; [exact Et | apply strip_lower_normal].
  - intros [<-|Hin]; [|now apply IH].
    split; [apply startswith_dot|]. split; [reflexivity|].
    apply (dot_normal _ (strip_lower_normal ext)).
Qed.

Lemma normalize_loop_fixed (l : list string) :
  (forall e, In e l ->
             startswith "." e = true /\ str_truthy e = true /\ is_normal e) ->
  normalize_loop l = l.
Proof.
  induction l as [|e rest IH]; intros H; [reflexivity|].
  destruct (H e (or_introl eq_refl)) as (Hd & Ht & Hn).
  cbn [normalize_loop]. rewrite Ht. cbn [negb].
  rewrite (normal_fixed e Hn), Ht, Hd. cbn [negb].
  rewrite IH; [reflexivity|]. intros x Hx. apply H. now right.
Qed.

(** [normalize_ext_list] is idempotent, and every extension it returns
    starts with a dot, is not empty, has no blank at either end and no
    capital letter. *)
Theorem normalize_ext_list_idempotent (exts : option (list string)) :
  normalize_ext_list (normalize_ext_list exts) = normalize_ext_list exts
  /\ forall l e,
       normalize_ext_list exts = Some l -> In e l ->
       startswith "." e = true /\ e <> ""
       /\ strip e = e /\ lower e = e.
Proof.
  assert (Hent : forall l e,
             normalize_ext_list exts = Some l -> In e l ->
             startswith "." e = true /\ str_truthy e = true /\ is_normal e).
  { intros l e Hn Hin. unfold normalize_ext_list in Hn.
    destruct exts as [x|]; simpl in Hn; [|discriminate].
    destruct (list_truthy x); simpl in Hn; [|discriminate].
    destruct (list_truthy (normalize_loop x)); [|discriminate].
    injection Hn as <-. now apply normalize_loop_entries in Hin. }
  split.
  - destruct (normalize_ext_list exts) as [l|] eqn:E; [|reflexivity].
    pose proof (normalize_ext_list_some _ _ E) as Ht.
    unfold normalize_ext_list. simpl. rewrite Ht. simpl.
    rewrite (normalize_loop_fixed l (fun e => Hent l e eq_refl)).
    now rewrite Ht.
  - intros l e Hn Hin. destruct (Hent l e Hn Hin) as (Hd & Ht & Hl & Hr & Hlow).
    split; [exact Hd|]. split; [intros ->; discriminate|].
    split; [unfold strip; now rewrite Hl, Hr | exact Hlow].
Qed.

Lemma strip_lower (s : string) : strip (lower s) = lower (strip s).
Proof. unfold strip. now rewrite lstrip_lower, rstrip_lower. Qed.

Lemma strip_idem (s : string) : strip (strip s) = strip s.
Proof.
  unfold strip. rewrite (lstrip_rstrip (lstrip s) (lstrip_idem s)).
  apply rstrip_idem.
Qed.

Lemma str_truthy_lower (s : string) : str_truthy (lower s) = str_truthy s.
Proof. destruct s; reflexivity. Qed.

Lemma normalize_loop_lower (l : list string) :
  normalize_loop (map lower l) = normalize_loop l.
Proof.
  induction l as [|ext rest IH]; [reflexivity|].
  cbn [map normalize_loop].
  now rewrite str_truthy_lower, strip_lower, lower_idem, IH.
Qed.

Lemma normalize_loop_strip (l : list string) :
  normalize_loop (map strip l) = normalize_loop l.
Proof.
  induction l as [|ext rest IH]; [reflexivity|].
  cbn [map normalize_loop]. rewrite strip_idem, IH.
  destruct ext as [|c ext]; [reflexivity|].
  destruct (strip (String c ext)) eqn:E; reflexivity.
Qed.

(** The spelling of a filter entry does not matter: an extension list in
    upper or mixed case, or with blanks around its entries, is normalized
    to the same filter as the list in lower case without the blanks, and
    so selects the same files. *)
Theorem filter_spelling_is_immaterial (exts : option (list string)) :
  normalize_ext_list (option_map (map lower) exts) = normalize_ext_list exts
  /\ normalize_ext_list (option_map (map strip) exts) = normalize_ext_list exts.
Proof.
  destruct exts as [l|]; [|split; reflexivity].
  unfold normalize_ext_list. cbn [option_map opt_list_truthy].
  rewrite normalize_loop_lower, normalize_loop_strip.
  destruct l; split; reflexivity.
Qed.

(** A file name without an extension (such as [Makefile] or [.bashrc]) is
    dropped by every include set and by no exclude set: the normalized
    extensions all start with a dot, so none equals the empty extension. *)
Theorem file_without_extension (include exclude : option (list string))
    (root name : string) :
  splitext_ext name = "" ->
  scan_files (normalize_ext_list include) (normalize_ext_list exclude) root [name]
  = match normalize_ext_list include with
    | Some _ => []
    | None => [path_join root name]
    end.
Proof.
  intros Hext.
  assert (Hnot : forall exts l, normalize_ext_list exts = Some l -> str_in "" l = false).
  { intros exts l Hn. destruct (str_in "" l) eqn:E; [|reflexivity].
    apply str_in_In in E. unfold normalize_ext_list in Hn.
    destruct exts as [x|]; simpl in Hn; [|discriminate].
    destruct (list_truthy x); simpl in Hn; [|discriminate].
    destruct (list_truthy (normalize_loop x)); [|discriminate].
    injection Hn as <-. apply normalize_loop_entries in E.
    destruct E as (_ & Ht & _). discriminate. }
  destruct (normalize_ext_list include) as [li|] eqn:Ei;
    destruct (normalize_ext_list exclude) as [le|] eqn:Ee;
    cbn [scan_files]; rewrite Hext; change (lower "") with "";
    unfold passes_filters; cbn [opt_list_truthy];
    try rewrite (normalize_ext_list_some _ _ Ei);
    try rewrite (Hnot _ _ Ei);
    try rewrite (normalize_ext_list_some _ _ Ee);
    try rewrite (Hnot _ _ Ee);
    reflexivity.
Qed.

(** ** Sizes as text *)

Lemma format_2f_whole (n : Z) :
  0 <= n -> format_2f n 1 = digits n ++ ".00".
Proof.
  intros Hn. unfold format_2f, round_half_even.
  rewrite Z.div_1_r, Z.mod_1_r. change (2 * 0 <? 1) with true. cbv iota.
  destruct (n * 100 <? 0) eqn:E; [apply Z.ltb_lt in E; lia|].
  rewrite Z.abs_eq by lia.
  assert (E1 : n * 100 / 100 = n) by (apply Z.div_mul; lia).
  assert (E2 : n * 100 / 10 = n * 10).
  { replace (n * 100) with (n * 10 * 10) by lia. apply Z.div_mul. lia. }
  assert (E3 : (n * 10) mod 10 = 0) by (apply Z.mod_mul; lia).
  assert (E4 : (n * 100) mod 10 = 0).
  { replace (n * 100) with (n * 10 * 10) by lia. apply Z.mod_mul. lia. }
  rewrite E1, E2, E3, E4. reflexivity.
Qed.

(** An [int] of at most 53 bits is a double. *)
Lemma float_of_int_exact (n : Z) : Z.abs n < 2 ^ 53 -> float_of_int n = n.
Proof.
  intros H. unfold float_of_int.
  destruct (Z.leb_spec (Z.log2 (Z.abs n) - 52) 0) as [_|He]; [reflexivity|].
  exfalso.
  assert (Hpos : 0 < Z.abs n).
  { destruct (Z.eq_dec (Z.abs n) 0) as [E|E]; [|lia].
    rewrite E in He. simpl in He. lia. }
  apply (Z.log2_lt_pow2 _ 53 Hpos) in H. lia.
Qed.

Lemma round_half_even_ge (a b : Z) : a / b <= round_half_even a b.
Proof.
  unfold round_half_even.
  destruct (2 * (a mod b) <? b); [lia|].
  destruct (b <? 2 * (a mod b)); [lia|].
  destruct (Z.even (a / b)); lia.
Qed.

(** The double nearest to a long [int] is at least [2^53] in size and has
    the sign of the [int]. *)
Lemma float_of_int_long (n : Z) :
  2 ^ 53 <= Z.abs n ->
  exists m, 2 ^ 53 <= m /\ float_of_int n = Z.sgn n * m.
Proof.
  intros H. unfold float_of_int.
  set (a := Z.abs n) in *. set (e := Z.log2 a - 52).
  assert (Hpos : 0 < a) by (assert (0 < 2 ^ 53) by reflexivity; lia).
  assert (Hlog : 53 <= Z.log2 a) by (apply Z.log2_le_pow2; assumption).
  destruct (Z.leb_spec e 0) as [He|He]; [unfold e in He; lia|].
  exists (round_half_even a (2 ^ e) * 2 ^ e). split; [|reflexivity].
  assert (Hp : 0 < 2 ^ e) by (apply Z.pow_pos_nonneg; lia).
  assert (Hq : 2 ^ 52 <= a / 2 ^ e).
  { apply Z.div_le_lower_bound; [exact Hp|].
    rewrite <- Z.pow_add_r by lia.
    replace (e + 52) with (Z.log2 a) by (unfold e; lia).
    apply Z.log2_spec. exact Hpos. }
  pose proof (round_half_even_ge a (2 ^ e)) as Hr.
  assert (H2 : 2 <= 2 ^ e).
  { change 2 with (2 ^ 1) at 1. apply Z.pow_le_mono_r; lia. }
  change (2 ^ 53) with (2 ^ 52 * 2). apply Z.mul_le_mono_nonneg; lia.
Qed.

(** A byte count below 1024 is shown exactly, in bytes: its digits
    followed by [.00 B]. *)
Theorem format_size_bytes_exact (n : Z) :
  0 <= n < 1024 -> format_size n = digits n ++ ".00 B".
Proof.
  intros [Hlo Hhi]. unfold format_size, units. cbv zeta.
  rewrite float_of_int_exact by (rewrite Z.abs_eq by lia; lia).
  cbn [format_size_loop].
  replace (n <? 1024 * 1) with true by (symmetry; apply Z.ltb_lt; lia).
  cbn [orb]. rewrite format_2f_whole by exact Hlo.
  now rewrite append_assoc.
Qed.

(** The unit [format_size] picks: the k-th unit, the count (as a double)
    divided by 1024^k, for the first k with count < 1024^(k+1), and TB for
    every count from 1024^4 on (which may then show 1024.00 TB and more).
    A count of at most 53 bits is its own double; a longer one is rounded
    to 53 bits before it is divided. *)
Theorem format_size_unit (n : Z) (k : nat) :
  float_overflows n = false ->
  (k <= 4)%nat ->
  (k = 0%nat \/ 1024 ^ Z.of_nat k <= n) ->
  (k = 4%nat \/ n < 1024 ^ (Z.of_nat k + 1)) ->
  format_size n
  = format_2f (float_of_int n) (1024 ^ Z.of_nat k) ++ " " ++ nth k units ""
  /\ (Z.abs n < 2 ^ 53 -> float_of_int n = n).
Proof.
  intros _ Hk Hlo Hhi. split; [|apply float_of_int_exact].
  assert (H1 : 1024 ^ 1 = 1024) by reflexivity.
  assert (H2 : 1024 ^ 2 = 1024 * 1024) by reflexivity.
  assert (H3 : 1024 ^ 3 = 1024 * 1024 * 1024) by reflexivity.
  assert (H4 : 1024 ^ 4 = 1024 * 1024 * 1024 * 1024) by reflexivity.
  assert (H5 : 1024 ^ 5 = 1024 * 1024 * 1024 * 1024 * 1024) by reflexivity.
  assert (H0 : 1024 ^ 0 = 1) by reflexivity.
  assert (H53 : 2 ^ 53 = 8 * (1024 * 1024 * 1024 * 1024 * 1024)) by reflexivity.
  assert (Hlast : last units "" = "TB") by reflexivity.
  (* the double is on the same side of every unit bound as the count *)
  assert (Hf : float_of_int n = n
               \/ (2 ^ 53 <= n /\ 2 ^ 53 <= float_of_int n)
               \/ (n <= - 2 ^ 53 /\ float_of_int n <= - 2 ^ 53)).
  { destruct (Z_lt_le_dec (Z.abs n) (2 ^ 53)) as [Hs|Hl].
    - left. now apply float_of_int_exact.
    - right. destruct (float_of_int_long n Hl) as (m & Hm & ->).
      destruct (Z_lt_le_dec n 0) as [Hn|Hn].
      + right. rewrite Z.sgn_neg by exact Hn. rewrite Z.abs_neq in Hl by lia. lia.
      + left. assert (0 < n) by (rewrite Z.abs_eq in Hl by lia; lia).
        rewrite Z.sgn_pos by assumption. rewrite Z.abs_eq in Hl by lia. lia. }
  unfold format_size. cbv zeta. set (size := float_of_int n) in *.
  unfold units at 1.
  destruct k as [|[|[|[|[|k]]]]]; [| | | | |lia];
    cbn [Z.of_nat Pos.of_succ_nat Pos.succ Z.add Pos.add] in Hlo, Hhi |- *;
    cbn [format_size_loop]; rewrite Hlast;
    repeat match goal with
           | |- context [(?u =? "TB")%string] =>
               let b := eval vm_compute in (u =? "TB")%string in
               change (u =? "TB")%string with b
           end;
    rewrite ?orb_false_r, ?orb_true_r;
    try rewrite H0 in *; try rewrite H1 in *; try rewrite H2 in *;
    try rewrite H3 in *; try rewrite H4 in *; try rewrite H5 in *;
    rewrite H53 in Hf;
    repeat match goal with
           | |- context [?a <? ?b] =>
               destruct (Z.ltb_spec a b);
               [try (exfalso; destruct Hlo as [Hlo|Hlo]; [discriminate Hlo | lia])
               |try (exfalso; destruct Hhi as [Hhi|Hhi]; [discriminate Hhi | lia])]
           end;
    cbn [nth units]; unfold units; cbn [nth];
    do 2 f_equal; lia.
Qed.

(** The two size columns never need quoting or escaping: for every byte
    count, [str(size)] and [format_size(size)] are written as they are by
    the CSV writer and by both JSON encoders. *)
Theorem size_columns_are_written_verbatim (n : Z) :
  csv_field (str_of_int n) = str_of_int n
  /\ csv_field (format_size n) = format_size n
  /\ json_str true (format_size n) = dquote ++ format_size n ++ dquote
  /\ json_str false (format_size n) = dquote ++ format_size n ++ dquote.
Proof.
  assert (Hplain : forall s, all_chars plain_char s = true ->
                             concat_map json_char_ascii s = s).
  { induction s as [|c s IH]; simpl; [reflexivity|].
    rewrite andb_true_iff. intros [Hc Hs]. rewrite (IH Hs).
    unfold json_char_ascii. unfold plain_char in Hc.
    rewrite !andb_true_iff, !negb_true_iff, !Z.leb_le, !Z.eqb_neq in Hc.
    destruct Hc as ((((H32 & H126) & H34) & _) & H92).
    apply Z.eqb_neq in H34, H92. rewrite H34, H92.
    replace (code c <? 32) with false by (symmetry; apply Z.ltb_ge; lia).
    replace (126 <? code c) with false by (symmetry; apply Z.ltb_ge; lia).
    reflexivity. }
  split; [apply csv_field_plain, plain_needs_no_quotes, str_of_int_plain|].
  split; [apply csv_field_plain, plain_needs_no_quotes, format_size_plain|].
  assert (Ha : json_str true (format_size n) = dquote ++ format_size n ++ dquote).
  { unfold json_str. now rewrite (Hplain _ (format_size_plain n)). }
  split; [exact Ha|]. rewrite <- Ha. symmetry. apply json_str_same.
  eapply all_chars_impl; [apply plain_upto_tilde | apply format_size_plain].
Qed.

(** ** main before the try block *)

Lemma split_on_not_nil (sep : ascii) (s : string) : split_on sep s <> [].
Proof.
  induction s as [|c s IH]; simpl; [discriminate|].
  destruct (Ascii.eqb c sep); [discriminate|].
  destruct (split_on sep s); discriminate.
Qed.

Lemma lstrip_blank (s : string) : all_chars isspace s = true -> lstrip s = "".
Proof.
  induction s as [|c s IH]; simpl; [reflexivity|].
  rewrite andb_true_iff. intros [Hc Hs]. rewrite Hc. now apply IH.
Qed.

Lemma strip_blank (s : string) : all_chars isspace s = true -> strip s = "".
Proof. intros H. unfold strip. now rewrite (lstrip_blank s H). Qed.

Lemma split_on_blank (s : string) :
  all_chars blank_or_comma s = true ->
  Forall (fun piece => all_chars isspace piece = true) (split_on "," s).
Proof.
  induction s as [|c s IH]; simpl; [repeat constructor|].
  rewrite andb_true_iff. intros [Hc Hs]. specialize (IH Hs).
  destruct (Ascii.eqb c ",") eqn:E; [constructor; [reflexivity | exact IH]|].
  unfold blank_or_comma in Hc. rewrite E, orb_false_r in Hc.
  destruct (split_on "," s) as [|piece pieces]; [repeat constructor; simpl; now rewrite Hc|].
  inversion IH; subst. constructor; [simpl; now rewrite Hc | assumption].
Qed.

Lemma normalize_loop_blank (l : list string) :
  Forall (fun piece => all_chars isspace piece = true) l ->
  normalize_loop (map strip l) = [].
Proof.
  induction 1 as [|piece rest Hp _ IH]; [reflexivity|].
  cbn [map normalize_loop]. rewrite (strip_blank piece Hp). exact IH.
Qed.

(** A filter string of the configuration file that names no extension
    (empty, or only blanks and commas) is no filter: split at the commas,
    stripped and normalized it gives [None], so every file passes it. *)
Theorem blank_filter_string_is_no_filter (text : string) :
  all_chars blank_or_comma text = true ->
  normalize_ext_list (ext_list (ExtString text)) = None.
Proof.
  intros H. unfold normalize_ext_list, ext_list.
  rewrite (normalize_loop_blank _ (split_on_blank text H)).
  destruct (opt_list_truthy (Some (map strip (split_on "," text)))); reflexivity.
Qed.

Section SetupFacts.
Context {W : Type} {os : OS W}.
Variable getcwd : W -> string.
Variable abspath : W -> string -> string.
Variable int_of_str : string -> option Z.

(** Started with arguments the program asks nothing and prints nothing
    before the [try] block: lines 254-322 leave the state as it is, and the
    state at the [try] is the initial one with the two messages of lines
    325-332 added to the log. There is always at least one directory to
    scan, the threshold in bytes is the one in MB times 1024 * 1024 (the
    message has it in MB), the deletion is on when the flag or the
    configuration entry is, and the two override flags take the filters
    away, also from the message. *)
Theorem main_before_try_with_arguments (argc : nat) (config_delete : bool)
    (args : namespace) (s : state W) :
  argc <> 1%nat ->
  let directories_to_scan :=
    map (fun d => abspath (world s) (strip d)) (split_on "," (ns_directory args)) in
  let scan_args :=
    mkArgs (if ns_all_types args then None else ext_list (ns_include args))
      (if ns_no_exclude args then None else ext_list (ns_exclude args))
      (ns_workers args) (ns_output args) (ns_limit args) (ns_format args)
      (ns_delete args || config_delete) (ns_yes args) in
  let result :=
    (directories_to_scan, ns_size_threshold args * 1024 * 1024, scan_args) in
  main_setup getcwd abspath int_of_str argc config_delete args s
  = (Returned result, s)
  /\ main_before_try getcwd abspath int_of_str argc config_delete args s
     = (Returned result,
        logged s
          [InfoScanningDirectories directories_to_scan (ns_size_threshold args);
           InfoFilters (filter_text (arg_include scan_args) "ALL")
             (filter_text (arg_exclude scan_args) "NONE")])
  /\ directories_to_scan <> [].
Proof.
  intros Hargc dirs scan_args result. apply Nat.eqb_neq in Hargc.
  split; [|split].
  - unfold main_setup, parsed_settings, scan_arguments, interactive.
    rewrite Hargc. unfold bind, ret, get_world. simpl.
    unfold result, scan_args, dirs. destruct (ns_delete args); reflexivity.
  - unfold main_before_try, parsed_settings, scan_arguments, interactive.
    rewrite Hargc. unfold bind, ret, get_world, logging, logged.
    cbn [world stdout stdin log calls set_directory set_size_threshold
         set_output set_exclude set_limit set_include set_delete set_yes
         set_format set_workers set_mode set_all_types set_no_exclude
         arg_include arg_exclude].
    rewrite <- app_assoc. unfold result, scan_args, dirs.
    cbn [arg_include arg_exclude app].
    destruct (ns_delete args); reflexivity.
  - unfold dirs. intros H. apply map_eq_nil in H.
    now apply split_on_not_nil in H.
Qed.

Lemma answers_read_trans (s s1 s2 : state W) (r1 r2 : list string) :
  answers_read s s1 r1 -> answers_read s1 s2 r2 -> answers_read s s2 r2.
Proof.
  unfold answers_read. intros (Hw1 & _ & Hl1 & Hc1) (Hw2 & Hi2 & Hl2 & Hc2).
  repeat split; congruence.
Qed.

Lemma input_answer (prompt : string) (s : state W) (a : string) (rest : list string) :
  stdin s = a :: rest ->
  exists s', input prompt s = (Returned a, s') /\ answers_read s s' rest.
Proof.
  intros H. unfold input. rewrite H. eexists. split; [reflexivity|].
  unfold answers_read. simpl. auto.
Qed.

Lemma input_eof (prompt : string) (s : state W) :
  stdin s = [] -> exists s', input prompt s = (Raised EOFError, s').
Proof. intros H. unfold input. rewrite H. eexists. reflexivity. Qed.

Lemma print_read (text : string) (s : state W) :
  exists s', print text s = (Returned tt, s') /\ answers_read s s' (stdin s).
Proof.
  eexists. split; [reflexivity|]. unfold answers_read. simpl. auto.
Qed.

Lemma choose_mode_asked (args : settings) (s : state W) (a : string)
    (rest : list string) :
  opt_str_truthy (set_mode args) = false ->
  stdin s = a :: rest ->
  exists s',
    choose_mode args s = (Returned (chosen_mode a), s') /\ answers_read s s' rest.
Proof.
  intros Hm Hin. unfold choose_mode. rewrite Hm. cbn [negb].
  destruct (input_answer "Choose mode: [Q]uick, [A]dvanced, or [C]onfig? [Q]: "
              s a rest Hin) as (s' & Hr & Hread).
  unfold bind. rewrite Hr. exists s'. split; [|exact Hread].
  unfold chosen_mode.
  destruct (str_in (lower (strip a)) ["a"; "advanced"]); [reflexivity|].
  destruct (str_in (lower (strip a)) ["c"; "config"]); reflexivity.
Qed.

Lemma ask_directory_spec (s : state W) (a : string) (rest : list string) :
  stdin s = a :: rest ->
  exists s',
    ask_directory getcwd s
    = (Returned (if str_truthy a then a else getcwd (world s)), s')
    /\ answers_read s s' rest.
Proof.
  intros Hin. unfold ask_directory.
  destruct (input_answer
              "Directories (comma-separated) [default: current directory]: "
              s a rest Hin) as (s' & Hr & Hread).
  unfold bind. rewrite Hr. unfold get_world, ret.
  exists s'. split; [|exact Hread]. destruct Hread as (Hw & _). now rewrite Hw.
Qed.

Lemma ask_size_threshold_spec (s : state W) (a : string) (rest : list string) :
  stdin s = a :: rest ->
  exists s',
    ask_size_threshold int_of_str s
    = (match answered_size int_of_str a with
       | Some n => Returned n
       | None => Raised ValueError
       end, s')
    /\ answers_read s s' rest.
Proof.
  intros Hin. unfold ask_size_threshold, answered_size, to_int.
  destruct (input_answer "Minimum size in MB [default: 100]: " s a rest Hin)
    as (s' & Hr & Hread).
  unfold bind. rewrite Hr. exists s'. split; [|exact Hread].
  destruct (str_truthy a); [|reflexivity].
  destruct (int_of_str a); reflexivity.
Qed.

Lemma ask_limit_spec (s : state W) (a : string) (rest : list string) :
  stdin s = a :: rest ->
  exists s',
    ask_limit int_of_str s
    = (match answered_limit int_of_str a with
       | Some l => Returned l
       | None => Raised ValueError
       end, s')
    /\ answers_read s s' rest.
Proof.
  intros Hin. unfold ask_limit, answered_limit, to_int.
  destruct (input_answer "Limit results (optional): " s a rest Hin)
    as (s' & Hr & Hread).
  unfold bind at 1. rewrite Hr. exists s'. split; [|exact Hread].
  destruct (str_truthy (strip a)); [|reflexivity].
  unfold bind. destruct (int_of_str (strip a)); reflexivity.
Qed.

(** Quick mode: three answers are read; a size or a limit that is no
    number raises [ValueError]. *)
Lemma quick_mode_spec (args : settings) (s : state W) (d size lim : string)
    (rest : list string) :
  stdin s = d :: size :: lim :: rest ->
  exists o s',
    quick_mode getcwd int_of_str args s = (o, s')
    /\ (answered_size int_of_str size = None -> o = Raised ValueError)
    /\ (forall n l,
          answered_size int_of_str size = Some n ->
          answered_limit int_of_str lim = Some l ->
          o = Returned
                (mkSettings (if str_truthy d then d else getcwd (world s)) n
                   (set_output args) (set_exclude args) l (set_include args)
                   (set_delete args) (set_yes args) (set_format args)
                   (set_workers args) (set_mode args) (set_all_types args)
                   (set_no_exclude args))
          /\ answers_read s s' rest).
Proof.
  intros Hin. unfold quick_mode.
  destruct (print_read "Quick mode: minimal prompts." s) as (s0 & Hp & R0).
  unfold bind at 1. rewrite Hp.
  assert (H0 : stdin s0 = d :: size :: lim :: rest) by (destruct R0 as (_ & -> & _); exact Hin).
  destruct (ask_directory_spec s0 d _ H0) as (s1 & Hd & R1).
  unfold bind at 1. rewrite Hd.
  assert (H1 : stdin s1 = size :: lim :: rest) by apply R1.
  destruct (ask_size_threshold_spec s1 size _ H1) as (s2 & Hs & R2).
  unfold bind at 1. rewrite Hs.
  destruct (answered_size int_of_str size) as [n|].
  2:{ do 2 eexists. split; [reflexivity|]. split; [reflexivity | discriminate]. }
  assert (H2 : stdin s2 = lim :: rest) by apply R2.
  destruct (ask_limit_spec s2 lim _ H2) as (s3 & Hl & R3).
  unfold bind at 1. rewrite Hl.
  destruct (answered_limit int_of_str lim) as [l|].
  2:{ do 2 eexists. split; [reflexivity|]. split; [discriminate | discriminate]. }
  do 2 eexists. split; [reflexivity|]. split; [discriminate|].
  intros n' l' Hn Hl'. injection Hn as <-. injection Hl' as <-.
  split.
  - destruct R0 as (Hw0 & _). rewrite Hw0. reflexivity.
  - eapply answers_read_trans; [|exact R3].
    eapply answers_read_trans; [|exact R2].
    eapply answers_read_trans; [exact R0 | exact R1].
Qed.

(** Advanced mode: eight answers are read. *)
Lemma advanced_mode_spec (args : settings) (s : state W)
    (d size out exc inc lim del fmt : string) (rest : list string) :
  stdin s = d :: size :: out :: exc :: inc :: lim :: del :: fmt :: rest ->
  exists o s',
    advanced_mode getcwd int_of_str args s = (o, s')
    /\ (answered_size int_of_str size = None -> o = Raised ValueError)
    /\ (forall n l,
          answered_size int_of_str size = Some n ->
          answered_limit int_of_str lim = Some l ->
          o = Returned
                (mkSettings (if str_truthy d then d else getcwd (world s)) n
                   (if str_truthy out then Some out else None)
                   (words_or_none exc) l (words_or_none inc) (is_go del)
                   (set_yes args) (Some (answered_format fmt))
                   (set_workers args) (set_mode args) (set_all_types args)
                   (set_no_exclude args))
          /\ answers_read s s' rest).
Proof.
  intros Hin. unfold advanced_mode.
  destruct (print_read "Advanced mode: customize all options." s) as (s0 & Hp & R0).
  unfold bind at 1. rewrite Hp.
  assert (H0 : stdin s0 = d :: size :: out :: exc :: inc :: lim :: del :: fmt :: rest)
    by (destruct R0 as (_ & -> & _); exact Hin).
  destruct (ask_directory_spec s0 d _ H0) as (s1 & Hd & R1).
  unfold bind at 1. rewrite Hd.
  assert (H1 : stdin s1 = size :: out :: exc :: inc :: lim :: del :: fmt :: rest)
    by apply R1.
  destruct (ask_size_threshold_spec s1 size _ H1) as (s2 & Hs & R2).
  unfold bind at 1. rewrite Hs.
  destruct (answered_size int_of_str size) as [n|].
  2:{ do 2 eexists. split; [reflexivity|]. split; [reflexivity | discriminate]. }
  assert (H2 : stdin s2 = out :: exc :: inc :: lim :: del :: fmt :: rest) by apply R2.
  destruct (input_answer "Output file (optional): " s2 out _ H2) as (s3 & Ho & R3).
  unfold bind at 1. rewrite Ho.
  assert (H3 : stdin s3 = exc :: inc :: lim :: del :: fmt :: rest) by apply R3.
  destruct (input_answer "Exclude types (e.g., .txt .log) (optional): " s3 exc _ H3)
    as (s4 & He & R4).
  unfold bind at 1. rewrite He.
  assert (H4 : stdin s4 = inc :: lim :: del :: fmt :: rest) by apply R4.
  destruct (input_answer "Include types (e.g., .mp4 .pdf) (optional): " s4 inc _ H4)
    as (s5 & Hi & R5).
  unfold bind at 1. rewrite Hi.
  assert (H5 : stdin s5 = lim :: del :: fmt :: rest) by apply R5.
  destruct (ask_limit_spec s5 lim _ H5) as (s6 & Hl & R6).
  unfold bind at 1. rewrite Hl.
  destruct (answered_limit int_of_str lim) as [l|].
  2:{ do 2 eexists. split; [reflexivity|]. split; [discriminate | discriminate]. }
  assert (H6 : stdin s6 = del :: fmt :: rest) by apply R6.
  destruct (input_answer "Delete listed files? (y/N): " s6 del _ H6) as (s7 & Hdel & R7).
  unfold bind at 1. rewrite Hdel.
  assert (H7 : stdin s7 = fmt :: rest) by apply R7.
  destruct (input_answer "Format: table/json/csv [table]: " s7 fmt _ H7)
    as (s8 & Hf & R8).
  unfold bind at 1. rewrite Hf.
  do 2 eexists. split; [reflexivity|]. split; [discriminate|].
  intros n' l' Hn Hl'. injection Hn as <-. injection Hl' as <-.
  split.
  - destruct R0 as (Hw0 & _). rewrite Hw0. reflexivity.
  - eapply answers_read_trans; [|exact R8].
    eapply answers_read_trans; [|exact R7].
    eapply answers_read_trans; [|exact R6].
    eapply answers_read_trans; [|exact R5].
    eapply answers_read_trans; [|exact R4].
    eapply answers_read_trans; [|exact R3].
    eapply answers_read_trans; [|exact R2].
    eapply answers_read_trans; [exact R0 | exact R1].
Qed.

Lemma chosen_mode_cases (a : string) :
  chosen_mode a = "advanced" \/ chosen_mode a = "config" \/ chosen_mode a = "quick".
Proof.
  unfold chosen_mode.
  destruct (str_in (lower (strip a)) ["a"; "advanced"]); [now left|].
  destruct (str_in (lower (strip a)) ["c"; "config"]); auto.
Qed.

(** After the first answer the questions of the chosen mode follow. *)
Lemma interactive_asked (args : settings) (s : state W) (choice : string)
    (rest : list string) :
  opt_str_truthy (set_mode args) = false ->
  stdin s = choice :: rest ->
  exists s0,
    answers_read s s0 rest
    /\ interactive getcwd int_of_str 1 args s
       = if String.eqb (chosen_mode choice) "config"
         then (print "Using configuration file settings." ;;; ret args) s0
         else if String.eqb (chosen_mode choice) "quick"
              then quick_mode getcwd int_of_str args s0
              else advanced_mode getcwd int_of_str args s0.
Proof.
  intros Hm Hin. unfold interactive. cbn [Nat.eqb].
  destruct (choose_mode_asked args s choice rest Hm Hin) as (s0 & Hc & R).
  exists s0. split; [exact R|]. unfold bind at 1. rewrite Hc.
  destruct (String.eqb (chosen_mode choice) "config"); [reflexivity|].
  destruct (String.eqb (chosen_mode choice) "quick"); reflexivity.
Qed.

(** Quick mode asks for the directories, the size and the limit only.
    The output file, the filters, the format and the deletion are taken
    from the configuration file without a question: a [delete] entry set
    there stays in force. *)
Theorem quick_mode_keeps_the_configuration (config_delete : bool)
    (args : namespace) (s : state W) (choice d size lim : string)
    (rest : list string) (n : Z) (l : option Z) :
  opt_str_truthy (ns_mode args) = false ->
  stdin s = choice :: d :: size :: lim :: rest ->
  chosen_mode choice = "quick" ->
  answered_size int_of_str size = Some n ->
  answered_limit int_of_str lim = Some l ->
  exists s',
    main_setup getcwd abspath int_of_str 1 config_delete args s
    = (Returned
         (map (fun p => abspath (world s) (strip p))
            (split_on "," (if str_truthy d then d else getcwd (world s))),
          n * 1024 * 1024,
          mkArgs (if ns_all_types args then None else ext_list (ns_include args))
            (if ns_no_exclude args then None else ext_list (ns_exclude args))
            (ns_workers args) (ns_output args) l (ns_format args)
            (ns_delete args || config_delete) (ns_yes args)),
       s')
    /\ answers_read s s' rest.
Proof.
  intros Hm Hin Hq Hn Hl. unfold main_setup, parsed_settings, scan_arguments.
  match goal with |- context [interactive _ _ 1 ?S] => set (S0 := S) end.
  destruct (interactive_asked S0 s choice _ Hm Hin) as (s0 & R0 & Hi).
  rewrite Hq in Hi. cbn [String.eqb Ascii.eqb Bool.eqb] in Hi.
  assert (H0 : stdin s0 = d :: size :: lim :: rest) by apply R0.
  destruct (quick_mode_spec S0 s0 d size lim rest H0) as (o & s1 & Hr & _ & Hok).
  destruct (Hok n l Hn Hl) as (-> & R1).
  unfold bind at 1. rewrite Hi, Hr. unfold get_world, bind, ret. cbn [set_directory
    set_size_threshold set_output set_exclude set_limit set_include set_delete
    set_yes set_format set_workers set_mode set_all_types set_no_exclude S0].
  exists s1. split; [|eapply answers_read_trans; eassumption].
  destruct R0 as (Hw0 & _). destruct R1 as (Hw1 & _). rewrite Hw1, Hw0.
  destruct (ns_delete args); reflexivity.
Qed.

(** Advanced mode asks for every setting. The format it hands on is
    always one of table, json and csv, and the deletion is on exactly when
    the answer to its question is [y] or [yes]: the [delete] entry of the
    configuration file is overridden either way. *)
Theorem advanced_mode_settings (config_delete : bool)
    (args : namespace) (s : state W)
    (choice d size out exc inc lim del fmt : string)
    (rest : list string) (n : Z) (l : option Z) :
  opt_str_truthy (ns_mode args) = false ->
  stdin s = choice :: d :: size :: out :: exc :: inc :: lim :: del :: fmt :: rest ->
  chosen_mode choice = "advanced" ->
  answered_size int_of_str size = Some n ->
  answered_limit int_of_str lim = Some l ->
  In (answered_format fmt) ["table"; "json"; "csv"]
  /\ exists s',
       main_setup getcwd abspath int_of_str 1 config_delete args s
       = (Returned
            (map (fun p => abspath (world s) (strip p))
               (split_on "," (if str_truthy d then d else getcwd (world s))),
             n * 1024 * 1024,
             mkArgs (if ns_all_types args then None else words_or_none inc)
               (if ns_no_exclude args then None else words_or_none exc)
               (ns_workers args) (if str_truthy out then Some out else None) l
               (Some (answered_format fmt)) (is_go del) (ns_yes args)),
          s')
       /\ answers_read s s' rest.
Proof.
  intros Hm Hin Ha Hn Hl. split.
  { unfold answered_format.
    destruct (str_in (lower (strip fmt)) ["table"; "json"; "csv"]) eqn:E;
      [now apply str_in_In in E | simpl; auto]. }
  unfold main_setup, parsed_settings, scan_arguments.
  match goal with |- context [interactive _ _ 1 ?S] => set (S0 := S) end.
  destruct (interactive_asked S0 s choice _ Hm Hin) as (s0 & R0 & Hi).
  rewrite Ha in Hi. cbn [String.eqb Ascii.eqb Bool.eqb] in Hi.
  assert (H0 : stdin s0 = d :: size :: out :: exc :: inc :: lim :: del :: fmt :: rest)
    by apply R0.
  destruct (advanced_mode_spec S0 s0 d size out exc inc lim del fmt rest H0)
    as (o & s1 & Hr & _ & Hok).
  destruct (Hok n l Hn Hl) as (-> & R1).
  unfold bind at 1. rewrite Hi, Hr. unfold get_world, bind, ret. cbn [set_directory
    set_size_threshold set_output set_exclude set_limit set_include set_delete
    set_yes set_format set_workers set_mode set_all_types set_no_exclude S0].
  exists s1. split; [|eapply answers_read_trans; eassumption].
  destruct R0 as (Hw0 & _). destruct R1 as (Hw1 & _). rewrite Hw1, Hw0.
  reflexivity.
Qed.

(** The questions are asked before the [try] block, so what they raise is
    not caught by it and leaves [main]: [EOFError] when the input ends at
    the first question, [ValueError] when the answer to the size question
    is not a number. *)
Theorem interactive_errors_leave_main (config_delete : bool) (args : namespace)
    (s : state W) :
  opt_str_truthy (ns_mode args) = false ->
  (stdin s = [] ->
   exists s',
     main_setup getcwd abspath int_of_str 1 config_delete args s
     = (Raised EOFError, s'))
  /\ (forall choice d size rest,
        stdin s = choice :: d :: size :: rest ->
        chosen_mode choice <> "config" ->
        answered_size int_of_str size = None ->
        exists s',
          main_setup getcwd abspath int_of_str 1 config_delete args s
          = (Raised ValueError, s')).
Proof.
  intros Hm. split.
  - intros Hin. unfold main_setup, parsed_settings, interactive, choose_mode.
    cbn [Nat.eqb].
    cbn [set_mode]. rewrite Hm. cbn [negb].
    destruct (input_eof "Choose mode: [Q]uick, [A]dvanced, or [C]onfig? [Q]: " s Hin)
      as (s' & Hr).
    unfold bind. rewrite Hr. eexists. reflexivity.
  - intros choice d size rest Hin Hnc Hbad.
    unfold main_setup, parsed_settings, scan_arguments.
    match goal with |- context [interactive _ _ 1 ?S] => set (S0 := S) end.
    destruct (interactive_asked S0 s choice _ Hm Hin) as (s0 & R0 & Hi).
    assert (H0 : stdin s0 = d :: size :: rest) by apply R0.
    unfold bind at 1. rewrite Hi.
    destruct (chosen_mode_cases choice) as [Hc|[Hc|Hc]]; [|contradiction|];
      rewrite Hc; cbn [String.eqb Ascii.eqb Bool.eqb].
    + unfold advanced_mode.
      destruct (print_read "Advanced mode: customize all options." s0)
        as (s1 & Hp & R1).
      unfold bind at 1. rewrite Hp.
      assert (H1 : stdin s1 = d :: size :: rest)
        by (destruct R1 as (_ & -> & _); exact H0).
      destruct (ask_directory_spec s1 d _ H1) as (s2 & Hd & R2).
      unfold bind at 1. rewrite Hd.
      assert (H2 : stdin s2 = size :: rest) by apply R2.
      destruct (ask_size_threshold_spec s2 size _ H2) as (s3 & Hs & _).
      unfold bind at 1. rewrite Hs, Hbad. eexists. reflexivity.
    + unfold quick_mode.
      destruct (print_read "Quick mode: minimal prompts." s0) as (s1 & Hp & R1).
      unfold bind at 1. rewrite Hp.
      assert (H1 : stdin s1 = d :: size :: rest)
        by (destruct R1 as (_ & -> & _); exact H0).
      destruct (ask_directory_spec s1 d _ H1) as (s2 & Hd & R2).
      unfold bind at 1. rewrite Hd.
      assert (H2 : stdin s2 = size :: rest) by apply R2.
      destruct (ask_size_threshold_spec s2 size _ H2) as (s3 & Hs & _).
      unfold bind at 1. rewrite Hs, Hbad. eexists. reflexivity.
Qed.

End SetupFacts.

(** ** The further properties at concrete inputs *)

Lemma find_large_files_lists_every_large_candidate_witness :
  let file_paths :=
    candidate_paths (world demo_state) (normalize_ext_list None)
      (normalize_ext_list None) ["/d"] in
  (forall p sz,
     In (p, sz) demo_files <->
     In p file_paths /\ getsize (world demo_state) p = Some sz /\ 100 < sz)
  /\ (forall p sz,
        getsize (world demo_state) p = Some sz -> 100 < sz ->
        count_occ string_dec (map fst demo_files) p = count_occ string_dec file_paths p).
Proof.
  apply (find_large_files_lists_every_large_candidate ["/d"] 100 None None None []
           demo_state demo_scanned demo_files).
  vm_compute. reflexivity.
Defined.

Lemma find_large_files_without_candidates_witness :
  exists s',
    find_large_files ["/nowhere"] 100 (Some ["bin"]) None (Some 0) [] demo_state
    = (Returned [], s')
    /\ world s' = world demo_state /\ calls s' = calls demo_state
    /\ stdout s' = stdout demo_state.
Proof.
  apply (find_large_files_without_candidates ["/nowhere"] 100 (Some ["bin"]) None
           (Some 0) [] demo_state).
  vm_compute. reflexivity.
Defined.

Lemma find_large_files_roots_add_up_witness :
  exists files files1 files2 s' s1 s2,
    find_large_files (["/d"] ++ ["/nowhere"; "/d"]) 100 None (Some ["txt"])
      (Some 2) [1; 0; 1]%nat demo_state = (Returned files, s')
    /\ find_large_files ["/d"] 100 None (Some ["txt"]) (Some 2) [] demo_state
       = (Returned files1, s1)
    /\ find_large_files ["/nowhere"; "/d"] 100 None (Some ["txt"]) (Some 2) [1]%nat
         demo_state = (Returned files2, s2)
    /\ Permutation files (files1 ++ files2).
Proof.
  apply (find_large_files_roots_add_up ["/d"] ["/nowhere"; "/d"] 100 None
           (Some ["txt"]) (Some 2) [1; 0; 1]%nat [] [1]%nat demo_state).
  simpl. lia.
Defined.

Lemma find_large_files_raising_threshold_witness :
  [("/d/e,f.bin", 300); ("/d/b.txt", 200)]
  = filter (fun r => 150 <? snd r) demo_files.
Proof.
  apply (find_large_files_raising_threshold ["/d"] 100 150 None None None [] []
           demo_state demo_scanned
           (snd (find_large_files ["/d"] 150 None None None [] demo_state))).
  - lia.
  - vm_compute. reflexivity.
  - vm_compute. reflexivity.
Defined.

Lemma display_large_files_returns_prefix_witness :
  let used_files := [("/d/e,f.bin", 300); ("/d/b.txt", 200)] in
  let s' :=
    snd (display_large_files grid demo_files (Some "/out/r.csv") (Some 2)
           (Some "csv") demo_state) in
  firstn (length used_files) demo_files = used_files
  /\ (demo_files <> [] ->
      exists before,
        log s' = (before ++ [InfoSummary (Z.of_nat (length used_files))
                               (sum_sizes used_files)])%list).
Proof.
  apply (display_large_files_returns_prefix grid demo_files (Some "/out/r.csv")
           (Some 2) (Some "csv") demo_state).
  vm_compute. reflexivity.
Defined.

Lemma display_large_files_negative_limit_witness :
  let s' :=
    snd (display_large_files grid demo_files None (Some (-1)) (Some "csv")
           demo_state) in
  let used_files :=
    firstn (Z.to_nat (Z.of_nat (length demo_files) + -1)) demo_files in
  Z.of_nat (length used_files) = Z.max 0 (Z.of_nat (length demo_files) + -1)
  /\ (Returned [("/d/e,f.bin", 300); ("/d/b.txt", 200); ("/d/c.bin", 150)]
      = Returned used_files
      \/ Returned [("/d/e,f.bin", 300); ("/d/b.txt", 200); ("/d/c.bin", 150)]
         = Raised OSError)
  /\ stdout s' = (stdout demo_state ++ stdout_text grid (Some "csv") used_files)%string.
Proof.
  apply (display_large_files_negative_limit grid demo_files None (-1) (Some "csv")
           demo_state).
  - lia.
  - discriminate.
  - vm_compute. reflexivity.
Defined.

Lemma display_large_files_format_case_witness :
  let s' :=
    snd (display_large_files grid demo_files (Some "/out/r.json") None
           (Some "JSON") demo_state) in
  let used_files := apply_limit demo_files None in
  stdout s'
  = (stdout demo_state ++ newline ++ "Large files found:" ++ newline
     ++ grid (table_data used_files) table_headers ++ newline)%string
  /\ forall text ok,
       In (CallWrite "/out/r.json" text ok) (calls s') ->
       In (CallWrite "/out/r.json" text ok) (calls demo_state)
       \/ text = (if String.eqb "json" "json" then json_dumps false used_files
                  else csv_file_text used_files).
Proof.
  apply (display_large_files_format_case grid demo_files "/out/r.json" None
           "JSON" "json" demo_state
           (snd (display_large_files grid demo_files (Some "/out/r.json") None
                   (Some "JSON") demo_state))
           (fst (display_large_files grid demo_files (Some "/out/r.json") None
                   (Some "JSON") demo_state))).
  - discriminate.
  - discriminate.
  - discriminate.
  - reflexivity.
  - simpl. auto.
  - vm_compute. reflexivity.
Defined.

Lemma display_large_files_touches_only_output_witness :
  let s' :=
    snd (display_large_files grid demo_files (Some "/out/r.txt") (Some 3)
           (Some "table") demo_scanned) in
  stdin s' = stdin demo_scanned
  /\ (forall p, In (CallGetsize p) (calls s') -> In (CallGetsize p) (calls demo_scanned))
  /\ (forall p ok,
        In (CallRemove p ok) (calls s') -> In (CallRemove p ok) (calls demo_scanned))
  /\ (forall p text ok,
        In (CallWrite p text ok) (calls s') ->
        In (CallWrite p text ok) (calls demo_scanned) \/ Some "/out/r.txt" = Some p)
  /\ (opt_str_truthy (Some "/out/r.txt") = false ->
      calls s' = calls demo_scanned /\ world s' = world demo_scanned).
Proof.
  apply (display_large_files_touches_only_output grid demo_files (Some "/out/r.txt")
           (Some 3) (Some "table") demo_scanned
           (snd (display_large_files grid demo_files (Some "/out/r.txt") (Some 3)
                   (Some "table") demo_scanned))
           (fst (display_large_files grid demo_files (Some "/out/r.txt") (Some 3)
                   (Some "table") demo_scanned))).
  vm_compute. reflexivity.
Defined.

Lemma main_try_removes_only_on_go_witness :
  let s := initial demo_fs ["n"] in
  let args := mkArgs None None None None None (Some "table") true false in
  let s' := snd (main_try grid ["/d"] 100 args [] s) in
  arg_delete args
  && (arg_yes args || match stdin s with [] => false | a :: _ => is_go a end)
  = false
  /\ forall p ok, In (CallRemove p ok) (calls s') -> In (CallRemove p ok) (calls s).
Proof.
  split; [reflexivity|].
  apply (main_try_removes_only_on_go grid ["/d"] 100
           (mkArgs None None None None None (Some "table") true false) []
           (initial demo_fs ["n"])
           (snd (main_try grid ["/d"] 100
                   (mkArgs None None None None None (Some "table") true false) []
                   (initial demo_fs ["n"])))
           (fst (main_try grid ["/d"] 100
                   (mkArgs None None None None None (Some "table") true false) []
                   (initial demo_fs ["n"])))).
  - vm_compute. reflexivity.
  - vm_compute. reflexivity.
Defined.

Lemma main_try_removes_the_displayed_files_witness :
  let s := initial demo_fs [" Yes "] in
  let args := mkArgs None (Some ["TXT"]) (Some 2) None (Some 2) (Some "json") true false in
  let file_paths :=
    candidate_paths (world s) (normalize_ext_list (arg_include args))
      (normalize_ext_list (arg_exclude args)) ["/d"] in
  let used_files :=
    apply_limit (sort_by_size_desc (qualifying (world s) 100 file_paths))
      (arg_limit args) in
  exists order oks s',
    main_try grid ["/d"] 100 args [1; 1]%nat s = (Returned tt, s')
    /\ Permutation order file_paths
    /\ length oks = length used_files
    /\ calls s' = (calls s ++ map CallGetsize order
                   ++ removals (map fst used_files) oks)%list.
Proof.
  apply (main_try_removes_the_displayed_files grid ["/d"] 100
           (mkArgs None (Some ["TXT"]) (Some 2) None (Some 2) (Some "json") true false)
           [1; 1]%nat (initial demo_fs [" Yes "])).
  - vm_compute. reflexivity.
  - simpl. lia.
  - reflexivity.
Defined.

Lemma file_without_extension_witness :
  scan_files (normalize_ext_list (Some ["bin"])) (normalize_ext_list None) "/d"
    ["Makefile"]
  = match normalize_ext_list (Some ["bin"]) with
    | Some _ => []
    | None => [path_join "/d" "Makefile"]
    end.
Proof.
  apply (file_without_extension (Some ["bin"]) None "/d" "Makefile").
  reflexivity.
Defined.

Lemma format_size_bytes_exact_witness :
  format_size 512 = digits 512 ++ ".00 B".
Proof.
  apply (format_size_bytes_exact 512). lia.
Defined.

Lemma format_size_unit_witness :
  format_size 9007292713229353
  = format_2f (float_of_int 9007292713229353) (1024 ^ Z.of_nat 4)
    ++ " " ++ nth 4 units ""
  /\ (Z.abs 9007292713229353 < 2 ^ 53 ->
      float_of_int 9007292713229353 = 9007292713229353).
Proof.
  apply (format_size_unit 9007292713229353 4).
  - vm_compute. reflexivity.
  - lia.
  - right. simpl. lia.
  - left. reflexivity.
Defined.

Lemma blank_filter_string_is_no_filter_witness :
  normalize_ext_list (ext_list (ExtString " , ,")) = None.
Proof.
  apply (blank_filter_string_is_no_filter " , ,"). reflexivity.
Defined.

Lemma main_before_try_with_arguments_witness :
  let args :=
    mkNamespace "/d, sub" 100 None (ExtString ".tmp, log") (Some 3)
      (ExtList [".bin"; "TXT"]) false true (Some "csv") None None true false in
  let directories_to_scan :=
    map (fun d => demo_abspath (world demo_state) (strip d))
      (split_on "," (ns_directory args)) in
  let scan_args :=
    mkArgs (if ns_all_types args then None else ext_list (ns_include args))
      (if ns_no_exclude args then None else ext_list (ns_exclude args))
      (ns_workers args) (ns_output args) (ns_limit args) (ns_format args)
      (ns_delete args || true) (ns_yes args) in
  let result :=
    (directories_to_scan, ns_size_threshold args * 1024 * 1024, scan_args) in
  main_setup demo_getcwd demo_abspath demo_int 3 true args demo_state
  = (Returned result, demo_state)
  /\ main_before_try demo_getcwd demo_abspath demo_int 3 true args demo_state
     = (Returned result,
        logged demo_state
          [InfoScanningDirectories directories_to_scan (ns_size_threshold args);
           InfoFilters (filter_text (arg_include scan_args) "ALL")
             (filter_text (arg_exclude scan_args) "NONE")])
  /\ directories_to_scan <> [].
Proof.
  apply (main_before_try_with_arguments demo_getcwd demo_abspath demo_int 3 true
           (mkNamespace "/d, sub" 100 None (ExtString ".tmp, log") (Some 3)
              (ExtList [".bin"; "TXT"]) false true (Some "csv") None None true false)
           demo_state).
  lia.
Defined.

Lemma main_try_always_returns_witness :
  let args := mkArgs None None (Some 0) None None (Some "table") true true in
  let scanned :=
    snd (find_large_files ["/d"] 100 None None (Some 0) [] demo_state) in
  main_try grid ["/d"] 100 args [] demo_state
  = (Returned tt, logged scanned [ExceptionUnexpected ValueError])
  /\ (ValueError = ValueError /\ ~ valid_workers (arg_workers args)
      \/ ValueError = OSError /\ opt_str_truthy (arg_output args) = true
      \/ ValueError = EOFError /\ arg_delete args = true /\ arg_yes args = false
         /\ stdin demo_state = []).
Proof.
  exact (main_try_always_returns grid ["/d"] 100
           (mkArgs None None (Some 0) None None (Some "table") true true) []
           demo_state).
Defined.

Lemma quick_mode_keeps_the_configuration_witness :
  let s := initial demo_fs [""; "/d, sub"; "50"; " "; "left"] in
  exists s',
    main_setup demo_getcwd demo_abspath demo_int 1 true demo_namespace s
    = (Returned
         (map (fun p => demo_abspath (world s) (strip p))
            (split_on "," (if str_truthy "/d, sub" then "/d, sub"
                           else demo_getcwd (world s))),
          50 * 1024 * 1024,
          mkArgs
            (if ns_all_types demo_namespace then None
             else ext_list (ns_include demo_namespace))
            (if ns_no_exclude demo_namespace then None
             else ext_list (ns_exclude demo_namespace))
            (ns_workers demo_namespace) (ns_output demo_namespace) None
            (ns_format demo_namespace) (ns_delete demo_namespace || true)
            (ns_yes demo_namespace)),
       s')
    /\ answers_read s s' ["left"].
Proof.
  apply (quick_mode_keeps_the_configuration demo_getcwd demo_abspath demo_int true
           demo_namespace (initial demo_fs [""; "/d, sub"; "50"; " "; "left"])
           "" "/d, sub" "50" " " ["left"] 50 None).
  - reflexivity.
  - reflexivity.
  - reflexivity.
  - vm_compute. reflexivity.
  - vm_compute. reflexivity.
Defined.

Lemma advanced_mode_settings_witness :
  let s :=
    initial demo_fs ["A"; ""; ""; "/out/r.csv"; ".txt .log"; ""; "3"; "no"; "CSV "] in
  In (answered_format "CSV ") ["table"; "json"; "csv"]
  /\ exists s',
       main_setup demo_getcwd demo_abspath demo_int 1 true demo_namespace s
       = (Returned
            (map (fun p => demo_abspath (world s) (strip p))
               (split_on "," (if str_truthy "" then "" else demo_getcwd (world s))),
             100 * 1024 * 1024,
             mkArgs
               (if ns_all_types demo_namespace then None else words_or_none "")
               (if ns_no_exclude demo_namespace then None
                else words_or_none ".txt .log")
               (ns_workers demo_namespace)
               (if str_truthy "/out/r.csv" then Some "/out/r.csv" else None)
               (Some 3) (Some (answered_format "CSV ")) (is_go "no")
               (ns_yes demo_namespace)),
          s')
       /\ answers_read s s' [].
Proof.
  apply (advanced_mode_settings demo_getcwd demo_abspath demo_int true
           demo_namespace
           (initial demo_fs ["A"; ""; ""; "/out/r.csv"; ".txt .log"; ""; "3"; "no"; "CSV "])
           "A" "" "" "/out/r.csv" ".txt .log" "" "3" "no" "CSV " [] 100 (Some 3)).
  - reflexivity.
  - reflexivity.
  - vm_compute. reflexivity.
  - vm_compute. reflexivity.
  - vm_compute. reflexivity.
Defined.

Lemma interactive_errors_leave_main_witness :
  (exists s',
     main_setup demo_getcwd demo_abspath demo_int 1 false demo_namespace
       (initial demo_fs []) = (Raised EOFError, s'))
  /\ (exists s',
        main_setup demo_getcwd demo_abspath demo_int 1 false demo_namespace
          (initial demo_fs ["a"; ""; "ten"]) = (Raised ValueError, s')).
Proof.
  split.
  - apply (interactive_errors_leave_main demo_getcwd demo_abspath demo_int false
             demo_namespace (initial demo_fs [])); reflexivity.
  - apply (proj2 (interactive_errors_leave_main demo_getcwd demo_abspath demo_int
                    false demo_namespace (initial demo_fs ["a"; ""; "ten"])
                    eq_refl)
             "a" "" "ten" []).
    + reflexivity.
    + vm_compute. discriminate.
    + vm_compute. reflexivity.
Defined.
